(** * Node-replacing optimizations of the ONNX converter

    A shallow embedding of [optimizer_scripts/tools/replacing.py]: the ONNX
    graph as records, the in-place edits of the passes as a state and
    exception monad over the graph, and the properties of the passes. *)

From Stdlib Require Import String Ascii ZArith QArith List Bool Lia Permutation Arith.
From Stdlib.Strings Require Import Byte.
Import ListNotations.

Local Open Scope string_scope.
Local Open Scope Z_scope.
Local Open Scope list_scope.

(** ** Python values *)

(** The exceptions the passes can end with. *)
Inductive exn : Type :=
| IndexError
| KeyError (key : string)
| AttributeError
| ValueError
| StructError
| ZeroDivisionError
| RuntimeError (msg : string).

(** A Python float is modelled by the value it denotes, a rational or one of
    the special values (the sign of a zero is not kept): the passes copy
    floats and write the literals 0.0, 1.0, 0.00001 and 0.9, they never
    compute with them. *)
Inductive float : Type :=
| Finite (q : Q)
| Inf (negative : bool)
| NaN.

Definition float_eq_dec (x y : float) : {x = y} + {x <> y}.
Proof.
  decide equality; [| apply bool_dec].
  decide equality; [apply Pos.eq_dec | apply Z.eq_dec].
Defined.

(** ** Lists the way Python indexes them *)

Module Py.

(** [l[i]] for an index that may be negative. *)
Definition index {A} (l : list A) (i : Z) : option A :=
  let n := Z.of_nat (length l) in
  if (0 <=? i) && (i <? n) then nth_error l (Z.to_nat i)
  else if (- n <=? i) && (i <? 0) then nth_error l (Z.to_nat (n + i))
  else None.

(** [l[i] = x] at a position known to exist. *)
Fixpoint set_nth {A} (l : list A) (i : nat) (x : A) : list A :=
  match l, i with
  | [], _ => []
  | _ :: t, O => x :: t
  | h :: t, S j => h :: set_nth t j x
  end.

(** [l[i] = x], [None] standing for IndexError. *)
Definition assign {A} (l : list A) (i : nat) (x : A) : option (list A) :=
  if (i <? length l)%nat then Some (set_nth l i x) else None.

(** [l.pop()]: the list without its last element. *)
Definition pop {A} (l : list A) : option (list A) :=
  match l with
  | [] => None
  | _ => Some (removelast l)
  end.

(** [l.remove(x)]: drops the first element equal to [x]. *)
Fixpoint remove {A} (eqb : A -> A -> bool) (x : A) (l : list A) : option (list A) :=
  match l with
  | [] => None
  | h :: t => if eqb h x then Some t
              else match remove eqb x t with
                   | Some t' => Some (h :: t')
                   | None => None
                   end
  end.

(** [range(n)] *)
Definition range (n : Z) : list Z := map Z.of_nat (seq 0 (Z.to_nat n)).

(** [[x] * n] *)
Definition replicate {A} (x : A) (n : Z) : list A := repeat x (Z.to_nat n).

(** [sum(l)] *)
Definition sum (l : list Z) : Z := fold_left Z.add l 0.

(** The value of an IEEE-754 binary32 word. *)
Definition f32_of_bits (bits : Z) : float :=
  let negative := Z.testbit bits 31 in
  let e := Z.land (Z.shiftr bits 23) 255 in
  let m := Z.land bits (2 ^ 23 - 1) in
  if e =? 255 then (if m =? 0 then Inf negative else NaN)
  else
    let mag := if e =? 0 then (inject_Z m * Qpower 2 (-149))%Q
               else (inject_Z (2 ^ 23 + m) * Qpower 2 (e - 150))%Q in
    Finite (Qred (if negative then Qopp mag else mag)).

Definition word_of_bytes (b0 b1 b2 b3 : byte) : Z :=
  Z.of_N (Byte.to_N b0) + 256 * Z.of_N (Byte.to_N b1)
  + 65536 * Z.of_N (Byte.to_N b2) + 16777216 * Z.of_N (Byte.to_N b3).

(** [[i[0] for i in struct.iter_unpack('f', raw)]]: the buffer read as
    consecutive little-endian binary32 words; [None] (struct.error) when it
    is not a whole number of words. *)
Fixpoint iter_unpack_f (raw : list byte) : option (list float) :=
  match raw with
  | [] => Some []
  | b0 :: b1 :: b2 :: b3 :: rest =>
      match iter_unpack_f rest with
      | Some l => Some (f32_of_bits (word_of_bytes b0 b1 b2 b3) :: l)
      | None => None
      end
  | _ => None
  end.

End Py.

(** ** The graph *)

(** TensorProto: a constant tensor.  Its values are in [float_data] or
    [int64_data], or packed in [raw_data]. *)
Record Tensor : Type := mkTensor {
  t_name : string;
  data_type : Z;
  dims : list Z;
  float_data : list float;
  int64_data : list Z;
  raw_data : list byte
}.

Definition FLOAT : Z := 1.
Definition INT64 : Z := 7.

(** The tensor read from an attribute that holds none. *)
Definition empty_tensor : Tensor := mkTensor "" 0 [] [] [] [].

(** AttributeProto: a named, tagged value. *)
Inductive AttrValue : Type :=
| AInt (i : Z)
| AFloat (f : float)
| AInts (ints : list Z)
| AFloats (floats : list float)
| ATensor (t : Tensor).

Record Attribute : Type := mkAttr {
  a_name : string;
  a_value : AttrValue
}.

(** Reading a field of an attribute of another kind gives the default. *)
Definition a_i (a : Attribute) : Z :=
  match a_value a with AInt i => i | _ => 0 end.
Definition a_ints (a : Attribute) : list Z :=
  match a_value a with AInts l => l | _ => [] end.
Definition a_t (a : Attribute) : Tensor :=
  match a_value a with ATensor t => t | _ => empty_tensor end.

(** NodeProto *)
Record Node : Type := mkNode {
  op_type : string;
  name : string;
  input : list string;
  output : list string;
  attribute : list Attribute
}.

(** One dimension of a value's shape: a size, a symbol, or nothing. *)
Inductive Dimension : Type :=
| DimValue (v : Z)
| DimParam (p : string)
| DimUnset.

(** [dim.dim_value]: 0 when the dimension holds no size. *)
Definition dim_value (d : Dimension) : Z :=
  match d with DimValue v => v | _ => 0 end.

(** ValueInfoProto, with [vi_dim] for [type.tensor_type.shape.dim]. *)
Record ValueInfo : Type := mkValueInfo {
  vi_name : string;
  elem_type : Z;
  vi_dim : list Dimension
}.

(** GraphProto *)
Record Graph : Type := mkGraph {
  node : list Node;
  g_input : list ValueInfo;
  g_output : list ValueInfo;
  initializer : list Tensor;
  value_info : list ValueInfo
}.

(** *** Equality of messages *)

Definition Tensor_eq_dec (x y : Tensor) : {x = y} + {x <> y}.
Proof.
  decide equality;
    try apply list_eq_dec;
    try apply Byte.byte_eq_dec; try apply Z.eq_dec;
    try apply float_eq_dec; try apply string_dec.
Defined.

Definition AttrValue_eq_dec (x y : AttrValue) : {x = y} + {x <> y}.
Proof.
  decide equality;
    try apply list_eq_dec;
    try apply Tensor_eq_dec; try apply Z.eq_dec;
    try apply float_eq_dec.
Defined.

Definition Attribute_eq_dec (x y : Attribute) : {x = y} + {x <> y}.
Proof. decide equality; [apply AttrValue_eq_dec | apply string_dec]. Defined.

Definition Node_eq_dec (x y : Node) : {x = y} + {x <> y}.
Proof.
  decide equality;
    try apply list_eq_dec; try apply Attribute_eq_dec; try apply string_dec.
Defined.

Definition Dimension_eq_dec (x y : Dimension) : {x = y} + {x <> y}.
Proof. decide equality; [apply Z.eq_dec | apply string_dec]. Defined.

Definition ValueInfo_eq_dec (x y : ValueInfo) : {x = y} + {x <> y}.
Proof.
  decide equality;
    try apply list_eq_dec; try apply Dimension_eq_dec;
    try apply Z.eq_dec; try apply string_dec.
Defined.

Definition Node_eqb (x y : Node) : bool :=
  if Node_eq_dec x y then true else false.
Definition ValueInfo_eqb (x y : ValueInfo) : bool :=
  if ValueInfo_eq_dec x y then true else false.

(** ** The state of a pass and its monad *)

(** A pass edits the graph in place, keeps the list [node_to_remove] of the
    nodes it has superseded, and may print.  A Python reference to a node of
    [g.node] is the node's position: during a scan the list only grows at its
    end, so positions stay valid. *)
Record State : Type := mkState {
  graph : Graph;
  node_to_remove : list nat;
  stdout : list string
}.

Definition initial (g : Graph) : State := mkState g [] [].

(** How a computation ends: with a value, with an exception, or cut short
    because the scan was given too few steps. *)
Inductive result (A : Type) : Type :=
| Ok (a : A)
| Raise (e : exn)
| OutOfFuel.

Arguments Ok {A} a.
Arguments Raise {A} e.
Arguments OutOfFuel {A}.

Definition M (A : Type) : Type := State -> result A * State.

Definition ret {A} (a : A) : M A := fun s => (Ok a, s).

Definition bind {A B} (m : M A) (k : A -> M B) : M B :=
  fun s => match m s with
           | (Ok a, s') => k a s'
           | (Raise e, s') => (Raise e, s')
           | (OutOfFuel, s') => (OutOfFuel, s')
           end.

Definition raise {A} (e : exn) : M A := fun s => (Raise e, s).

Notation "x <- m ;; k" := (bind m (fun x => k))
  (at level 61, m at next level, right associativity).
Notation "m ;; k" := (bind m (fun _ => k))
  (at level 61, right associativity).

(** An index or key that must exist. *)
Definition orelse {A} (o : option A) (e : exn) : M A :=
  match o with Some a => ret a | None => raise e end.

Definition get_graph : M Graph := fun s => (Ok (graph s), s).

Definition put_graph (g : Graph) : M unit :=
  fun s => (Ok tt, mkState g (node_to_remove s) (stdout s)).

Definition set_nodes (g : Graph) (l : list Node) : Graph :=
  mkGraph l (g_input g) (g_output g) (initializer g) (value_info g).

Definition set_value_info (g : Graph) (l : list ValueInfo) : Graph :=
  mkGraph (node g) (g_input g) (g_output g) (initializer g) l.

(** The node a reference points to. *)
Definition node_at (i : nat) : M Node :=
  g <- get_graph ;; orelse (nth_error (node g) i) IndexError.

(** An in-place edit of the node a reference points to. *)
Definition update_node (i : nat) (n : Node) : M unit :=
  g <- get_graph ;; put_graph (set_nodes g (Py.set_nth (node g) i n)).

(** [g.node.extend(l)] *)
Definition extend_nodes (l : list Node) : M unit :=
  g <- get_graph ;; put_graph (set_nodes g (node g ++ l)).

(** An in-place edit of an entry of [g.value_info]. *)
Definition update_value_info (i : nat) (v : ValueInfo) : M unit :=
  g <- get_graph ;; put_graph (set_value_info g (Py.set_nth (value_info g) i v)).

(** [g.value_info.remove(v)]; a [v] that is None or not in the list is an
    error. *)
Definition remove_value_info (v : option ValueInfo) : M unit :=
  g <- get_graph ;;
  match v with
  | None => raise ValueError
  | Some v =>
      l <- orelse (Py.remove ValueInfo_eqb v (value_info g)) ValueError ;;
      put_graph (set_value_info g l)
  end.

(** [node_to_remove.append(node)] *)
Definition mark_for_removal (i : nat) : M unit :=
  fun s => (Ok tt, mkState (graph s) (node_to_remove s ++ [i]) (stdout s)).

(** [print(...)] *)
Definition print (line : string) : M unit :=
  fun s => (Ok tt, mkState (graph s) (node_to_remove s) (stdout s ++ [line])).

(** [for x in l: body(x)] over a list that the body does not change. *)
Fixpoint for_each {A} (l : list A) (body : A -> M unit) : M unit :=
  match l with
  | [] => ret tt
  | x :: t => body x ;; for_each t body
  end.

(** [for node in g.node: body(node)].  The body may append to [g.node], and
    the scan visits the appended nodes too; [fuel] bounds the number of
    iterations. *)
Fixpoint for_each_node (body : nat -> M unit) (fuel : nat) (i : nat) : M unit :=
  fun s =>
    match nth_error (node (graph s)) i with
    | None => (Ok tt, s)
    | Some _ =>
        match fuel with
        | O => (OutOfFuel, s)
        | S f =>
            match body i s with
            | (Ok _, s') => for_each_node body f (S i) s'
            | (Raise e, s') => (Raise e, s')
            | (OutOfFuel, s') => (OutOfFuel, s')
            end
        end
    end.

(** [g.node.remove(node)], for the contents [v] of the reference. *)
Definition remove_node (v : option Node) : M unit :=
  g <- get_graph ;;
  match v with
  | None => raise ValueError
  | Some n =>
      l <- orelse (Py.remove Node_eqb n (node g)) ValueError ;;
      put_graph (set_nodes g l)
  end.

(** [for node in node_to_remove: g.node.remove(node)].  The references are
    read when the scan is over; [remove] then compares messages by value. *)
Definition remove_marked_nodes : M unit :=
  g <- get_graph ;;
  victims <- (fun s => (Ok (map (fun i => nth_error (node g) i) (node_to_remove s)), s)) ;;
  for_each victims remove_node.

(** [vs] is [l] with some of its elements left out. *)
Inductive Subseq {A : Type} : list A -> list A -> Prop :=
| Subseq_nil : forall l, Subseq [] l
| Subseq_skip : forall x vs l, Subseq vs l -> Subseq vs (x :: l)
| Subseq_take : forall x vs l, Subseq vs l -> Subseq (x :: vs) (x :: l).

(** ** The lookup and construction service *)

Definition has_name (nm : string) (v : ValueInfo) : bool := String.eqb (vi_name v) nm.

Fixpoint find_from {A} (p : A -> bool) (l : list A) (i : nat) : option (nat * A) :=
  match l with
  | [] => None
  | x :: t => if p x then Some (i, x) else find_from p t (S i)
  end.

(** [name in names] *)
Definition mem (nm : string) (names : list string) : bool :=
  existsb (String.eqb nm) names.

(** Modelled from the spec: [helper.find_node_by_output_name], which the
    sources at hand only call (spec, section 6: graph and name to Node or
    none).  The node producing [nm], with its position in [g.node]. *)
Definition find_node_by_output_name (g : Graph) (nm : string) : option (nat * Node) :=
  find_from (fun n => mem nm (output n)) (node g) 0.

(** Modelled from the spec: [helper.find_value_by_name] (section 6: graph and
    name to ValueInfo or none, intermediate values only), with the position
    of the entry in [g.value_info]. *)
Definition find_value_by_name (g : Graph) (nm : string) : option (nat * ValueInfo) :=
  find_from (has_name nm) (value_info g) 0.

(** Modelled from the spec: [helper.find_input_by_name] (section 6). *)
Definition find_input_by_name (g : Graph) (nm : string) : option ValueInfo :=
  find (has_name nm) (g_input g).

(** Modelled from the spec: [helper.find_output_by_name] (section 6). *)
Definition find_output_by_name (g : Graph) (nm : string) : option ValueInfo :=
  find (has_name nm) (g_output g).

(** Modelled from the spec: [helper.find_size_shape_from_value] (section 6:
    a value to its element count and shape).  The passes use the length of
    the shape only. *)
Definition find_size_shape_from_value (v : ValueInfo) : Z * list Z :=
  let shape := map dim_value (vi_dim v) in
  (fold_left Z.mul shape 1, shape).

(** A Python list of numbers: all integers or all floats. *)
Inductive Numbers : Type :=
| Ints (l : list Z)
| Floats (l : list float).

(** Modelled from the spec: [helper.list_to_constant] (section 6: builds a
    Constant node wrapping the given values reshaped to [shape]; sections 4.3
    and 4.7: the node is named [nm] and [nm] is its output). *)
Definition list_to_constant (nm : string) (shape : list Z) (data : Numbers) : Node :=
  mkNode "Constant" nm [] [nm]
    [mkAttr "value"
       (ATensor match data with
                | Ints l => mkTensor nm INT64 shape [] l []
                | Floats l => mkTensor nm FLOAT shape l [] []
                end)].

(** ** The topological stabilizer *)

Definition produced_by (pending : list Node) (nm : string) : bool :=
  existsb (fun n => mem nm (output n)) pending.

Definition ready (pending : list Node) (n : Node) : bool :=
  forallb (fun nm => negb (produced_by pending nm)) (input n).

Fixpoint pick_ready (pending before after : list Node) : option (Node * list Node) :=
  match after with
  | [] => None
  | n :: rest =>
      if ready pending n then Some (n, rev before ++ rest)
      else pick_ready pending (n :: before) rest
  end.

Fixpoint sort_nodes (fuel : nat) (pending : list Node) : list Node :=
  match fuel with
  | O => pending
  | S f =>
      match pick_ready pending [] pending with
      | Some (n, rest) => n :: sort_nodes f rest
      | None => pending
      end
  end.

(** Modelled from the spec: [topological_sort] of module [other], which the
    sources at hand only call (spec, sections 2 and 6: reorders the node list
    in place into a valid dependency order, assumed total and idempotent).
    Nodes are emitted in their order as soon as no node still waiting
    produces one of their inputs; the nodes on a cycle, which the spec rules
    out, stay behind in their order. *)
Definition topological_sort : M unit :=
  g <- get_graph ;;
  put_graph (set_nodes g (sort_nodes (length (node g)) (node g))).

(** [onnx.helper.make_node(op_type, inputs, outputs, name=..., **attrs)]:
    the attributes are stored in the alphabetical order of their keys. *)
Definition make_node (op : string) (inputs outputs : list string) (nm : string)
    (attrs : list Attribute) : Node :=
  mkNode op nm inputs outputs attrs.

(** The steps granted to a scan: one per node, and [cost n] more for the
    nodes that the body appends when it meets [n]. *)
Definition scan_fuel (cost : Node -> nat) (g : Graph) : nat :=
  list_sum (map (fun n => S (cost n)) (node g)).

(** [for x in l: acc = body(acc, x)] *)
Fixpoint fold_each {A S} (l : list A) (acc : S) (body : S -> A -> M S) : M S :=
  match l with
  | [] => ret acc
  | x :: t => acc' <- body acc x ;; fold_each t acc' body
  end.

(** ** Split into slices *)

Module Split.

(** [axis] and [split] after the loop over the attributes of the node. *)
Definition read_attributes (attrs : list Attribute) : Z * list Z :=
  fold_left
    (fun '(axis, split) item =>
       let axis := if (a_name item =? "axis")%string then a_i item else axis in
       let split := if (a_name item =? "split")%string then a_ints item else split in
       (axis, split))
    attrs (0, []).

(** [split is not []]: the identity of [split] against a list that has just
    been built, which holds whatever [split] contains. *)
Definition is_not_new_list (split : list Z) : bool := true.

Definition slice (data out : string) (axis ends starts : Z) : Node :=
  make_node "Slice" [data] [out] out
    [mkAttr "axes" (AInts [axis]); mkAttr "ends" (AInts [ends]);
     mkAttr "starts" (AInts [starts])].

Definition body (ref : nat) : M unit :=
  nd <- node_at ref ;;
  if negb (op_type nd =? "Split")%string then ret tt else
  data <- orelse (nth_error (input nd) 0) IndexError ;;
  g <- get_graph ;;
  let input_value :=
    match find_value_by_name g data with
    | Some (_, v) => Some v
    | None => find_input_by_name g data
    end in
  match input_value with
  | None => raise AttributeError
  | Some input_value =>
  let '(_, shape) := find_size_shape_from_value input_value in
  if (length shape =? 0)%nat then ret tt else
  let output_val_names := output nd in
  let '(axis, split) := read_attributes (attribute nd) in
  d <- orelse (Py.index (vi_dim input_value) axis) IndexError ;;
  let total := dim_value d in
  let outputs := output nd in
  if is_not_new_list split then
    a1 <- orelse (nth_error (attribute nd) 1) IndexError ;;
    let n_out := length (a_ints a1) in
    fold_each (seq 0 n_out) 0 (fun pos i =>
      size <- orelse (nth_error (a_ints a1) i) IndexError ;;
      let pos := pos + size in
      new_node_name <- orelse (nth_error output_val_names i) IndexError ;;
      extend_nodes [slice data new_node_name axis pos (pos - size)] ;;
      ret pos) ;;
    mark_for_removal ref
  else
    let n_out := Z.of_nat (length outputs) in
    if n_out =? 0 then raise ZeroDivisionError else
    let width := total / n_out in
    for_each (seq 0 (length outputs)) (fun i =>
      out <- orelse (nth_error outputs i) IndexError ;;
      extend_nodes
        [slice data out axis ((1 + Z.of_nat i) * width) (Z.of_nat i * width)]) ;;
    mark_for_removal ref
  end.

(** The Slice nodes a Split node can give rise to. *)
Definition cost (n : Node) : nat :=
  if (op_type n =? "Split")%string then
    match nth_error (attribute n) 1 with
    | Some a1 => length (a_ints a1)
    | None => 0
    end
  else 0.

End Split.

Definition replace_split_with_slices (g : Graph) : result unit * State :=
  (for_each_node Split.body (scan_fuel Split.cost g) 0 ;;
   remove_marked_nodes ;;
   topological_sort) (initial g).

Module SplitExamples.

Definition X : ValueInfo := mkValueInfo "X" FLOAT [DimValue 9].

(** A Split of X (length 9) into three outputs, with no sizes given. *)
Definition even_split : Node :=
  mkNode "Split" "split0" ["X"] ["a"; "b"; "c"] [mkAttr "axis" (AInt 0)].

Definition g_even : Graph := mkGraph [even_split] [X] [] [] [].

(** A Split into two outputs that lists its sizes before its axis. *)
Definition sizes_first : Node :=
  mkNode "Split" "split1" ["X"] ["a"; "b"]
    [mkAttr "split" (AInts [4; 5]); mkAttr "axis" (AInt 0)].

Definition g_sizes_first : Graph := mkGraph [sizes_first] [X] [] [] [].

Definition sizes_last : Node :=
  mkNode "Split" "split1" ["X"] ["a"; "b"]
    [mkAttr "axis" (AInt 0); mkAttr "split" (AInts [4; 5])].

Definition g_sizes_last : Graph := mkGraph [sizes_last] [X] [] [] [].

End SplitExamples.


(** ** Reshape into Flatten *)

Module Flatten.

(** The inner scan for a Gemm whose first input is the first output of the
    Reshape: [out0] is [node.output[0]], read only when a node with an input
    is met ([None] stands for the IndexError of an empty output list). *)
Fixpoint followed_by_gemm (nodes : list Node) (out0 : option string) : option bool :=
  match nodes with
  | [] => Some false
  | i :: rest =>
      match input i with
      | [] => followed_by_gemm rest out0
      | in0 :: _ =>
          match out0 with
          | None => None
          | Some o =>
              if negb (in0 =? o)%string then followed_by_gemm rest out0
              else if (op_type i =? "Gemm")%string then Some true
              else followed_by_gemm rest out0
          end
      end
  end.

Definition body (ref : nat) : M unit :=
  nd <- node_at ref ;;
  if negb (op_type nd =? "Reshape")%string then ret tt else
  g <- get_graph ;;
  found <- orelse (followed_by_gemm (node g) (nth_error (output nd) 0)) IndexError ;;
  if negb found then ret tt else
  shape_name <- orelse (nth_error (input nd) 1) IndexError ;;
  match find_node_by_output_name g shape_name with
  | None => raise AttributeError
  | Some (shape_ref, shape_node) =>
      if negb (op_type shape_node =? "Constant")%string then ret tt else
      shape_out <- orelse (nth_error (output shape_node) 0) IndexError ;;
      let shape_value := find_value_by_name g shape_out in
      update_node ref
        (mkNode "Flatten" (name nd) (removelast (input nd)) (output nd) []) ;;
      mark_for_removal shape_ref ;;
      remove_value_info (option_map snd shape_value)
  end.

(** Some node has [y] as its first input and is a Gemm. *)
Definition gemm_reads (nodes : list Node) (y : string) : bool :=
  existsb
    (fun i => match input i with
              | in0 :: _ => (in0 =? y)%string && (op_type i =? "Gemm")%string
              | [] => false
              end)
    nodes.

(** The state after a rewrite: the node [ref] is a Flatten without
    attributes and without its last input, the producer [k] of the shape is
    marked, and the entry [vk] of [g.value_info] is gone. *)
Definition rewritten (s : State) (ref : nat) (nd : Node) (k vk : nat) : State :=
  mkState
    (mkGraph
       (Py.set_nth (node (graph s)) ref
          (mkNode "Flatten" (name nd) (removelast (input nd)) (output nd) []))
       (g_input (graph s)) (g_output (graph s)) (initializer (graph s))
       (firstn vk (value_info (graph s)) ++ skipn (S vk) (value_info (graph s))))
    (node_to_remove s ++ [k]) (stdout s).

End Flatten.

Definition replace_Reshape_with_Flatten (g : Graph) : result unit * State :=
  (for_each_node Flatten.body (scan_fuel (fun _ => O) g) 0 ;;
   remove_marked_nodes) (initial g).

(** ** Squeeze and Unsqueeze into Reshape *)

Module ToReshape.

(** The two passes have the same body, for their own operator. *)
Definition body (op : string) (ref : nat) : M unit :=
  nd <- node_at ref ;;
  if negb (op_type nd =? op)%string then ret tt else
  out0 <- orelse (nth_error (output nd) 0) IndexError ;;
  g <- get_graph ;;
  let output_value :=
    match find_value_by_name g out0 with
    | Some (_, v) => Some v
    | None => find_output_by_name g out0
    end in
  match output_value with
  | None => raise (RuntimeError ("Cannot get shape for " ++ op)%string)
  | Some output_value =>
      let shape := map dim_value (vi_dim output_value) in
      let const_node :=
        list_to_constant (name nd ++ "_shape")%string [Z.of_nat (length shape)] (Ints shape) in
      in0 <- orelse (nth_error (input nd) 0) IndexError ;;
      let new_node :=
        make_node "Reshape" [in0; (name nd ++ "_shape")%string] (output nd) (name nd) [] in
      extend_nodes [const_node; new_node] ;;
      mark_for_removal ref
  end.

Definition cost (op : string) (n : Node) : nat :=
  if (op_type n =? op)%string then 2%nat else 0%nat.

(** The shape found for the first output of [nd]: an intermediate value or
    else a graph output; [None] when there is neither (or no output). *)
Definition resolved (g : Graph) (nd : Node) : option ValueInfo :=
  match nth_error (output nd) 0 with
  | None => None
  | Some out0 =>
      match find_value_by_name g out0 with
      | Some (_, v) => Some v
      | None => find_output_by_name g out0
      end
  end.

(** The two nodes that take the place of [nd]. *)
Definition replacement (nd : Node) (in0 : string) (v : ValueInfo) : list Node :=
  [list_to_constant (name nd ++ "_shape")%string
     [Z.of_nat (length (map dim_value (vi_dim v)))]
     (Ints (map dim_value (vi_dim v)));
   make_node "Reshape" [in0; (name nd ++ "_shape")%string] (output nd) (name nd) []].

(** The state after the replacement of the node [ref]. *)
Definition replaced (s : State) (ref : nat) (nd : Node) (in0 : string)
    (v : ValueInfo) : State :=
  mkState (set_nodes (graph s) (node (graph s) ++ replacement nd in0 v))
    (node_to_remove s ++ [ref]) (stdout s).

Definition is_op (op : string) (n : Node) : bool := (op_type n =? op)%string.

(** Whether every [op] node of [rest] has a shape for its output. *)
Definition all_resolved (op : string) (g : Graph) (rest : list Node) : bool :=
  forallb (fun nd => negb (is_op op nd)
                     || match resolved g nd with Some _ => true | None => false end)
    rest.

Definition pass (op : string) (g : Graph) : result unit * State :=
  (for_each_node (body op) (scan_fuel (cost op) g) 0 ;;
   remove_marked_nodes ;;
   topological_sort) (initial g).

End ToReshape.

Definition replace_Squeeze_with_Reshape (g : Graph) : result unit * State :=
  ToReshape.pass "Squeeze" g.

Definition replace_Unsqueeze_with_Reshape (g : Graph) : result unit * State :=
  ToReshape.pass "Unsqueeze" g.

(** ** Shape into Constant *)

Module ShapeFold.

(** [sum([name in node.input for node in g.node])] *)
Definition val_info_used (g : Graph) (nm : string) : nat :=
  length (filter (fun n => mem nm (input n)) (node g)).

Definition body (ref : nat) : M unit :=
  nd <- node_at ref ;;
  if negb (op_type nd =? "Shape")%string then ret tt else
  in0 <- orelse (nth_error (input nd) 0) IndexError ;;
  g <- get_graph ;;
  let input_value :=
    match find_value_by_name g in0 with
    | Some (_, v) => Some v
    | None => find_input_by_name g in0
    end in
  match input_value with
  | None => ret tt
  | Some input_value =>
      if (length (vi_dim input_value) =? 0)%nat then ret tt else
      let input_shape := map dim_value (vi_dim input_value) in
      node_name <- orelse (nth_error (output nd) 0) IndexError ;;
      let new_node :=
        list_to_constant node_name [Z.of_nat (length input_shape)] (Ints input_shape) in
      extend_nodes [new_node] ;;
      mark_for_removal ref ;;
      g <- get_graph ;;
      if (val_info_used g (vi_name input_value) =? 1)%nat
      then remove_value_info (Some input_value)
      else ret tt
  end.

Definition cost (n : Node) : nat :=
  if (op_type n =? "Shape")%string then 1%nat else 0%nat.

(** The ValueInfo of the operand: an intermediate value or else a graph
    input. *)
Definition resolve (g : Graph) (x : string) : option ValueInfo :=
  match find_value_by_name g x with
  | Some (_, v) => Some v
  | None => find_input_by_name g x
  end.

(** The state after a fold: the Constant appended, the Shape node marked,
    and [vi] as the intermediate values. *)
Definition folded (s : State) (ref : nat) (y : string) (v : ValueInfo)
    (vi : list ValueInfo) : State :=
  mkState
    (mkGraph
       (node (graph s)
        ++ [list_to_constant y [Z.of_nat (length (map dim_value (vi_dim v)))]
              (Ints (map dim_value (vi_dim v)))])
       (g_input (graph s)) (g_output (graph s)) (initializer (graph s)) vi)
    (node_to_remove s ++ [ref]) (stdout s).

End ShapeFold.

Definition replace_shape_with_constant (g : Graph) : result bool * State :=
  (for_each_node ShapeFold.body (scan_fuel ShapeFold.cost g) 0 ;;
   replaced <- (fun s => (Ok (0 <? length (node_to_remove s))%nat, s)) ;;
   remove_marked_nodes ;;
   topological_sort ;;
   ret replaced) (initial g).

(** ** Computations that can fail but do not touch the graph *)

Definition E (A : Type) : Type := (exn + A)%type.

Definition ebind {A B} (m : E A) (k : A -> E B) : E B :=
  match m with inl e => inl e | inr a => k a end.

Notation "x <-- m ;; k" := (ebind m (fun x => k))
  (at level 61, m at next level, right associativity).

Definition need {A} (o : option A) (e : exn) : E A :=
  match o with Some a => inr a | None => inl e end.

Definition lift {A} (m : E A) : M A :=
  match m with inl e => raise e | inr a => ret a end.

(** [for x in l: acc = body(acc, x)] *)
Fixpoint efold {A S} (l : list A) (acc : S) (body : S -> A -> E S) : E S :=
  match l with
  | [] => inr acc
  | x :: t => acc' <-- body acc x ;; efold t acc' body
  end.

(** ** Arrays *)

(** A numpy array is its shape and its elements in row-major order. *)
Module Np.

Definition prod (shape : list Z) : Z := fold_right Z.mul 1 shape.

(** [np.reshape(np.array(data), shape)]: the sizes must agree.  The sizes in
    [shape] are those of a tensor, which are not negative. *)
Definition reshape (data : list float) (shape : list Z) : option (list float) :=
  if forallb (Z.leb 0) shape && (prod shape =? Z.of_nat (length data))
  then Some data else None.

(** [np.zeros(shape)] *)
Definition zeros (shape : list Z) : option (list float) :=
  if forallb (Z.leb 0) shape
  then Some (repeat (Finite 0) (Z.to_nat (prod shape))) else None.

(** The position that index [i] denotes on an axis of length [n]. *)
Definition axis_index (n i : Z) : option Z :=
  if (0 <=? i) && (i <? n) then Some i
  else if (- n <=? i) && (i <? 0) then Some (n + i)
  else None.

Definition dim (shape : list Z) (k : nat) : Z := nth k shape 0.

(** [a[b, c, h, w]] on an array of four axes or more is the block of the
    remaining axes, [block] elements that start at [offset]. *)
Definition block (shape : list Z) : Z := prod (skipn 4 shape).

Definition offset (shape : list Z) (b c h w : Z) : Z :=
  (((b * dim shape 1 + c) * dim shape 2 + h) * dim shape 3 + w) * block shape.

Definition locate (shape : list Z) (b c h w : Z) : option nat :=
  match axis_index (dim shape 0) b, axis_index (dim shape 1) c,
        axis_index (dim shape 2) h, axis_index (dim shape 3) w with
  | Some b, Some c, Some h, Some w => Some (Z.to_nat (offset shape b c h w))
  | _, _, _, _ => None
  end.

(** [a[b, c, h, w]] *)
Definition get4 (shape : list Z) (a : list float) (b c h w : Z) : option (list float) :=
  match locate shape b c h w with
  | Some off => Some (firstn (Z.to_nat (block shape)) (skipn off a))
  | None => None
  end.

(** [a[b, c, h, w] = v] *)
Definition set4 (shape : list Z) (a : list float) (b c h w : Z) (v : list float)
  : option (list float) :=
  match locate shape b c h w with
  | Some off => Some (firstn off a ++ v ++ skipn (off + length v) a)
  | None => None
  end.


End Np.

(** [onnx.helper.make_tensor(name, data_type, dims, vals)] for the 32-bit
    float tensors that the passes read: the values go to [float_data]. *)
Definition make_tensor (nm : string) (dt : Z) (shape : list Z) (vals : list float) : Tensor :=
  mkTensor nm dt shape vals [] [].

(** ** Dilated convolutions *)

Module Dilated.

(** The loop over the attributes: the last [dilations] read, and whether a
    [dilations] and a [strides] other than [1, 1] were met. *)
Definition read_attributes (attrs : list Attribute) : list Z * bool * bool :=
  fold_left
    (fun '(dilations, has_dilations, has_strides) attr =>
       let '(dilations, has_dilations) :=
         if (a_name attr =? "dilations")%string
         then (a_ints attr,
               if list_eq_dec Z.eq_dec (a_ints attr) [1; 1]
               then has_dilations else true)
         else (dilations, has_dilations) in
       let has_strides :=
         if (a_name attr =? "strides")%string
         then (if list_eq_dec Z.eq_dec (a_ints attr) [1; 1]
               then has_strides else true)
         else has_strides in
       (dilations, has_dilations, has_strides))
    attrs ([], false, false).

(** The weight of a tensor, from [float_data] or else from [raw_data]. *)
Definition weight_of (t : Tensor) : E (list float) :=
  match float_data t with
  | [] => need (Py.iter_unpack_f (raw_data t)) StructError
  | w => inr w
  end.

(** The new shape and the new kernel: zeros, with the taps of [weight]
    spread [dilations] apart. *)
Definition expand (shape dilations : list Z) (weight : list float)
  : E (list Z * list float) :=
  weight <-- need (Np.reshape weight shape) ValueError ;;
  s2 <-- need (nth_error shape 2) IndexError ;;
  d0 <-- need (nth_error dilations 0) IndexError ;;
  s3 <-- need (nth_error shape 3) IndexError ;;
  d1 <-- need (nth_error dilations 1) IndexError ;;
  let new_shape :=
    Py.set_nth (Py.set_nth shape 2 (1 + (s2 - 1) * d0)) 3 (1 + (s3 - 1) * d1) in
  new_weight <-- need (Np.zeros new_shape) ValueError ;;
  new_weight <--
    efold (Py.range (Np.dim shape 0)) new_weight (fun new_weight batch =>
      efold (Py.range (Np.dim shape 1)) new_weight (fun new_weight ch =>
        efold (Py.range s2) new_weight (fun new_weight h =>
          let nh := h * d0 in
          efold (Py.range s3) new_weight (fun new_weight w =>
            let nw := w * d1 in
            v <-- need (Np.get4 shape weight batch ch h w) IndexError ;;
            need (Np.set4 new_shape new_weight batch ch nh nw v) IndexError)))) ;;
  inr (new_shape, new_weight).

(** [v.type.tensor_type.shape.dim[k].dim_value = size] on the entry [vref]
    of [g.value_info]. *)
Definition set_dim_value (vref : option nat) (k : nat) (size : Z) : M unit :=
  match vref with
  | None => raise AttributeError
  | Some vref =>
      g <- get_graph ;;
      v <- orelse (nth_error (value_info g) vref) IndexError ;;
      dim' <- orelse (Py.assign (vi_dim v) k (DimValue size)) IndexError ;;
      update_value_info vref (mkValueInfo (vi_name v) (elem_type v) dim')
  end.

(** [attr.ints[k] = v] on the attribute [j] of the node [ref]. *)
Definition set_attribute_int (ref j k : nat) (v : Z) : M unit :=
  nd <- node_at ref ;;
  attr <- orelse (nth_error (attribute nd) j) IndexError ;;
  ints' <- orelse (Py.assign (a_ints attr) k v) IndexError ;;
  update_node ref
    (mkNode (op_type nd) (name nd) (input nd) (output nd)
       (Py.set_nth (attribute nd) j (mkAttr (a_name attr) (AInts ints')))).

(** The loop over the attributes [attrs] of the node [ref], which are at the
    positions [js]: the kernel shape becomes [new_h, new_w] and the
    dilations [1, 1]. *)
Definition update_attributes (ref : nat) (js : list nat) (attrs : list Attribute)
    (new_h new_w : Z) : M unit :=
  for_each (combine js attrs)
    (fun '(j, attr) =>
       (if (a_name attr =? "kernel_shape")%string then
          set_attribute_int ref j 0 new_h ;;
          set_attribute_int ref j 1 new_w
        else ret tt) ;;
       (if (a_name attr =? "dilations")%string then
          set_attribute_int ref j 0 1 ;;
          set_attribute_int ref j 1 1
        else ret tt)).

Definition body (ref : nat) : M unit :=
  nd <- node_at ref ;;
  if negb (op_type nd =? "Conv")%string then ret tt else
  let '(dilations, has_dilations, has_strides) := read_attributes (attribute nd) in
  if has_dilations && has_strides then
    print ("Warning: Both strides and dilations are set in  " ++ name nd)%string
  else if negb has_dilations then ret tt else
  w_name <- orelse (nth_error (input nd) 1) IndexError ;;
  g <- get_graph ;;
  let w_output := find_value_by_name g w_name in
  match find_node_by_output_name g w_name with
  | None => raise AttributeError
  | Some (w_ref, w_node) =>
      a0 <- orelse (nth_error (attribute w_node) 0) IndexError ;;
      let shape := dims (a_t a0) in
      weight <- lift (weight_of (a_t a0)) ;;
      new <- lift (expand shape dilations weight) ;;
      let '(new_shape, new_weight) := new in
      let tensor :=
        make_tensor (t_name (a_t a0)) (data_type (a_t a0)) new_shape new_weight in
      let new_w_node :=
        make_node "Constant" [] (output w_node) (name w_node)
          [mkAttr "value" (ATensor tensor)] in
      extend_nodes [new_w_node] ;;
      mark_for_removal w_ref ;;
      set_dim_value (option_map fst w_output) 2 (Np.dim new_shape 2) ;;
      set_dim_value (option_map fst w_output) 3 (Np.dim new_shape 3) ;;
      update_attributes ref (seq 0 (length (attribute nd))) (attribute nd)
        (Np.dim new_shape 2) (Np.dim new_shape 3)
  end.

Definition cost (n : Node) : nat :=
  if (op_type n =? "Conv")%string then 1%nat else 0%nat.

(** An attribute named [key] whose integers are not [1, 1]. *)
Definition non_unit (key : string) (a : Attribute) : bool :=
  (a_name a =? key)%string
  && (if list_eq_dec Z.eq_dec (a_ints a) [1; 1] then false else true).







(** The integers of the last [dilations] attribute, [d] if there is none. *)
Definition last_dilations (attrs : list Attribute) (d : list Z) : list Z :=
  fold_left (fun d a => if (a_name a =? "dilations")%string then a_ints a else d)
    attrs d.

End Dilated.

Definition replace_dilated_conv (g : Graph) : result unit * State :=
  (for_each_node Dilated.body (scan_fuel Dilated.cost g) 0 ;;
   remove_marked_nodes) (initial g).

Module DilatedExamples.

(** The kernel [[1, 2], [3, 4]] of shape [1, 1, 2, 2]. *)
Definition W : Node :=
  mkNode "Constant" "W" [] ["W"]
    [mkAttr "value"
       (ATensor (mkTensor "W" FLOAT [1; 1; 2; 2]
                   [Finite 1; Finite 2; Finite 3; Finite 4] [] []))].

Definition W_info : ValueInfo :=
  mkValueInfo "W" FLOAT [DimValue 1; DimValue 1; DimValue 2; DimValue 2].

Definition conv (attrs : list Attribute) : Node :=
  mkNode "Conv" "conv0" ["X"; "W"] ["Y"] attrs.

Definition dilated : Node :=
  conv [mkAttr "dilations" (AInts [2; 2]); mkAttr "kernel_shape" (AInts [2; 2])].

Definition g_dilated : Graph := mkGraph [W; dilated] [] [] [] [W_info].



End DilatedExamples.

(** ** Depthwise 1x1 convolutions into BatchNormalization *)

Module Depthwise.

(** [attr_map[key]] for [attr_map = {attr.name: attr for attr in attrs}]:
    the last attribute of that name. *)
Definition attr_map (attrs : list Attribute) (key : string) : option Attribute :=
  find (fun a => (a_name a =? key)%string) (rev attrs).

(** [scale_node.attribute[0].t.dims.pop()] on the node [ref]. *)
Definition pop_tensor_dim (ref : nat) : M unit :=
  nd <- node_at ref ;;
  a0 <- orelse (nth_error (attribute nd) 0) IndexError ;;
  match a_value a0 with
  | ATensor t =>
      dims' <- orelse (Py.pop (dims t)) IndexError ;;
      let t' :=
        mkTensor (t_name t) (data_type t) dims' (float_data t) (int64_data t)
          (raw_data t) in
      update_node ref
        (mkNode (op_type nd) (name nd) (input nd) (output nd)
           (Py.set_nth (attribute nd) 0 (mkAttr (a_name a0) (ATensor t'))))
  | _ => raise IndexError
  end.

(** [scale_info.type.tensor_type.shape.dim.pop()] on the entry [vref] of
    [g.value_info]. *)
Definition pop_info_dim (vref : nat) : M unit :=
  g <- get_graph ;;
  v <- orelse (nth_error (value_info g) vref) IndexError ;;
  dim' <- orelse (Py.pop (vi_dim v)) IndexError ;;
  update_value_info vref (mkValueInfo (vi_name v) (elem_type v) dim').

Definition body (ref : nat) : M unit :=
  nd <- node_at ref ;;
  if negb (op_type nd =? "Conv")%string then ret tt else
  let attr_map := attr_map (attribute nd) in
  match attr_map "group" with
  | None => ret tt
  | Some group =>
  if a_i group =? 1 then ret tt else
  kernel_shape <- orelse (attr_map "kernel_shape") (KeyError "kernel_shape") ;;
  k0 <- orelse (nth_error (a_ints kernel_shape) 0) IndexError ;;
  if negb (k0 =? 1) then ret tt else
  k1 <- orelse (nth_error (a_ints kernel_shape) 1) IndexError ;;
  if negb (k1 =? 1) then ret tt else
  if match attr_map "pads" with
     | Some pads => negb (Py.sum (a_ints pads) =? 0)
     | None => false
     end
  then ret tt else
  scale_name <- orelse (nth_error (input nd) 1) IndexError ;;
  g <- get_graph ;;
  match find_node_by_output_name g scale_name with
  | None => ret tt
  | Some (scale_ref, scale_node) =>
  a0 <- orelse (nth_error (attribute scale_node) 0) IndexError ;;
  d1 <- orelse (nth_error (dims (a_t a0)) 1) IndexError ;;
  if negb (d1 =? 1) then ret tt else
  pop_tensor_dim scale_ref ;;
  pop_tensor_dim scale_ref ;;
  pop_tensor_dim scale_ref ;;
  g <- get_graph ;;
  match find_value_by_name g scale_name with
  | Some (scale_info, _) =>
      pop_info_dim scale_info ;;
      pop_info_dim scale_info ;;
      pop_info_dim scale_info
  | None => ret tt
  end ;;
  bias_name <-
    (if (length (input nd) =? 3)%nat then
       orelse (nth_error (input nd) 2) IndexError
     else
       let bias_name := (name nd ++ "_bias")%string in
       let bias_node :=
         list_to_constant bias_name [a_i group]
           (Floats (Py.replicate (Finite 0) (a_i group))) in
       extend_nodes [bias_node] ;;
       ret bias_name) ;;
  let mean_name := (name nd ++ "_mean")%string in
  let mean_node :=
    list_to_constant mean_name [a_i group]
      (Floats (Py.replicate (Finite 0) (a_i group))) in
  let var_name := (name nd ++ "_var")%string in
  let var_node :=
    list_to_constant var_name [a_i group]
      (Floats (Py.replicate (Finite 1) (a_i group))) in
  extend_nodes [mean_node; var_node] ;;
  in0 <- orelse (nth_error (input nd) 0) IndexError ;;
  let bn_node :=
    make_node "BatchNormalization"
      [in0; scale_name; bias_name; mean_name; var_name] (output nd) (name nd)
      [mkAttr "epsilon" (AFloat (Finite (1 # 100000)));
       mkAttr "momentum" (AFloat (Finite (9 # 10)))] in
  extend_nodes [bn_node] ;;
  mark_for_removal ref
  end
  end.

Definition cost (n : Node) : nat :=
  if (op_type n =? "Conv")%string then 4%nat else 0%nat.







End Depthwise.

Definition replace_depthwise_1x1_with_bn (g : Graph) : result unit * State :=
  (for_each_node Depthwise.body (scan_fuel Depthwise.cost g) 0 ;;
   remove_marked_nodes ;;
   topological_sort) (initial g).

Module DepthwiseExamples.

Definition S : Node :=
  mkNode "Constant" "S" [] ["S"]
    [mkAttr "value"
       (ATensor (mkTensor "S" FLOAT [2; 1; 1; 1] [Finite 3; Finite 5] [] []))].

Definition S_info : ValueInfo :=
  mkValueInfo "S" FLOAT [DimValue 2; DimValue 1; DimValue 1; DimValue 1].

Definition conv : Node :=
  mkNode "Conv" "dw" ["X"; "S"] ["Y"]
    [mkAttr "group" (AInt 2); mkAttr "kernel_shape" (AInts [1; 1]);
     mkAttr "pads" (AInts [0; 0; 0; 0])].

Definition g : Graph :=
  mkGraph [S; conv] [mkValueInfo "X" FLOAT [DimValue 1; DimValue 2; DimValue 4; DimValue 4]]
    [] [] [S_info].

End DepthwiseExamples.



(** ** Initializers into Constant nodes *)

Module Initializer.

(** [input_map[nm]] for [input_map = {i.name: i for i in g.input}]: the last
    graph input of that name. *)
Definition input_map (inputs : list ValueInfo) (nm : string) : option ValueInfo :=
  find (has_name nm) (rev inputs).

(** [nm in unused_initializer] once the inputs of all the nodes have been
    taken out of the set. *)
Definition unused (nodes : list Node) (nm : string) : bool :=
  negb (existsb (fun n => mem nm (input n)) nodes).

Definition set_inputs (g : Graph) (l : list ValueInfo) : Graph :=
  mkGraph (node g) l (g_output g) (initializer g) (value_info g).

(** [g.input.remove(value_info)] *)
Definition remove_input (v : ValueInfo) : M unit :=
  g <- get_graph ;;
  l <- orelse (Py.remove ValueInfo_eqb v (g_input g)) ValueError ;;
  put_graph (set_inputs g l).

(** The body of the loop over [g.initializer]; [nodes] and [input_map] are
    those of the graph when the pass starts. *)
Definition body (nodes : list Node) (inputs : list ValueInfo) (tensor : Tensor)
  : M unit :=
  if unused nodes (t_name tensor) then
    info <- orelse (input_map inputs (t_name tensor)) (KeyError (t_name tensor)) ;;
    remove_input info
  else
    let new_node :=
      make_node "Constant" [] [t_name tensor] (t_name tensor)
        [mkAttr "value" (ATensor tensor)] in
    extend_nodes [new_node] ;;
    info <- orelse (input_map inputs (t_name tensor)) (KeyError (t_name tensor)) ;;
    (g <- get_graph ;;
     put_graph (set_value_info g (value_info g ++ [info]))) ;;
    remove_input info.

(** [while len(g.initializer) != 0: g.initializer.pop()] *)
Definition clear_initializers : M unit :=
  g <- get_graph ;;
  put_graph (mkGraph (node g) (g_input g) (g_output g) [] (value_info g)).

End Initializer.

Definition replace_initializer_with_Constant (g : Graph) : result unit * State :=
  (for_each (initializer g) (Initializer.body (node g) (g_input g)) ;;
   Initializer.clear_initializers) (initial g).

(** ** AveragePool into GlobalAveragePool *)

Module AveragePool.

(** [l[-2:]] *)
Definition last_two {A} (l : list A) : list A := skipn (length l - 2) l.

(** The loop over the attributes: whether [not_replace] is set when it ends
    or breaks. *)
Fixpoint not_replace (g : Graph) (nd : Node) (attrs : list Attribute) : E bool :=
  match attrs with
  | [] => inr false
  | attr :: rest =>
      if (a_name attr =? "pads")%string
         && (if list_eq_dec Z.eq_dec (a_ints attr) [0; 0; 0; 0] then false else true)
      then inr true
      else if (a_name attr =? "kernel_shape")%string then
        in0 <-- need (nth_error (input nd) 0) IndexError ;;
        match find_value_by_name g in0 with
        | None => inr true
        | Some (_, info) =>
            let input_shape := map dim_value (vi_dim info) in
            if list_eq_dec Z.eq_dec (last_two input_shape) (a_ints attr)
            then not_replace g nd rest
            else inr true
        end
      else not_replace g nd rest
  end.

Definition body (ref : nat) : M unit :=
  nd <- node_at ref ;;
  if negb (op_type nd =? "AveragePool")%string then ret tt else
  g <- get_graph ;;
  skip <- lift (not_replace g nd (attribute nd)) ;;
  if (skip : bool) then ret tt else
  let new_node := make_node "GlobalAveragePool" (input nd) (output nd) (name nd) [] in
  extend_nodes [new_node] ;;
  mark_for_removal ref.

Definition cost (n : Node) : nat :=
  if (op_type n =? "AveragePool")%string then 1%nat else 0%nat.

End AveragePool.

Definition replace_average_pool_with_GAP (g : Graph) : result unit * State :=
  (for_each_node AveragePool.body (scan_fuel AveragePool.cost g) 0 ;;
   remove_marked_nodes ;;
   topological_sort) (initial g).

Module OtherExamples.

(** The initializer W of shape [2, 2] with the values [1, 2, 3, 4], read by
    a MatMul, and an initializer that no node reads. *)
Definition W : Tensor :=
  mkTensor "W" FLOAT [2; 2] [Finite 1; Finite 2; Finite 3; Finite 4] [] [].

Definition U : Tensor := mkTensor "U" FLOAT [1] [Finite 7] [] [].

Definition W_info : ValueInfo := mkValueInfo "W" FLOAT [DimValue 2; DimValue 2].
Definition U_info : ValueInfo := mkValueInfo "U" FLOAT [DimValue 1].
Definition X_info : ValueInfo := mkValueInfo "X" FLOAT [DimValue 1; DimValue 2].

Definition matmul : Node := mkNode "MatMul" "mm" ["X"; "W"] ["Y"] [].

Definition g_initializers : Graph :=
  mkGraph [matmul] [X_info; W_info; U_info] [] [W; U] [].

(** An average pooling over the whole 7 by 7 plane. *)
Definition pool : Node :=
  mkNode "AveragePool" "pool0" ["x"] ["y"]
    [mkAttr "kernel_shape" (AInts [7; 7]); mkAttr "pads" (AInts [0; 0; 0; 0])].

Definition g_pool : Graph :=
  mkGraph [pool] [] [] []
    [mkValueInfo "x" FLOAT [DimValue 1; DimValue 8; DimValue 7; DimValue 7]].

End OtherExamples.

(** ** Scans that end *)

(** In the state [s], the computation [m] ends with a value or an
    exception, and when it ends with a value the nodes of the graph cost
    what they did, followed by at most [k] new nodes of cost 0. *)
Definition grows_at {A} (cost : Node -> nat) (k : nat) (m : M A) (s : State) : Prop :=
  match m s with
  | (Ok _, s') =>
      exists added,
        map cost (node (graph s')) = map cost (node (graph s)) ++ repeat O added
        /\ (added <= k)%nat
  | (Raise _, _) => True
  | (OutOfFuel, _) => False
  end.

Definition grows {A} (cost : Node -> nat) (k : nat) (m : M A) : Prop :=
  forall s, grows_at cost k m s.

(** The computation never stops for lack of steps. *)
Definition total {A} (m : M A) : Prop :=
  forall s, fst (m s) <> OutOfFuel.

(** ** What the specification says, in its words *)

Module Described.

(** Even split (spec, 4.8): [n_outputs] slices of width
    [floor(total_length / n_outputs)], slice [i] from [i * width] to
    [(i + 1) * width]. *)
Definition even_slices (data : string) (outputs : list string) (axis total : Z)
  : list Node :=
  let width := total / Z.of_nat (length outputs) in
  map (fun '(i, out) =>
         Split.slice data out axis ((Z.of_nat i + 1) * width) (Z.of_nat i * width))
      (combine (seq 0 (length outputs)) outputs).



(** Reshape into Flatten (spec, 4.2): the shape operand is produced by a
    Constant node. *)
Definition shape_from_Constant (g : Graph) (nd : Node) : Prop :=
  exists s k c,
    nth_error (input nd) 1 = Some s
    /\ find_node_by_output_name g s = Some (k, c)
    /\ op_type c = "Constant".

(** A shape that is fully statically known (spec, 3 and 4.7): every
    dimension holds a size. *)
Definition fully_known (v : ValueInfo) : Prop :=
  Forall (fun d => exists size, d = DimValue size) (vi_dim v).

End Described.

Module FlattenExamples.

Definition S : Node :=
  mkNode "Constant" "shape" [] ["s"]
    [mkAttr "value" (ATensor (mkTensor "s" INT64 [2] [] [1; -1] []))].

Definition S_info : ValueInfo := mkValueInfo "s" INT64 [DimValue 2].

Definition R : Node := mkNode "Reshape" "reshape0" ["x"; "s"] ["y"] [].

Definition relu : Node := mkNode "Relu" "relu0" ["y"] ["z"] [].

Definition gemm : Node := mkNode "Gemm" "gemm0" ["y"; "w"; "b"] ["o"] [].


(** A Reshape read by a Relu only. *)
Definition g_no_gemm : Graph :=
  mkGraph [S; R; relu] [mkValueInfo "x" FLOAT [DimValue 1; DimValue 8]]
    [] [] [S_info].


End FlattenExamples.

Module ShapeExamples.

Definition shape_of (data : string) : Node :=
  mkNode "Shape" "shape0" [data] ["sx"] [].

Definition relu : Node := mkNode "Relu" "relu0" ["x"] ["z"] [].



(** An intermediate value read by the Shape node only. *)
Definition x_known : ValueInfo := mkValueInfo "x" FLOAT [DimValue 1; DimValue 3].

Definition g_single_use : Graph := mkGraph [shape_of "x"] [] [] [] [x_known].

Definition g_shared : Graph := mkGraph [shape_of "x"; relu] [] [] [] [x_known].

(** A graph input read by the Shape node only. *)
Definition X : ValueInfo := mkValueInfo "X" FLOAT [DimValue 1; DimValue 3].

Definition g_input_operand : Graph := mkGraph [shape_of "X"] [X] [] [] [].

End ShapeExamples.

Module ToReshapeExamples.

Definition squeeze (op : string) : Node := mkNode op "sq0" ["x"] ["y"] [].

Definition y_info : ValueInfo := mkValueInfo "y" FLOAT [DimValue 2; DimValue 3].

(** The output of the node has no shape anywhere. *)
Definition g_unresolved (op : string) : Graph :=
  mkGraph [squeeze op] [] [] [] [].

(** The output of the node is a graph output. *)
Definition g_resolved (op : string) : Graph :=
  mkGraph [squeeze op] [] [y_info] [] [].

End ToReshapeExamples.

(** ** What a computation leaves alone *)

(** Whatever its outcome, [m] takes a state to one that [R] relates to
    it. *)
Definition keeps {A} (R : State -> State -> Prop) (m : M A) : Prop :=
  forall s, R s (snd (m s)).

(** The graph inputs, the graph outputs and the initializers are those of
    [s]. *)
Definition same_interface (s s' : State) : Prop :=
  g_input (graph s') = g_input (graph s)
  /\ g_output (graph s') = g_output (graph s)
  /\ initializer (graph s') = initializer (graph s).

(** Nothing but the node list and the marks has changed, and nothing was
    printed. *)
Definition nodes_only (s s' : State) : Prop :=
  same_interface s s'
  /\ value_info (graph s') = value_info (graph s)
  /\ stdout s' = stdout s.

(** The interface is kept, nothing was printed, and the intermediate values
    are those of [s] with some left out. *)
Definition values_dropped (s s' : State) : Prop :=
  same_interface s s'
  /\ Subseq (value_info (graph s')) (value_info (graph s))
  /\ stdout s' = stdout s.

(** The interface is kept, and the intermediate values keep their names and
    element types: only their dimensions may differ. *)
Definition values_reshaped (s s' : State) : Prop :=
  same_interface s s'
  /\ map vi_name (value_info (graph s')) = map vi_name (value_info (graph s))
  /\ map elem_type (value_info (graph s')) = map elem_type (value_info (graph s)).

(** The state after the stabilizer alone has run on [g]: nothing marked,
    nothing printed, the nodes reordered. *)
Definition sorted_only (g : Graph) : State :=
  mkState (set_nodes g (sort_nodes (length (node g)) (node g))) [] [].

Module IdleExamples.

(** A convolution with unit dilations, two by two strides and one group. *)
Definition plain_conv : Node :=
  mkNode "Conv" "conv0" ["X"; "W"] ["Y"]
    [mkAttr "dilations" (AInts [1; 1]); mkAttr "strides" (AInts [2; 2]);
     mkAttr "group" (AInt 1); mkAttr "kernel_shape" (AInts [2; 2])].

Definition g_plain_conv : Graph :=
  mkGraph [DilatedExamples.W; plain_conv] [] [] [] [DilatedExamples.W_info].

(** A Shape node whose operand has no ValueInfo, and one whose operand is a
    scalar. *)
Definition g_unknown_shapes : Graph :=
  mkGraph [ShapeExamples.shape_of "x"; ShapeExamples.shape_of "k"] [] [] []
    [mkValueInfo "k" FLOAT []].

End IdleExamples.

(** ** Initializers into Constant nodes, the outcome *)

Module Promoted.

(** The Constant node that takes the place of the initializer [t]. *)
Definition constant_of (t : Tensor) : Node :=
  make_node "Constant" [] [t_name t] (t_name t) [mkAttr "value" (ATensor t)].

(** The tensors of [ts] that some node of [nodes] reads. *)
Definition used (nodes : list Node) (ts : list Tensor) : list Tensor :=
  filter (fun t => negb (Initializer.unused nodes (t_name t))) ts.

(** The graph inputs that [input_map] holds for the tensors [ts], in the
    order of [ts]. *)
Definition infos (inputs : list ValueInfo) (ts : list Tensor) : list ValueInfo :=
  flat_map
    (fun t => match Initializer.input_map inputs (t_name t) with
              | Some v => [v]
              | None => []
              end)
    ts.

(** The graph inputs that are named after none of the tensors [ts]. *)
Definition remaining_inputs (inputs : list ValueInfo) (ts : list Tensor)
  : list ValueInfo :=
  filter (fun v => negb (mem (vi_name v) (map t_name ts))) inputs.

(** The state after the iteration for the tensor [t], whose graph input is
    [v], when [inputs'] is what is left of [g.input]. *)
Definition step (nodes : list Node) (s : State) (t : Tensor) (v : ValueInfo)
    (inputs' : list ValueInfo) : State :=
  mkState
    (mkGraph (node (graph s) ++ map constant_of (used nodes [t])) inputs'
       (g_output (graph s)) (initializer (graph s))
       (value_info (graph s) ++ (if Initializer.unused nodes (t_name t) then [] else [v])))
    (node_to_remove s) (stdout s).

End Promoted.

Module InitializerExamples.

(** The initializer W is read by a MatMul and is no graph input. *)
Definition g_undeclared : Graph :=
  mkGraph [OtherExamples.matmul] [OtherExamples.X_info] [] [OtherExamples.W] [].

End InitializerExamples.

(** ** AveragePool nodes, the outcome *)

Module Pooling.

(** An attribute that keeps an AveragePool node as it is: [pads] other than
    [0, 0, 0, 0], or a [kernel_shape] when the first input [in0] of the node
    has no ValueInfo among the intermediate values or when the last two
    dimensions recorded there are not the kernel shape. *)
Definition blocks (g : Graph) (in0 : string) (attr : Attribute) : bool :=
  ((a_name attr =? "pads")%string
   && (if list_eq_dec Z.eq_dec (a_ints attr) [0; 0; 0; 0] then false else true))
  || ((a_name attr =? "kernel_shape")%string
      && match find_value_by_name g in0 with
         | None => true
         | Some (_, info) =>
             if list_eq_dec Z.eq_dec
                  (AveragePool.last_two (map dim_value (vi_dim info))) (a_ints attr)
             then false else true
         end).

(** The state after the node [nd], at [ref], has been given a
    GlobalAveragePool node in its place. *)
Definition globalized (s : State) (ref : nat) (nd : Node) : State :=
  mkState
    (set_nodes (graph s)
       (node (graph s)
        ++ [make_node "GlobalAveragePool" (input nd) (output nd) (name nd) []]))
    (node_to_remove s ++ [ref]) (stdout s).

(** The AveragePool nodes that the pass replaces: the loop over their
    attributes ends with [not_replace] unset. *)
Definition eligible (g : Graph) (nd : Node) : bool :=
  (op_type nd =? "AveragePool")%string
  && match AveragePool.not_replace g nd (attribute nd) with
     | inr false => true
     | _ => false
     end.

(** What a completed iteration has found on an AveragePool node: the loop
    over its attributes has ended without an exception. *)
Definition examined (g : Graph) (nd : Node) : Prop :=
  op_type nd = "AveragePool" ->
  exists b, AveragePool.not_replace g nd (attribute nd) = inr b.

(** The node appended for the AveragePool node [nd]. *)
Definition stand_in (nd : Node) : list Node :=
  [make_node "GlobalAveragePool" (input nd) (output nd) (name nd) []].

End Pooling.

(** ** Split nodes, the outcome *)

Module Slicing.

(** The Slice nodes for the first [n] of the sizes [sizes]: the one at
    position [i] has the output name at position [i], starts at the sum of
    the sizes before it, and ends at that sum plus its own size. *)
Definition slices (data : string) (axis : Z) (sizes : list Z) (outs : list string)
    (n : nat) : list Node :=
  map (fun i =>
         Split.slice data (nth i outs "") axis
           (Py.sum (firstn (S i) sizes)) (Py.sum (firstn i sizes)))
    (seq 0 n).

(** The body of the loop over the sizes, as [Split.body] has it. *)
Definition cut (data : string) (axis : Z) (sizes : list Z) (outs : list string)
    (pos : Z) (i : nat) : M Z :=
  size <- orelse (nth_error sizes i) IndexError ;;
  let pos := pos + size in
  new_node_name <- orelse (nth_error outs i) IndexError ;;
  extend_nodes [Split.slice data new_node_name axis pos (pos - size)] ;;
  ret pos.

(** The state with the nodes [l] appended. *)
Definition appended (s : State) (l : list Node) : State :=
  mkState (set_nodes (graph s) (node (graph s) ++ l)) (node_to_remove s) (stdout s).


(** The Split nodes that the pass replaces: those whose operand has a
    ValueInfo, among the intermediate values or else the graph inputs, with
    at least one dimension. *)
Definition target (g : Graph) (nd : Node) : bool :=
  (op_type nd =? "Split")%string
  && match nth_error (input nd) 0 with
     | Some data =>
         match ShapeFold.resolve g data with
         | Some v => negb (length (vi_dim v) =? 0)%nat
         | None => false
         end
     | None => false
     end.

(** What a completed iteration has found on a Split node: an operand with
    a ValueInfo. *)
Definition examined (g : Graph) (nd : Node) : Prop :=
  op_type nd = "Split" ->
  exists data v,
    nth_error (input nd) 0 = Some data /\ ShapeFold.resolve g data = Some v.

(** The Slice nodes appended for the Split node [nd]: one for each integer
    of its second attribute. *)
Definition stand_in (nd : Node) : list Node :=
  match nth_error (input nd) 0, nth_error (attribute nd) 1 with
  | Some data, Some a1 =>
      slices data (fst (Split.read_attributes (attribute nd))) (a_ints a1)
        (output nd) (length (a_ints a1))
  | _, _ => []
  end.

End Slicing.

Module SlicingExamples.



End SlicingExamples.

Module EdgeExamples.

(** A dilated convolution whose weight is a graph input: no node produces
    it. *)
Definition g_weight_is_input : Graph :=
  mkGraph [DilatedExamples.dilated] [DilatedExamples.W_info] [] [] [].

(** A dilated convolution whose weight is a Constant without ValueInfo. *)
Definition g_weight_without_info : Graph :=
  mkGraph [DilatedExamples.W; DilatedExamples.dilated] [] [] [] [].

(** A grouped convolution without a kernel shape. *)
Definition grouped : Node :=
  mkNode "Conv" "dw" ["X"; "S"] ["Y"] [mkAttr "group" (AInt 2)].

Definition g_grouped : Graph := mkGraph [DepthwiseExamples.S; grouped] [] [] [] [].

(** A Reshape read by a Gemm, whose shape is a graph input. *)
Definition g_shape_is_input : Graph :=
  mkGraph [FlattenExamples.R; FlattenExamples.gemm]
    [mkValueInfo "s" INT64 [DimValue 2]] [] [] [].

End EdgeExamples.

(** ** Passes that put new nodes in the place of old ones *)

(** The state with the nodes [l] appended and the node [ref] marked. *)
Definition stood_in (s : State) (ref : nat) (l : list Node) : State :=
  mkState (set_nodes (graph s) (node (graph s) ++ l)) (node_to_remove s ++ [ref])
    (stdout s).

(** The node list that the removal of the marked nodes leaves, when the
    nodes marked are those that [p] selects and [stand] gives the nodes
    appended for each: the other nodes in their order, then the appended
    ones in the order of the nodes they stand for. *)
Definition rebuilt (p : Node -> bool) (stand : Node -> list Node)
    (nodes : list Node) : list Node :=
  filter (fun n => negb (p n)) nodes ++ flat_map stand (filter p nodes).

Module Reshaped.

(** The nodes appended for the Squeeze or Unsqueeze node [nd] of the graph
    [g]: the Constant with the shape of its first output and the Reshape. *)
Definition stand_in (g : Graph) (nd : Node) : list Node :=
  match nth_error (input nd) 0, ToReshape.resolved g nd with
  | Some in0, Some v => ToReshape.replacement nd in0 v
  | _, _ => []
  end.

(** The graphs in which the shapes of [g] are found. *)
Definition shapes_of (g g' : Graph) : Prop :=
  value_info g' = value_info g /\ g_output g' = g_output g.

(** What a completed iteration has found on an [op] node: a first input,
    and a shape for the first output. *)
Definition found (op : string) (g : Graph) (nd : Node) : Prop :=
  ToReshape.is_op op nd = true ->
  exists in0 v,
    nth_error (input nd) 0 = Some in0 /\ ToReshape.resolved g nd = Some v.

End Reshaped.

(** The marks of [s'] are those of [s] and maybe more, and when there are
    no more of them [s'] is [s]. *)
Definition marked_or_same (s s' : State) : Prop :=
  (exists l, node_to_remove s' = node_to_remove s ++ l)
  /\ (node_to_remove s' = node_to_remove s -> s' = s).

(** Some node of [nodes] has [y] among its outputs. *)
Definition produces (nodes : list Node) (y : string) : Prop :=
  exists n, In n nodes /\ In y (output n).

(** The name and the outputs of a node. *)
Definition node_id (n : Node) : string * list string := (name n, output n).

(** The nodes of [s'] are those of [s] in their order, some left out, each
    under the name and with the outputs that it had. *)
Definition nodes_thinned (s s' : State) : Prop :=
  Subseq (map node_id (node (graph s'))) (map node_id (node (graph s))).
(** * Properties *)

(** ** Running the monad *)

Lemma bind_ok {A B} (m : M A) (k : A -> M B) s a s' :
  m s = (Ok a, s') -> bind m k s = k a s'.
Proof. intros H. unfold bind. now rewrite H. Qed.

Lemma bind_raise {A B} (m : M A) (k : A -> M B) s e s' :
  m s = (Raise e, s') -> bind m k s = (Raise e, s').
Proof. intros H. unfold bind. now rewrite H. Qed.

Lemma bind_ret {A B} (a : A) (k : A -> M B) s : bind (ret a) k s = k a s.
Proof. reflexivity. Qed.

Lemma bind_get_graph {B} (k : Graph -> M B) s :
  bind get_graph k s = k (graph s) s.
Proof. reflexivity. Qed.

Lemma node_at_ok ref s nd :
  nth_error (node (graph s)) ref = Some nd -> node_at ref s = (Ok nd, s).
Proof. intros H. unfold node_at, bind, get_graph, orelse. now rewrite H. Qed.

Lemma for_each_node_step body fuel ref s nd s' :
  nth_error (node (graph s)) ref = Some nd ->
  body ref s = (Ok tt, s') ->
  for_each_node body (S fuel) ref s = for_each_node body fuel (S ref) s'.
Proof. intros Hn Hb. simpl. now rewrite Hn, Hb. Qed.

Lemma for_each_node_raise body fuel ref s nd e s' :
  nth_error (node (graph s)) ref = Some nd ->
  body ref s = (Raise e, s') ->
  for_each_node body (S fuel) ref s = (Raise e, s').
Proof. intros Hn Hb. simpl. now rewrite Hn, Hb. Qed.

(** Reduces the plumbing of the monad and nothing else. *)
Ltac mred :=
  cbv beta iota zeta delta
    [bind ret raise orelse lift need ebind get_graph put_graph node_at
     update_node extend_nodes update_value_info remove_value_info
     mark_for_removal print set_nodes set_value_info negb];
  cbn [graph node_to_remove stdout node g_input g_output initializer
       value_info].

(** ** Dilated convolutions with strides *)

Module DilatedFacts.
Import Dilated.

Lemma read_attributes_from attrs d hd hs :
  fold_left
    (fun '(dilations, has_dilations, has_strides) attr =>
       let '(dilations, has_dilations) :=
         if (a_name attr =? "dilations")%string
         then (a_ints attr,
               if list_eq_dec Z.eq_dec (a_ints attr) [1; 1]
               then has_dilations else true)
         else (dilations, has_dilations) in
       let has_strides :=
         if (a_name attr =? "strides")%string
         then (if list_eq_dec Z.eq_dec (a_ints attr) [1; 1]
               then has_strides else true)
         else has_strides in
       (dilations, has_dilations, has_strides))
    attrs (d, hd, hs)
  = (last_dilations attrs d,
     hd || existsb (non_unit "dilations") attrs,
     hs || existsb (non_unit "strides") attrs).
Proof.
  revert d hd hs. induction attrs as [|a attrs IH]; intros d hd hs; simpl.
  - now rewrite !orb_false_r.
  - unfold last_dilations. simpl. unfold non_unit at 1 3.
    destruct (a_name a =? "dilations")%string;
      destruct (a_name a =? "strides")%string;
      destruct (list_eq_dec Z.eq_dec (a_ints a) [1; 1]);
      rewrite IH; simpl; unfold last_dilations;
      rewrite ?orb_true_r, ?orb_false_r, ?orb_true_l; reflexivity.
Qed.

Lemma read_attributes_spec attrs :
  read_attributes attrs
  = (last_dilations attrs [],
     existsb (non_unit "dilations") attrs,
     existsb (non_unit "strides") attrs).
Proof. unfold read_attributes. now rewrite read_attributes_from. Qed.


End DilatedFacts.



(** ** Split nodes *)

(** C2. A Split node with no list of sizes (only an axis), on an operand of
    length 9, with three outputs: [replace_split_with_slices] does not
    produce the three slices of width 3 that the even split describes; the
    test [split is not []] holds for every [split], the branch for explicit
    sizes reads [node.attribute[1]], and the pass ends with an IndexError,
    the graph untouched. *)
Theorem split_without_sizes_raises :
  replace_split_with_slices SplitExamples.g_even
  = (Raise IndexError, initial SplitExamples.g_even)
  /\ (forall split, Split.is_not_new_list split = true)
  /\ Described.even_slices "X" ["a"; "b"; "c"] 0 9
     = [Split.slice "X" "a" 0 3 0; Split.slice "X" "b" 0 6 3;
        Split.slice "X" "c" 0 9 6].
Proof. repeat split. Qed.

(** The same for every Split node with fewer than two attributes, in any
    state of the scan, once its operand has a shape and the axis is one of
    its dimensions. *)
Lemma split_with_one_attribute_raises s ref nd x v d :
  nth_error (node (graph s)) ref = Some nd ->
  op_type nd = "Split" ->
  nth_error (input nd) 0 = Some x ->
  match find_value_by_name (graph s) x with
  | Some (_, v') => Some v'
  | None => find_input_by_name (graph s) x
  end = Some v ->
  vi_dim v <> [] ->
  Py.index (vi_dim v) (fst (Split.read_attributes (attribute nd))) = Some d ->
  nth_error (attribute nd) 1 = None ->
  Split.body ref s = (Raise IndexError, s).
Proof.
  intros Hnd Hop Hin Hres Hdim Haxis Hattr. unfold Split.body. mred.
  rewrite Hnd, Hop, String.eqb_refl, Hin. mred. rewrite Hres.
  unfold find_size_shape_from_value. rewrite length_map.
  destruct (vi_dim v) as [|d0 ds] eqn:Hd; [congruence|].
  cbn [length Nat.eqb].
  destruct (Split.read_attributes (attribute nd)) as [axis split] eqn:Hread.
  cbn [fst] in Haxis. rewrite Haxis. unfold Split.is_not_new_list.
  now rewrite Hattr.
Qed.

(** C3. A Split node that lists its sizes before its axis, with outputs a
    and b: [replace_split_with_slices] reads the sizes from
    [node.attribute[1]], the axis here, finds none, emits no Slice and
    removes the Split; no node of the result carries the names a and b. *)
Theorem split_sizes_first_loses_outputs :
  In SplitExamples.sizes_first (node SplitExamples.g_sizes_first)
  /\ output SplitExamples.sizes_first = ["a"; "b"]
  /\ exists s,
       replace_split_with_slices SplitExamples.g_sizes_first = (Ok tt, s)
       /\ node (graph s) = []
       /\ find_node_by_output_name (graph s) "a" = None
       /\ find_node_by_output_name (graph s) "b" = None.
Proof.
  split; [left; reflexivity|]. split; [reflexivity|].
  eexists. split; [vm_compute; reflexivity|]. repeat split.
Qed.

(** With the sizes in second place the same node is replaced by one Slice
    per output, under the names of the outputs. *)
Lemma split_sizes_last_keeps_outputs :
  exists s,
    replace_split_with_slices SplitExamples.g_sizes_last = (Ok tt, s)
    /\ node (graph s) = [Split.slice "X" "a" 0 4 0; Split.slice "X" "b" 0 9 4].
Proof. eexists. split; [vm_compute; reflexivity|]. reflexivity. Qed.

(** ** Reshape nodes *)


(** ** Shape nodes *)


(** C10. There is a graph with a Shape node whose operand is a graph input
    of known, non-empty shape, read by that node only, on which
    [replace_shape_with_constant] raises: the operand is not an entry of
    [g.value_info], from which the pass removes it.  The Constant is
    already appended and the Shape node still there. *)
Theorem shape_of_graph_input_raises :
  exists (g : Graph) (nd : Node) (x : string) (v : ValueInfo),
    node g = [nd] /\ op_type nd = "Shape" /\ input nd = [x]
    /\ find_value_by_name g x = None
    /\ find_input_by_name g x = Some v
    /\ vi_dim v <> [] /\ Described.fully_known v
    /\ ShapeFold.val_info_used g x = 1%nat
    /\ exists s,
         replace_shape_with_constant g = (Raise ValueError, s)
         /\ node (graph s) = [nd; list_to_constant "sx" [2] (Ints [1; 3])]
         /\ node_to_remove s = [0%nat].
Proof.
  exists ShapeExamples.g_input_operand, (ShapeExamples.shape_of "X"), "X",
    ShapeExamples.X.
  repeat split; try discriminate.
  - repeat constructor; eexists; reflexivity.
  - eexists. split; [vm_compute; reflexivity|]. split; reflexivity.
Qed.

(** ** Lookups and removals *)

Lemma find_from_found {A} (p : A -> bool) l i k v :
  find_from p l i = Some (k, v) ->
  (i <= k)%nat /\ p v = true /\ nth_error l (k - i) = Some v
  /\ forall j x, (j < k - i)%nat -> nth_error l j = Some x -> p x = false.
Proof.
  revert i. induction l as [|h t IH]; intros i H; simpl in H; [discriminate|].
  destruct (p h) eqn:Hp.
  - inversion H; subst. rewrite Nat.sub_diag. repeat split; auto.
    intros j x Hj. lia.
  - destruct (IH _ H) as (Hle & Hv & Hn & Hbefore).
    replace (k - i)%nat with (S (k - S i)) by lia.
    repeat split; auto; [lia|].
    intros [|j] x Hj Hx; simpl in Hx.
    + now inversion Hx; subst.
    + apply (Hbefore j); [lia | assumption].
Qed.

Lemma find_value_by_name_name g x k v :
  find_value_by_name g x = Some (k, v) -> vi_name v = x.
Proof.
  intros H. apply find_from_found in H. destruct H as (_ & Hp & _).
  now apply String.eqb_eq.
Qed.

Lemma ValueInfo_eqb_refl v : ValueInfo_eqb v v = true.
Proof. unfold ValueInfo_eqb. now destruct (ValueInfo_eq_dec v v). Qed.

Lemma Node_eqb_refl n : Node_eqb n n = true.
Proof. unfold Node_eqb. now destruct (Node_eq_dec n n). Qed.

(** Removing the entry that a lookup by name has found removes it at the
    position where it was found. *)
Lemma remove_found_by_name x l i k v :
  find_from (has_name x) l i = Some (k, v) ->
  Py.remove ValueInfo_eqb v l = Some (firstn (k - i) l ++ skipn (S (k - i)) l).
Proof.
  revert i. induction l as [|h t IH]; intros i H; simpl in H; [discriminate|].
  destruct (has_name x h) eqn:Hp.
  - inversion H; subst. rewrite Nat.sub_diag. simpl.
    now rewrite ValueInfo_eqb_refl.
  - pose proof (find_from_found _ _ _ _ _ H) as (Hle & Hv & _).
    simpl. unfold ValueInfo_eqb at 1.
    destruct (ValueInfo_eq_dec h v) as [->|_]; [congruence|].
    rewrite (IH _ H).
    replace (k - i)%nat with (S (k - S i)) by lia. reflexivity.
Qed.

(** A lookup that finds nothing leaves nothing to remove. *)
Lemma remove_not_found_by_name l v :
  find (has_name (vi_name v)) l = None ->
  Py.remove ValueInfo_eqb v l = None.
Proof.
  induction l as [|h t IH]; simpl; [reflexivity|].
  destruct (has_name (vi_name v) h) eqn:Hp; [discriminate|]. intros H.
  unfold ValueInfo_eqb at 1.
  destruct (ValueInfo_eq_dec h v) as [->|_].
  - unfold has_name in Hp. now rewrite String.eqb_refl in Hp.
  - now rewrite (IH H).
Qed.

Lemma find_from_none {A} (p : A -> bool) l i :
  find_from p l i = None <-> find p l = None.
Proof.
  revert i. induction l as [|h t IH]; intros i; simpl; [tauto|].
  destruct (p h); [split; discriminate | apply IH].
Qed.

(** ** Shape nodes, one iteration *)

Module ShapeFacts.
Import ShapeFold.

Lemma val_info_used_extend g nm y shape data :
  val_info_used (set_nodes g (node g ++ [list_to_constant y shape data])) nm
  = val_info_used g nm.
Proof.
  unfold val_info_used. simpl. rewrite filter_app. simpl.
  now rewrite app_nil_r.
Qed.

Lemma body_skips s ref nd x :
  nth_error (node (graph s)) ref = Some nd ->
  op_type nd = "Shape" ->
  nth_error (input nd) 0 = Some x ->
  (resolve (graph s) x = None
   \/ exists v, resolve (graph s) x = Some v /\ vi_dim v = []) ->
  body ref s = (Ok tt, s).
Proof.
  intros Hnd Hop Hin Hres. unfold body. mred.
  rewrite Hnd, Hop, String.eqb_refl, Hin. mred.
  fold (resolve (graph s) x).
  destruct Hres as [-> | [v [-> Hdim]]]; [reflexivity|].
  now rewrite Hdim.
Qed.

Lemma body_folds s ref nd x y v :
  nth_error (node (graph s)) ref = Some nd ->
  op_type nd = "Shape" ->
  nth_error (input nd) 0 = Some x ->
  nth_error (output nd) 0 = Some y ->
  resolve (graph s) x = Some v ->
  vi_dim v <> [] ->
  body ref s
  = if (val_info_used (graph s) (vi_name v) =? 1)%nat
    then match Py.remove ValueInfo_eqb v (value_info (graph s)) with
         | Some vi => (Ok tt, folded s ref y v vi)
         | None => (Raise ValueError, folded s ref y v (value_info (graph s)))
         end
    else (Ok tt, folded s ref y v (value_info (graph s))).
Proof.
  intros Hnd Hop Hin Hout Hres Hdim. unfold body. mred.
  rewrite Hnd, Hop, String.eqb_refl, Hin. mred.
  fold (resolve (graph s) x). rewrite Hres.
  destruct (vi_dim v) as [|d ds] eqn:Hd; [congruence|].
  cbn [length Nat.eqb]. mred. rewrite Hout. mred.
  pose proof (val_info_used_extend (graph s) (vi_name v) y
                [Z.of_nat (length (map dim_value (d :: ds)))]
                (Ints (map dim_value (d :: ds)))) as Hused.
  unfold set_nodes in Hused. rewrite Hused. clear Hused.
  unfold folded. rewrite Hd.
  destruct (val_info_used (graph s) (vi_name v) =? 1)%nat; mred.
  - destruct (Py.remove ValueInfo_eqb v (value_info (graph s))); reflexivity.
  - destruct s as [[? ? ? ? ?] ? ?]; reflexivity.
Qed.

End ShapeFacts.



(** C7.  When the operand of a folded Shape node is an intermediate value,
    its ValueInfo is deleted from [g.value_info] if exactly one node of the
    graph, counted with every node marked for removal still in place, has
    the name of the operand among its inputs, and that node is the Shape
    node; otherwise [g.value_info] is left as it is. *)
Theorem shape_operand_info_removed_iff_single_use :
  forall (s : State) (ref : nat) (nd : Node) (x y : string) (k : nat)
         (v : ValueInfo),
    nth_error (node (graph s)) ref = Some nd ->
    op_type nd = "Shape" ->
    nth_error (input nd) 0 = Some x ->
    nth_error (output nd) 0 = Some y ->
    find_value_by_name (graph s) x = Some (k, v) ->
    vi_dim v <> [] ->
    let used := length (filter (fun n => mem x (input n)) (node (graph s))) in
    ShapeFold.body ref s
    = (Ok tt,
       ShapeFold.folded s ref y v
         (if (used =? 1)%nat
          then firstn k (value_info (graph s)) ++ skipn (S k) (value_info (graph s))
          else value_info (graph s)))
    /\ nth_error (value_info (graph s)) k = Some v
    /\ (used = 1%nat ->
        filter (fun n => mem x (input n)) (node (graph s)) = [nd]).
Proof.
  intros s ref nd x y k v Hnd Hop Hin Hout Hfind Hdim used.
  assert (Hres : ShapeFold.resolve (graph s) x = Some v)
    by (unfold ShapeFold.resolve; now rewrite Hfind).
  pose proof (find_value_by_name_name _ _ _ _ Hfind) as Hname.
  unfold find_value_by_name in Hfind.
  pose proof (find_from_found _ _ _ _ _ Hfind) as (_ & _ & Hk & _).
  rewrite Nat.sub_0_r in Hk.
  split; [|split; [exact Hk|]].
  - rewrite (ShapeFacts.body_folds s ref nd x y v Hnd Hop Hin Hout Hres Hdim).
    unfold ShapeFold.val_info_used. rewrite Hname. fold used.
    destruct (used =? 1)%nat; [|reflexivity].
    rewrite (remove_found_by_name _ _ _ _ _ Hfind).
    now rewrite Nat.sub_0_r.
  - intros Hone.
    assert (Hmem : In nd (filter (fun n => mem x (input n)) (node (graph s)))).
    { apply filter_In. split; [eapply nth_error_In; eassumption|].
      destruct (input nd) as [|i0 rest]; [discriminate|].
      simpl in Hin. inversion Hin; subst i0.
      unfold mem. simpl. now rewrite String.eqb_refl. }
    unfold used in Hone.
    destruct (filter (fun n => mem x (input n)) (node (graph s)))
      as [|a [|b l]]; simpl in Hone; try discriminate.
    destruct Hmem as [-> | []]. reflexivity.
Qed.

Lemma shape_operand_info_removed_iff_single_use_witness :
  ShapeFold.body 0 (initial ShapeExamples.g_single_use)
  = (Ok tt,
     ShapeFold.folded (initial ShapeExamples.g_single_use) 0 "sx"
       ShapeExamples.x_known [])
  /\ ShapeFold.body 0 (initial ShapeExamples.g_shared)
     = (Ok tt,
        ShapeFold.folded (initial ShapeExamples.g_shared) 0 "sx"
          ShapeExamples.x_known [ShapeExamples.x_known]).
Proof.
  split.
  - refine (proj1 (shape_operand_info_removed_iff_single_use
                     (initial ShapeExamples.g_single_use) 0
                     (ShapeExamples.shape_of "x") "x" "sx" 0
                     ShapeExamples.x_known _ _ _ _ _ _));
      try reflexivity; discriminate.
  - refine (proj1 (shape_operand_info_removed_iff_single_use
                     (initial ShapeExamples.g_shared) 0
                     (ShapeExamples.shape_of "x") "x" "sx" 0
                     ShapeExamples.x_known _ _ _ _ _ _));
      try reflexivity; discriminate.
Defined.

(** The iteration that C10 is about, in any state of the scan: the operand
    is a graph input and no intermediate value, and the Shape node is the
    only node that reads it. *)
Lemma shape_of_graph_input_body_raises s ref nd x y v :
  nth_error (node (graph s)) ref = Some nd ->
  op_type nd = "Shape" ->
  nth_error (input nd) 0 = Some x ->
  nth_error (output nd) 0 = Some y ->
  find_value_by_name (graph s) x = None ->
  find_input_by_name (graph s) x = Some v ->
  vi_dim v <> [] ->
  ShapeFold.val_info_used (graph s) x = 1%nat ->
  ShapeFold.body ref s
  = (Raise ValueError, ShapeFold.folded s ref y v (value_info (graph s))).
Proof.
  intros Hnd Hop Hin Hout Hnone Hinput Hdim Hused.
  assert (Hres : ShapeFold.resolve (graph s) x = Some v)
    by (unfold ShapeFold.resolve; now rewrite Hnone).
  assert (Hname : vi_name v = x).
  { unfold find_input_by_name in Hinput. apply find_some in Hinput.
    now apply String.eqb_eq. }
  rewrite (ShapeFacts.body_folds s ref nd x y v Hnd Hop Hin Hout Hres Hdim).
  rewrite Hname, Hused. simpl Nat.eqb. cbv iota.
  rewrite remove_not_found_by_name; [reflexivity|].
  rewrite Hname. now apply find_from_none in Hnone.
Qed.

(** ** Reshape nodes, one iteration *)

Module FlattenFacts.
Import Flatten.

Lemma followed_by_gemm_spec nodes y :
  followed_by_gemm nodes (Some y) = Some (gemm_reads nodes y).
Proof.
  induction nodes as [|i rest IH]; simpl; [reflexivity|].
  destruct (input i) as [|in0 ins]; [exact IH|].
  destruct (in0 =? y)%string; simpl; [|exact IH].
  destruct (op_type i =? "Gemm")%string; simpl; [reflexivity | exact IH].
Qed.

Lemma body_spec s ref nd y sname k c so vk sv :
  nth_error (node (graph s)) ref = Some nd ->
  op_type nd = "Reshape" ->
  nth_error (output nd) 0 = Some y ->
  nth_error (input nd) 1 = Some sname ->
  find_node_by_output_name (graph s) sname = Some (k, c) ->
  nth_error (output c) 0 = Some so ->
  (op_type c = "Constant" -> find_value_by_name (graph s) so = Some (vk, sv)) ->
  body ref s
  = (Ok tt,
     if gemm_reads (node (graph s)) y && (op_type c =? "Constant")%string
     then rewritten s ref nd k vk else s).
Proof.
  intros Hnd Hop Hout Hin Hfind Hso Hinfo. unfold body. mred.
  rewrite Hnd, Hop, String.eqb_refl, Hout, followed_by_gemm_spec. mred.
  destruct (gemm_reads (node (graph s)) y); [|reflexivity].
  rewrite Hin. mred. rewrite Hfind.
  destruct (op_type c =? "Constant")%string eqn:Hc; [|reflexivity].
  apply String.eqb_eq in Hc. specialize (Hinfo Hc).
  rewrite Hso. mred. rewrite Hinfo. cbn [option_map snd].
  unfold find_value_by_name in Hinfo.
  rewrite (remove_found_by_name _ _ _ _ _ Hinfo). rewrite Nat.sub_0_r.
  reflexivity.
Qed.

End FlattenFacts.



(** ** Removing the marked nodes *)

Lemma Node_eqb_eq x y : Node_eqb x y = true <-> x = y.
Proof. unfold Node_eqb. destruct (Node_eq_dec x y); split; congruence. Qed.

Lemma Subseq_tail {A} (v : A) vs l : Subseq (v :: vs) l -> Subseq vs l.
Proof.
  intros H. remember (v :: vs) as w eqn:Hw. revert v vs Hw.
  induction H as [l | x ws l H IH | x ws l H IH]; intros v vs Hw.
  - discriminate.
  - apply Subseq_skip. eapply IH. eassumption.
  - inversion Hw; subst. now apply Subseq_skip.
Qed.

Lemma Subseq_refl {A} (l : list A) : Subseq l l.
Proof. induction l; constructor; assumption. Qed.

Lemma Subseq_filter {A} (p : A -> bool) l : Subseq (filter p l) l.
Proof.
  induction l as [|h t IH]; simpl; [constructor|].
  destruct (p h); constructor; assumption.
Qed.

Lemma Subseq_app_r {A} (vs l extra : list A) :
  Subseq vs l -> Subseq vs (l ++ extra).
Proof. induction 1; simpl; constructor; assumption. Qed.

Lemma remove_Subseq v vs l :
  Subseq (v :: vs) l ->
  exists l', Py.remove Node_eqb v l = Some l' /\ Subseq vs l'.
Proof.
  induction l as [|h t IH]; intros H; [inversion H|]. simpl.
  destruct (Node_eqb h v) eqn:Heq.
  - exists t. split; [reflexivity|].
    inversion H; subst; [eapply Subseq_tail; eassumption | assumption].
  - inversion H; subst.
    + destruct (IH H2) as (l' & -> & Hsub).
      exists (h :: l'). split; [reflexivity | now constructor].
    + rewrite Node_eqb_refl in Heq. discriminate.
Qed.

Lemma remove_each_Subseq vs :
  forall s, Subseq vs (node (graph s)) ->
  exists l,
    for_each (map Some vs) remove_node s
    = (Ok tt, mkState (set_nodes (graph s) l) (node_to_remove s) (stdout s)).
Proof.
  induction vs as [|v vs IH]; intros s H; simpl.
  - exists (node (graph s)). unfold ret.
    destruct s as [[? ? ? ? ?] ? ?]. reflexivity.
  - destruct (remove_Subseq _ _ _ H) as (l' & Hrm & Hsub).
    destruct (IH (mkState (set_nodes (graph s) l') (node_to_remove s) (stdout s)) Hsub)
      as (l & Hl).
    exists l. unfold bind at 1. unfold remove_node at 1. mred. rewrite Hrm.
    unfold set_nodes in Hl. cbn [graph node_to_remove stdout node g_input g_output
                                   initializer value_info] in Hl.
    exact Hl.
Qed.

(** The marked nodes are removed without error when their contents are a
    sub-sequence of the node list. *)
Lemma remove_marked_nodes_ok s vs :
  map (nth_error (node (graph s))) (node_to_remove s) = map Some vs ->
  Subseq vs (node (graph s)) ->
  exists l,
    remove_marked_nodes s
    = (Ok tt, mkState (set_nodes (graph s) l) (node_to_remove s) (stdout s)).
Proof.
  intros Hv Hsub. unfold remove_marked_nodes.
  unfold bind at 1. unfold get_graph at 1. unfold bind at 1.
  cbv beta iota. change (fun i : nat => nth_error (node (graph s)) i)
    with (nth_error (node (graph s))). rewrite Hv.
  apply remove_each_Subseq. assumption.
Qed.

(** ** Squeeze and Unsqueeze *)

Module ToReshapeFacts.
Import ToReshape.

Lemma body_other op s ref nd :
  nth_error (node (graph s)) ref = Some nd ->
  op_type nd <> op ->
  body op ref s = (Ok tt, s).
Proof.
  intros Hnd Hop. unfold body. mred. rewrite Hnd.
  apply String.eqb_neq in Hop. now rewrite Hop.
Qed.

Lemma body_unresolved op s ref nd :
  nth_error (node (graph s)) ref = Some nd ->
  op_type nd = op ->
  output nd <> [] ->
  resolved (graph s) nd = None ->
  body op ref s = (Raise (RuntimeError ("Cannot get shape for " ++ op)%string), s).
Proof.
  intros Hnd Hop Hout Hres. unfold body. mred. rewrite Hnd.
  rewrite Hop, String.eqb_refl. unfold resolved in Hres.
  destruct (output nd) as [|y ys]; [congruence|]. cbn [nth_error] in *.
  now rewrite Hres.
Qed.

Lemma body_resolved op s ref nd in0 v :
  nth_error (node (graph s)) ref = Some nd ->
  op_type nd = op ->
  nth_error (input nd) 0 = Some in0 ->
  resolved (graph s) nd = Some v ->
  body op ref s = (Ok tt, replaced s ref nd in0 v).
Proof.
  intros Hnd Hop Hin Hres. unfold body. mred. rewrite Hnd.
  rewrite Hop, String.eqb_refl. unfold resolved in Hres.
  destruct (nth_error (output nd) 0) as [y|]; [|discriminate].
  rewrite Hres. rewrite Hin. reflexivity.
Qed.

Lemma resolved_same g g' nd :
  value_info g' = value_info g -> g_output g' = g_output g ->
  resolved g' nd = resolved g nd.
Proof.
  intros Hv Ho. unfold resolved, find_value_by_name, find_output_by_name.
  now rewrite Hv, Ho.
Qed.

Lemma measure_app op (l1 l2 : list Node) :
  list_sum (map (fun n => S (cost op n)) (l1 ++ l2))
  = (list_sum (map (fun n => S (cost op n)) l1)
     + list_sum (map (fun n => S (cost op n)) l2))%nat.
Proof. now rewrite map_app, list_sum_app. Qed.

Lemma replacement_not_op op nd in0 v :
  op <> "Constant" -> op <> "Reshape" ->
  Forall (fun n => is_op op n = false) (replacement nd in0 v).
Proof.
  intros Hc Hr. unfold replacement, is_op, list_to_constant, make_node.
  repeat constructor; cbn [op_type]; apply String.eqb_neq; congruence.
Qed.

Lemma all_resolved_app_not_op op g l1 l2 :
  Forall (fun n => is_op op n = false) l2 ->
  all_resolved op g (l1 ++ l2) = all_resolved op g l1.
Proof.
  intros H. unfold all_resolved. rewrite forallb_app.
  replace (forallb _ l2) with true; [apply andb_true_r|].
  symmetry. apply forallb_forall. intros n Hn.
  rewrite Forall_forall in H. now rewrite (H n Hn).
Qed.

Lemma filter_app_not_op op (l1 l2 : list Node) :
  Forall (fun n => is_op op n = false) l2 ->
  filter (is_op op) (l1 ++ l2) = filter (is_op op) l1.
Proof.
  intros H. rewrite filter_app.
  replace (filter (is_op op) l2) with (@nil Node); [apply app_nil_r|].
  symmetry. induction H as [|n l Hn _ IH]; simpl; [reflexivity|].
  now rewrite Hn.
Qed.

Lemma measure_not_op op (l : list Node) :
  Forall (fun n => is_op op n = false) l ->
  list_sum (map (fun n => S (cost op n)) l) = length l.
Proof.
  induction 1 as [|n l Hn _ IH]; simpl; [reflexivity|].
  unfold cost at 1. unfold is_op in Hn. rewrite Hn. now rewrite IH.
Qed.

(** The scan from the position after [pre], the nodes [rest] still ahead. *)
Lemma scan op g :
  op <> "Constant" -> op <> "Reshape" ->
  forall fuel pre rest s vs,
    node (graph s) = pre ++ rest ->
    value_info (graph s) = value_info g ->
    g_output (graph s) = g_output g ->
    Forall (fun nd => op_type nd = op -> input nd <> [] /\ output nd <> []) rest ->
    map (nth_error (node (graph s))) (node_to_remove s) = map Some vs ->
    (list_sum (map (fun n => S (cost op n)) rest) <= fuel)%nat ->
    if all_resolved op g rest then
      exists s' added,
        for_each_node (body op) fuel (length pre) s = (Ok tt, s')
        /\ node (graph s') = pre ++ rest ++ added
        /\ map (nth_error (node (graph s'))) (node_to_remove s')
           = map Some (vs ++ filter (is_op op) rest)
    else
      exists s',
        for_each_node (body op) fuel (length pre) s
        = (Raise (RuntimeError ("Cannot get shape for " ++ op)%string), s').
Proof.
  intros Hc Hr. induction fuel as [|fuel IH];
    intros pre rest s vs Hnodes Hvi Hgo Hwf Hvs Hfuel.
  - destruct rest as [|nd rest]; [|simpl in Hfuel; lia].
    simpl. exists s, []. rewrite Hnodes.
    rewrite nth_error_app2 by lia. rewrite Nat.sub_diag. simpl.
    rewrite !app_nil_r. repeat split.
    rewrite <- Hvs. now rewrite Hnodes, app_nil_r.
  - destruct rest as [|nd rest].
    + simpl. exists s, []. rewrite Hnodes.
      rewrite nth_error_app2 by lia. rewrite Nat.sub_diag. simpl.
      rewrite !app_nil_r. repeat split.
      rewrite <- Hvs. now rewrite Hnodes, app_nil_r.
    + assert (Hnd : nth_error (node (graph s)) (length pre) = Some nd).
      { rewrite Hnodes, nth_error_app2 by lia. now rewrite Nat.sub_diag. }
      inversion Hwf as [|? ? Hwf1 Hwf2]; subst.
      change (all_resolved op g (nd :: rest))
        with ((negb (is_op op nd)
               || match resolved g nd with Some _ => true | None => false end)
              && all_resolved op g rest).
      unfold is_op at 1.
      destruct (op_type nd =? op)%string eqn:Hop.
      * apply String.eqb_eq in Hop. destruct (Hwf1 Hop) as [Hin Hout].
        cbn [negb orb].
        rewrite <- (resolved_same g (graph s) nd Hvi Hgo).
        destruct (resolved (graph s) nd) as [v|] eqn:Hres.
        -- destruct (input nd) as [|in0 ins] eqn:Hinp; [congruence|].
           assert (Hb : body op (length pre) s
                        = (Ok tt, replaced s (length pre) nd in0 v)).
           { apply body_resolved; auto. now rewrite Hinp. }
           rewrite (for_each_node_step _ _ _ _ _ _ Hnd Hb).
           cbn [andb].
           specialize (IH (pre ++ [nd]) (rest ++ replacement nd in0 v)
                         (replaced s (length pre) nd in0 v) (vs ++ [nd])).
           pose proof (replacement_not_op op nd in0 v Hc Hr) as Hnot.
           assert (Hres' : all_resolved op g (rest ++ replacement nd in0 v)
                           = all_resolved op g rest)
             by (now apply all_resolved_app_not_op).
           rewrite Hres' in IH. rewrite length_app in IH. simpl in IH.
           rewrite Nat.add_1_r in IH.
           assert (Hfilter : filter (is_op op) (rest ++ replacement nd in0 v)
                             = filter (is_op op) rest)
             by (now apply filter_app_not_op).
           assert (Hpre : node (graph (replaced s (length pre) nd in0 v))
                          = (pre ++ [nd]) ++ rest ++ replacement nd in0 v).
           { simpl. rewrite Hnodes. now rewrite <- !app_assoc. }
           assert (Hvs' : map (nth_error (node (graph (replaced s (length pre) nd in0 v))))
                            (node_to_remove (replaced s (length pre) nd in0 v))
                          = map Some (vs ++ [nd])).
           { simpl. rewrite !map_app. simpl. f_equal.
             - rewrite <- Hvs. apply map_ext_in. intros r Hr'.
               assert (Hlt : (r < length (node (graph s)))%nat).
               { apply nth_error_Some.
                 assert (Hin' : In (nth_error (node (graph s)) r)
                                  (map (nth_error (node (graph s))) (node_to_remove s)))
                   by (apply in_map; assumption).
                 rewrite Hvs in Hin'. apply in_map_iff in Hin'.
                 destruct Hin' as (x & Hx & _). congruence. }
               now rewrite nth_error_app1.
             - rewrite nth_error_app1 by (apply nth_error_Some; congruence).
               now rewrite Hnd. }
           assert (Hwf' : Forall (fun nd0 => op_type nd0 = op ->
                                   input nd0 <> [] /\ output nd0 <> [])
                            (rest ++ replacement nd in0 v)).
           { apply Forall_app. split; [assumption|].
             eapply Forall_impl; [|exact Hnot]. intros n Hn Hn'.
             unfold is_op in Hn. rewrite Hn', String.eqb_refl in Hn.
             discriminate. }
           assert (Hfuel' : (list_sum (map (fun n => S (cost op n))
                                         (rest ++ replacement nd in0 v)) <= fuel)%nat).
           { rewrite measure_app, (measure_not_op op _ Hnot).
             cbn [map list_sum] in Hfuel. unfold cost at 1 in Hfuel.
             rewrite Hop, String.eqb_refl in Hfuel.
             unfold replacement. cbn [length].
             change (list_sum (3%nat :: ?l)) with (3 + list_sum l)%nat in Hfuel. lia. }
           specialize (IH Hpre Hvi Hgo Hwf' Hvs' Hfuel').
           destruct (all_resolved op g rest); cbv beta iota in IH |- *.
           ++ destruct IH as (s' & added & Hrun & Hn' & Hv').
              exists s', (replacement nd in0 v ++ added).
              split; [exact Hrun|]. split.
              ** rewrite Hn'. rewrite <- !app_assoc. reflexivity.
              ** rewrite Hv', Hfilter. simpl. unfold is_op at 2.
                 rewrite Hop, String.eqb_refl. now rewrite <- app_assoc.
           ++ exact IH.
        -- cbn [andb]. exists s.
           apply for_each_node_raise with (nd := nd); [assumption|].
           now apply body_unresolved with (nd := nd).
      * cbn [negb orb andb].
        assert (Hb : body op (length pre) s = (Ok tt, s)).
        { apply body_other with (nd := nd); [assumption|].
          now apply String.eqb_neq. }
        rewrite (for_each_node_step _ _ _ _ _ _ Hnd Hb).
        specialize (IH (pre ++ [nd]) rest s vs).
        rewrite length_app in IH. simpl in IH. rewrite Nat.add_1_r in IH.
        assert (Hfuel' : (list_sum (map (fun n => S (cost op n)) rest) <= fuel)%nat).
        { cbn [map] in Hfuel.
          change (list_sum (?x :: ?l)) with (x + list_sum l)%nat in Hfuel. lia. }
        rewrite <- app_assoc in IH. simpl in IH.
        specialize (IH Hnodes Hvi Hgo Hwf2 Hvs Hfuel').
        destruct (all_resolved op g rest); cbv beta iota in IH |- *.
        -- destruct IH as (s' & added & Hrun & Hn' & Hv').
           exists s', added. split; [exact Hrun|]. split.
           ++ rewrite Hn'. now rewrite <- app_assoc.
           ++ rewrite Hv'. simpl. unfold is_op at 2. now rewrite Hop.
        -- exact IH.
Qed.

(** The whole pass, on a graph whose [op] nodes have an input and an
    output. *)
Lemma pass_outcome op g :
  op <> "Constant" -> op <> "Reshape" ->
  Forall (fun nd => op_type nd = op -> input nd <> [] /\ output nd <> []) (node g) ->
  if all_resolved op g (node g) then exists s, pass op g = (Ok tt, s)
  else exists s,
         pass op g = (Raise (RuntimeError ("Cannot get shape for " ++ op)%string), s).
Proof.
  intros Hc Hr Hwf.
  pose proof (scan op g Hc Hr (scan_fuel (cost op) g) [] (node g) (initial g) []
                eq_refl eq_refl eq_refl Hwf eq_refl (Nat.le_refl _)) as H.
  unfold pass. simpl length in H.
  destruct (all_resolved op g (node g)).
  - destruct H as (s' & added & Hrun & Hn & Hv).
    rewrite (bind_ok _ _ _ _ _ Hrun).
    simpl in Hn, Hv.
    destruct (remove_marked_nodes_ok s' (filter (is_op op) (node g)) Hv) as (l & Hl).
    { rewrite Hn. apply Subseq_app_r, Subseq_filter. }
    rewrite (bind_ok _ _ _ _ _ Hl). eexists. reflexivity.
  - destruct H as (s' & Hrun). exists s'.
    now rewrite (bind_raise _ _ _ _ _ Hrun).
Qed.

Lemma all_resolved_true op g l :
  (forall nd, In nd l -> op_type nd = op -> resolved g nd <> None) ->
  all_resolved op g l = true.
Proof.
  intros H. apply forallb_forall. intros nd Hin. unfold is_op.
  destruct (op_type nd =? op)%string eqn:Hop; [|reflexivity]. simpl.
  apply String.eqb_eq in Hop. specialize (H nd Hin Hop).
  destruct (resolved g nd); congruence.
Qed.

Lemma all_resolved_false op g l nd :
  In nd l -> op_type nd = op -> resolved g nd = None ->
  all_resolved op g l = false.
Proof.
  intros Hin Hop Hres. destruct (all_resolved op g l) eqn:H; [|reflexivity].
  unfold all_resolved in H. rewrite forallb_forall in H. specialize (H nd Hin).
  unfold is_op in H. rewrite Hop, String.eqb_refl, Hres in H. discriminate.
Qed.

End ToReshapeFacts.

(** C4.  On a graph whose Squeeze nodes have an input and an output:
    if the first output of some Squeeze node has a shape neither among the
    intermediate values nor among the graph outputs,
    [replace_Squeeze_with_Reshape] raises the RuntimeError "Cannot get shape
    for Squeeze"; if every Squeeze node has such a shape, the pass ends
    without error.  The same holds of [replace_Unsqueeze_with_Reshape] and
    the Unsqueeze nodes. *)
Theorem squeeze_unsqueeze_need_output_shape :
  forall (g : Graph) (op : string)
         (pass : Graph -> result unit * State),
    (op = "Squeeze" /\ pass = replace_Squeeze_with_Reshape)
    \/ (op = "Unsqueeze" /\ pass = replace_Unsqueeze_with_Reshape) ->
    Forall (fun nd => op_type nd = op -> input nd <> [] /\ output nd <> [])
      (node g) ->
    ((exists nd,
        In nd (node g) /\ op_type nd = op /\ ToReshape.resolved g nd = None) ->
     exists s,
       pass g = (Raise (RuntimeError ("Cannot get shape for " ++ op)%string), s))
    /\ ((forall nd,
           In nd (node g) -> op_type nd = op -> ToReshape.resolved g nd <> None) ->
        exists s, pass g = (Ok tt, s)).
Proof.
  intros g op pass Hop Hwf.
  assert (Hpass : pass = ToReshape.pass op
                  /\ op <> "Constant" /\ op <> "Reshape").
  { destruct Hop as [[-> ->] | [-> ->]]; repeat split; discriminate. }
  destruct Hpass as (-> & Hc & Hr).
  pose proof (ToReshapeFacts.pass_outcome op g Hc Hr Hwf) as H.
  split.
  - intros (nd & Hin & Hnd & Hres).
    now rewrite (ToReshapeFacts.all_resolved_false op g _ nd Hin Hnd Hres) in H.
  - intros Hall.
    now rewrite (ToReshapeFacts.all_resolved_true op g _ Hall) in H.
Qed.

Lemma squeeze_unsqueeze_need_output_shape_witness :
  (exists s,
     replace_Squeeze_with_Reshape (ToReshapeExamples.g_unresolved "Squeeze")
     = (Raise (RuntimeError "Cannot get shape for Squeeze"), s))
  /\ (exists s,
        replace_Unsqueeze_with_Reshape (ToReshapeExamples.g_resolved "Unsqueeze")
        = (Ok tt, s)).
Proof.
  split.
  - refine (proj1 (squeeze_unsqueeze_need_output_shape
                     (ToReshapeExamples.g_unresolved "Squeeze") "Squeeze"
                     replace_Squeeze_with_Reshape _ _) _).
    + left. split; reflexivity.
    + repeat constructor; discriminate.
    + exists (ToReshapeExamples.squeeze "Squeeze").
      split; [left; reflexivity|]. split; reflexivity.
  - refine (proj2 (squeeze_unsqueeze_need_output_shape
                     (ToReshapeExamples.g_resolved "Unsqueeze") "Unsqueeze"
                     replace_Unsqueeze_with_Reshape _ _) _).
    + right. split; reflexivity.
    + repeat constructor; discriminate.
    + intros nd [<- | []] _. discriminate.
Defined.

(** ** Depthwise convolutions, one iteration *)




Module DepthwiseFacts.
Import Depthwise.









End DepthwiseFacts.



(** ** Loops over a range *)



(** ** Positions in row-major order *)










(** ** The expanded kernel *)



Section ExpandKernel.

Variables Co Ci Kh Kw dh dw : Z.
Variable weight : list float.

Hypothesis HCo : 0 <= Co.
Hypothesis HCi : 0 <= Ci.
Hypothesis HKh : 1 <= Kh.
Hypothesis HKw : 1 <= Kw.
Hypothesis Hdh : 1 <= dh.
Hypothesis Hdw : 1 <= dw.
Hypothesis Hweight : Z.of_nat (length weight) = Co * Ci * Kh * Kw.

Let nh := 1 + (Kh - 1) * dh.
Let nw := 1 + (Kw - 1) * dw.










End ExpandKernel.



(** ** Dilated convolutions, one iteration *)




Lemma set_nth_app1 {A} (l1 l2 : list A) i x :
  (i < length l1)%nat ->
  Py.set_nth (l1 ++ l2) i x = Py.set_nth l1 i x ++ l2.
Proof.
  revert i. induction l1 as [|h t IH]; intros [|i] H; simpl in *; try lia;
    [reflexivity | rewrite IH by lia; reflexivity].
Qed.

Module DilatedBody.
Import Dilated.












Lemma bind_extend_nodes {B} (l : list Node) (k : unit -> M B) s :
  bind (extend_nodes l) k s
  = k tt (mkState (set_nodes (graph s) (node (graph s) ++ l))
            (node_to_remove s) (stdout s)).
Proof. reflexivity. Qed.

Lemma bind_mark_for_removal {B} (i : nat) (k : unit -> M B) s :
  bind (mark_for_removal i) k s
  = k tt (mkState (graph s) (node_to_remove s ++ [i]) (stdout s)).
Proof. reflexivity. Qed.


End DilatedBody.







(** The expansion of the kernel [[1, 2], [3, 4]] with dilations [2, 2], by
    the whole pass: the kernel becomes [[1, 0, 2], [0, 0, 0], [3, 0, 4]] of
    shape [1, 1, 3, 3], the kernel_shape [3, 3] and the dilations [1, 1]. *)
Example dilated_conv_example :
  replace_dilated_conv DilatedExamples.g_dilated
  = (Ok tt,
     mkState
       (mkGraph
          [DilatedExamples.conv
             [mkAttr "dilations" (AInts [1; 1]); mkAttr "kernel_shape" (AInts [3; 3])];
           mkNode "Constant" "W" [] ["W"]
             [mkAttr "value"
                (ATensor (mkTensor "W" FLOAT [1; 1; 3; 3]
                            [Finite 1; Finite 0; Finite 2;
                             Finite 0; Finite 0; Finite 0;
                             Finite 3; Finite 0; Finite 4] [] []))]]
          [] [] []
          [mkValueInfo "W" FLOAT [DimValue 1; DimValue 1; DimValue 3; DimValue 3]])
       [0%nat] []).
Proof. vm_compute. reflexivity. Qed.

(** ** The other passes, on examples *)

(** The initializer W becomes a Constant node that holds the same tensor,
    W moves from the graph inputs to the intermediate values, and the
    initializer that no node reads disappears with its graph input. *)
Example initializer_promoted :
  replace_initializer_with_Constant OtherExamples.g_initializers
  = (Ok tt,
     mkState
       (mkGraph
          [OtherExamples.matmul;
           mkNode "Constant" "W" [] ["W"] [mkAttr "value" (ATensor OtherExamples.W)]]
          [OtherExamples.X_info] [] [] [OtherExamples.W_info])
       [] []).
Proof. vm_compute. reflexivity. Qed.

(** The pooling over the whole plane becomes a GlobalAveragePool with the
    inputs, outputs and name of the AveragePool. *)
Example average_pool_specialized :
  exists s,
    replace_average_pool_with_GAP OtherExamples.g_pool = (Ok tt, s)
    /\ node (graph s) = [mkNode "GlobalAveragePool" "pool0" ["x"] ["y"] []].
Proof. eexists. split; [vm_compute; reflexivity | reflexivity]. Qed.

(** ** The scans never run out of steps *)

Section Growth.

Variable cost : Node -> nat.

Lemma grows_ret {A} (a : A) k : grows cost k (ret a).
Proof.
  intros s. unfold grows_at, ret. exists O. simpl. rewrite app_nil_r.
  split; [reflexivity | lia].
Qed.

Lemma grows_raise {A} e k : grows cost k (@raise A e).
Proof. intros s. exact I. Qed.

Lemma grows_orelse {A} (o : option A) e k : grows cost k (orelse o e).
Proof. destruct o; [apply grows_ret | apply grows_raise]. Qed.

Lemma grows_lift {A} (m : E A) k : grows cost k (lift m).
Proof. destruct m; [apply grows_raise | apply grows_ret]. Qed.

Lemma grows_bind {A B} (m : M A) (f : A -> M B) k1 k2 k :
  grows cost k1 m -> (forall a, grows cost k2 (f a)) -> (k1 + k2 <= k)%nat ->
  grows cost k (bind m f).
Proof.
  intros Hm Hf Hk s. specialize (Hm s). unfold grows_at, bind in *.
  destruct (m s) as [[a | e |] s1]; [| exact I | exact Hm].
  destruct Hm as (n1 & E1 & L1). specialize (Hf a s1). unfold grows_at in Hf.
  destruct (f a s1) as [[b | e |] s2]; [| exact I | exact Hf].
  destruct Hf as (n2 & E2 & L2). exists (n1 + n2)%nat. split; [|lia].
  now rewrite E2, E1, <- app_assoc, repeat_app.
Qed.

Lemma grows_bind0 {A B} (m : M A) (f : A -> M B) k :
  grows cost 0 m -> (forall a, grows cost k (f a)) -> grows cost k (bind m f).
Proof. intros Hm Hf. now apply grows_bind with (k1 := O) (k2 := k). Qed.

(** A computation that leaves the node list alone. *)
Lemma grows_same_nodes {A} (m : M A) k :
  (forall s, match m s with
             | (Ok _, s') => node (graph s') = node (graph s)
             | (Raise _, _) => True
             | (OutOfFuel, _) => False
             end) ->
  grows cost k m.
Proof.
  intros H s. specialize (H s). unfold grows_at.
  destruct (m s) as [[a | e |] s']; auto.
  exists O. rewrite H. simpl. rewrite app_nil_r. split; [reflexivity | lia].
Qed.

Lemma grows_get_graph k : grows cost k get_graph.
Proof. apply grows_same_nodes. intros s. reflexivity. Qed.

Lemma grows_mark_for_removal i k : grows cost k (mark_for_removal i).
Proof. apply grows_same_nodes. intros s. reflexivity. Qed.

Lemma grows_print line k : grows cost k (print line).
Proof. apply grows_same_nodes. intros s. reflexivity. Qed.

Lemma grows_update_value_info i v k : grows cost k (update_value_info i v).
Proof. apply grows_same_nodes. intros s. reflexivity. Qed.

Lemma grows_remove_value_info v k : grows cost k (remove_value_info v).
Proof.
  apply grows_same_nodes. intros s. unfold remove_value_info. mred.
  destruct v as [v|]; [|exact I].
  destruct (Py.remove ValueInfo_eqb v (value_info (graph s))); [reflexivity | exact I].
Qed.

Lemma grows_extend_nodes l k :
  Forall (fun n => cost n = O) l -> (length l <= k)%nat ->
  grows cost k (extend_nodes l).
Proof.
  intros Hl Hk s. unfold grows_at, extend_nodes. mred.
  exists (length l). split; [|assumption]. rewrite map_app. f_equal.
  clear Hk. induction Hl as [|n l Hn _ IH]; simpl; [reflexivity|].
  now rewrite Hn, IH.
Qed.

Lemma grows_for_each {A} (l : list A) (f : A -> M unit) :
  (forall x, grows cost 0 (f x)) -> grows cost 0 (for_each l f).
Proof.
  intros Hf. induction l as [|x l IH]; simpl.
  - apply grows_ret.
  - apply grows_bind0; [apply Hf | intros _; exact IH].
Qed.

Lemma grows_fold_each {A St} (l : list A) (f : St -> A -> M St) :
  (forall acc x, grows cost 1 (f acc x)) ->
  forall acc, grows cost (length l) (fold_each l acc f).
Proof.
  intros Hf. induction l as [|x l IH]; intros acc; simpl.
  - apply grows_ret.
  - apply grows_bind with (k1 := 1%nat) (k2 := length l);
      [apply Hf | intros a; apply IH | lia].
Qed.

Lemma grows_weaken {A} (m : M A) k k' :
  grows cost k m -> (k <= k')%nat -> grows cost k' m.
Proof.
  intros H Hk s. specialize (H s). unfold grows_at in *.
  destruct (m s) as [[a | e |] s']; auto.
  destruct H as (n & E1 & L). exists n. split; [assumption | lia].
Qed.

(** Writing over a node a node of the same cost. *)
Lemma map_cost_set_nth l i n n' :
  nth_error l i = Some n -> cost n' = cost n ->
  map cost (Py.set_nth l i n') = map cost l.
Proof.
  revert i. induction l as [|h t IH]; intros [|i] H Hc; simpl in *;
    try discriminate.
  - inversion H; subst. now rewrite Hc.
  - now rewrite (IH i H Hc).
Qed.

Lemma skipn_cost_step (l : list nat) i c :
  nth_error l i = Some c ->
  list_sum (map S (skipn i l)) = (S c + list_sum (map S (skipn (S i) l)))%nat.
Proof.
  revert i. induction l as [|h t IH]; intros [|i] H; simpl in *;
    try discriminate.
  - now inversion H.
  - exact (IH i H).
Qed.

Lemma skipn_past_app {A} (l r : list A) i c :
  nth_error l i = Some c -> skipn (S i) (l ++ r) = skipn (S i) l ++ r.
Proof.
  revert i. induction l as [|h t IH]; intros [|i] H; simpl in *;
    try discriminate.
  - reflexivity.
  - exact (IH i H).
Qed.

Lemma list_sum_new_nodes added : list_sum (map S (repeat O added)) = added.
Proof. induction added as [|n IH]; simpl; [reflexivity | now rewrite IH]. Qed.

(** A scan whose body grows the graph by no more than the cost of the node
    it visits ends within the steps that pay for the nodes still ahead. *)
Lemma scan_total (body : nat -> M unit) :
  (forall ref s nd,
     nth_error (node (graph s)) ref = Some nd ->
     grows_at cost (cost nd) (body ref) s) ->
  forall fuel i s,
    (list_sum (map S (skipn i (map cost (node (graph s))))) <= fuel)%nat ->
    fst (for_each_node body fuel i s) <> OutOfFuel.
Proof.
  intros Hbody. induction fuel as [|fuel IH]; intros i s Hfuel; simpl;
    (destruct (nth_error (node (graph s)) i) as [nd|] eqn:Hnd;
      [|discriminate]);
    assert (Hc : nth_error (map cost (node (graph s))) i = Some (cost nd))
      by (now rewrite nth_error_map, Hnd);
    rewrite (skipn_cost_step _ _ _ Hc) in Hfuel.
  - lia.
  - specialize (Hbody i s nd Hnd). unfold grows_at in Hbody.
    destruct (body i s) as [[[] | e |] s']; [| discriminate | contradiction].
    destruct Hbody as (added & Hcost & Hadded).
    apply IH. rewrite Hcost, (skipn_past_app _ _ _ _ Hc), map_app,
      list_sum_app, list_sum_new_nodes.
    lia.
Qed.

Lemma scan_fuel_pays g :
  list_sum (map S (skipn 0 (map cost (node g)))) = scan_fuel cost g.
Proof. unfold scan_fuel. simpl. now rewrite map_map. Qed.

Lemma grows_sub {A B} (m : M A) (f : A -> M B) k1 k :
  grows cost k1 m -> (forall a, grows cost (k - k1) (f a)) -> (k1 <= k)%nat ->
  grows cost k (bind m f).
Proof. intros Hm Hf Hk. apply grows_bind with (k1 := k1) (k2 := (k - k1)%nat); auto. lia. Qed.

Lemma grows_bind_assoc {A B C} (m : M A) (f : A -> M B) (h : B -> M C) k :
  grows cost k (bind m (fun a => bind (f a) h)) -> grows cost k (bind (bind m f) h).
Proof.
  intros H s. specialize (H s). unfold grows_at, bind in *.
  destruct (m s) as [[a | e |] s1]; exact H.
Qed.

Lemma grows_ret_bind {A B} (a : A) (f : A -> M B) k :
  grows cost k (f a) -> grows cost k (bind (ret a) f).
Proof. intros H s. exact (H s). Qed.

Lemma grows_node_at ref k : grows cost k (node_at ref).
Proof.
  apply grows_same_nodes. intros s. unfold node_at. mred.
  destruct (nth_error (node (graph s)) ref); [reflexivity | exact I].
Qed.

(** The body of a scan, once it has read the node it visits. *)
Lemma grows_at_node_at {B} ref nd (f : Node -> M B) k s :
  nth_error (node (graph s)) ref = Some nd ->
  grows cost k (f nd) -> grows_at cost k (bind (node_at ref) f) s.
Proof.
  intros H Hf. unfold grows_at. rewrite (bind_ok _ _ _ _ _ (node_at_ok _ _ _ H)).
  apply Hf.
Qed.

(** Writing over the node [ref] a node of the same cost. *)
Lemma grows_at_update_node ref n n' k s :
  nth_error (node (graph s)) ref = Some n -> cost n' = cost n ->
  grows_at cost k (update_node ref n') s.
Proof.
  intros Hn Hc. unfold grows_at, update_node. mred. exists O.
  rewrite (map_cost_set_nth _ _ _ _ Hn Hc). simpl. rewrite app_nil_r.
  split; [reflexivity | lia].
Qed.

Lemma grows_update_node_flat ref n k :
  (forall a b, cost a = cost b) -> grows cost k (update_node ref n).
Proof.
  intros Hflat s. unfold grows_at, update_node. mred. exists O.
  simpl. rewrite app_nil_r. split; [|lia].
  generalize (node (graph s)) as l. intros l. revert ref.
  induction l as [|h t IH]; intros [|i]; simpl; try reflexivity.
  - now rewrite (Hflat n h).
  - now rewrite IH.
Qed.

Lemma grows_total {A} (m : M A) k : grows cost k m -> total m.
Proof.
  intros H s. specialize (H s). unfold grows_at in H.
  destruct (m s) as [[a | e |] s']; simpl; [discriminate | discriminate | contradiction].
Qed.

End Growth.

Ltac grow_step :=
  match goal with
  | |- grows _ _ (ret _) => apply grows_ret
  | |- grows _ _ (raise _) => apply grows_raise
  | |- grows _ _ (orelse _ _) => apply grows_orelse
  | |- grows _ _ (lift _) => apply grows_lift
  | |- grows _ _ get_graph => apply grows_get_graph
  | |- grows _ _ (mark_for_removal _) => apply grows_mark_for_removal
  | |- grows _ _ (print _) => apply grows_print
  | |- grows _ _ (update_value_info _ _) => apply grows_update_value_info
  | |- grows _ _ (remove_value_info _) => apply grows_remove_value_info
  | |- grows _ _ (node_at _) => apply grows_node_at
  | |- grows _ _ (for_each _ _) => apply grows_for_each; intro
  | |- grows _ _ (extend_nodes _) =>
      apply grows_extend_nodes;
        [repeat first [apply Forall_nil | apply Forall_cons; [reflexivity|]]
        | simpl; lia]
  | |- grows _ _ (bind (extend_nodes ?l) _) =>
      apply grows_sub with (k1 := length l);
        [apply grows_extend_nodes;
           [repeat first [apply Forall_nil | apply Forall_cons; [reflexivity|]]
           | apply le_n]
        | intro; simpl Nat.sub
        | simpl; lia]
  | |- grows _ _ (bind (bind _ _) _) => apply grows_bind_assoc
  | |- grows _ _ (bind (if ?c then _ else _) _) => destruct c
  | |- grows _ _ (bind _ _) => apply grows_bind0; [|intro]
  | |- grows _ _ (if ?c then _ else _) => destruct c
  | |- grows _ _ (match ?x with _ => _ end) => destruct x
  | |- grows _ _ (let _ := _ in _) => cbv zeta
  end.

Ltac grow := repeat grow_step.

Section Totality.

Lemma total_ret {A} (a : A) : total (ret a).
Proof. intros s. discriminate. Qed.

Lemma total_raise {A} e : total (@raise A e).
Proof. intros s. discriminate. Qed.

Lemma total_orelse {A} (o : option A) e : total (orelse o e).
Proof. destruct o; [apply total_ret | apply total_raise]. Qed.

Lemma total_bind {A B} (m : M A) (f : A -> M B) :
  total m -> (forall a, total (f a)) -> total (bind m f).
Proof.
  intros Hm Hf s. specialize (Hm s). unfold bind.
  destruct (m s) as [[a | e |] s1]; simpl in *;
    [apply Hf | discriminate | contradiction].
Qed.

Lemma total_get_graph : total get_graph.
Proof. intros s. discriminate. Qed.

Lemma total_put_graph g : total (put_graph g).
Proof. intros s. discriminate. Qed.

Lemma total_for_each {A} (l : list A) (f : A -> M unit) :
  (forall x, total (f x)) -> total (for_each l f).
Proof.
  intros Hf. induction l as [|x l IH]; simpl.
  - apply total_ret.
  - apply total_bind; [apply Hf | intros _; exact IH].
Qed.

Lemma total_remove_node v : total (remove_node v).
Proof.
  unfold remove_node. apply total_bind; [apply total_get_graph | intros g].
  destruct v as [n|]; [|apply total_raise].
  apply total_bind; [apply total_orelse | intros l; apply total_put_graph].
Qed.

Lemma total_remove_marked_nodes : total remove_marked_nodes.
Proof.
  unfold remove_marked_nodes.
  apply total_bind; [apply total_get_graph | intros g].
  apply total_bind; [intros s; discriminate | intros victims].
  apply total_for_each, total_remove_node.
Qed.

Lemma total_topological_sort : total topological_sort.
Proof.
  unfold topological_sort.
  apply total_bind; [apply total_get_graph | intros g; apply total_put_graph].
Qed.

(** A scan that is given [scan_fuel] steps, and what follows it. *)
Lemma scan_then_total {A} cost body (after : M A) g :
  (forall ref s nd,
     nth_error (node (graph s)) ref = Some nd ->
     grows_at cost (cost nd) (body ref) s) ->
  total after ->
  fst ((for_each_node body (scan_fuel cost g) 0 ;; after) (initial g)) <> OutOfFuel.
Proof.
  intros Hbody Hafter.
  pose proof (scan_total cost body Hbody (scan_fuel cost g) 0 (initial g)) as H.
  unfold bind.
  destruct (for_each_node body (scan_fuel cost g) 0 (initial g)) as [[u | e |] s'];
    simpl in *; [apply Hafter | discriminate |].
  exfalso. apply H; [|reflexivity]. rewrite map_map. apply le_n.
Qed.

End Totality.

(** ** Every pass ends *)

Lemma split_body_grows ref s nd :
  nth_error (node (graph s)) ref = Some nd ->
  grows_at Split.cost (Split.cost nd) (Split.body ref) s.
Proof.
  intros H. unfold Split.body. apply grows_at_node_at with (nd := nd); [exact H|].
  unfold Split.cost, Split.is_not_new_list.
  destruct (op_type nd =? "Split")%string; simpl negb; cbv iota; [|apply grows_ret].
  apply grows_bind0; [apply grows_orelse | intros data].
  apply grows_bind0; [apply grows_get_graph | intros g].
  cbv zeta.
  match goal with |- grows _ _ (match ?x with _ => _ end) => destruct x end;
    [|apply grows_raise].
  match goal with |- grows _ _ (match ?x with _ => _ end) => destruct x end.
  match goal with |- grows _ _ (if ?c then _ else _) => destruct c end;
    [apply grows_ret|].
  match goal with |- grows _ _ (match ?x with _ => _ end) => destruct x end.
  apply grows_bind0; [apply grows_orelse | intros d].
  destruct (nth_error (attribute nd) 1) as [a1|]; [|apply grows_raise].
  unfold orelse at 1. apply grows_ret_bind.
  apply grows_bind with (k1 := length (a_ints a1)) (k2 := 0%nat);
    [| intros _; apply grows_mark_for_removal | lia].
  rewrite <- (length_seq (length (a_ints a1)) 0) at 1.
  apply grows_fold_each. intros pos i. grow.
Qed.

Lemma split_pass_total g : fst (replace_split_with_slices g) <> OutOfFuel.
Proof.
  apply scan_then_total; [exact split_body_grows|].
  apply total_bind; [apply total_remove_marked_nodes | intros _].
  apply total_topological_sort.
Qed.

Lemma flatten_body_grows ref s nd :
  nth_error (node (graph s)) ref = Some nd ->
  grows_at (fun _ => O) O (Flatten.body ref) s.
Proof.
  intros H. unfold Flatten.body. apply grows_at_node_at with (nd := nd); [exact H|].
  repeat first [apply grows_update_node_flat; reflexivity | grow_step].
Qed.

Lemma reshape_pass_total g : fst (replace_Reshape_with_Flatten g) <> OutOfFuel.
Proof.
  apply scan_then_total; [exact flatten_body_grows|].
  apply total_remove_marked_nodes.
Qed.

Lemma to_reshape_body_grows op ref s nd :
  ("Constant" =? op)%string = false -> ("Reshape" =? op)%string = false ->
  nth_error (node (graph s)) ref = Some nd ->
  grows_at (ToReshape.cost op) (ToReshape.cost op nd) (ToReshape.body op ref) s.
Proof.
  intros Hc Hr H. unfold ToReshape.body.
  apply grows_at_node_at with (nd := nd); [exact H|].
  unfold ToReshape.cost at 2.
  destruct (op_type nd =? op)%string; simpl negb; cbv iota; [|apply grows_ret].
  apply grows_bind0; [apply grows_orelse | intros out0].
  apply grows_bind0; [apply grows_get_graph | intros g]. cbv zeta.
  match goal with |- grows _ _ (match ?x with _ => _ end) => destruct x end;
    [|apply grows_raise].
  apply grows_bind0; [apply grows_orelse | intros in0].
  apply grows_sub with (k1 := 2%nat);
    [| intros _; apply grows_mark_for_removal | apply le_n].
  apply grows_extend_nodes; [|apply le_n].
  apply Forall_cons; [|apply Forall_cons; [|apply Forall_nil]];
    unfold ToReshape.cost, list_to_constant, make_node; cbn [op_type];
    [now rewrite Hc | now rewrite Hr].
Qed.

Lemma to_reshape_pass_total op g :
  ("Constant" =? op)%string = false -> ("Reshape" =? op)%string = false ->
  fst (ToReshape.pass op g) <> OutOfFuel.
Proof.
  intros Hc Hr. apply scan_then_total.
  - intros ref s nd. now apply to_reshape_body_grows.
  - apply total_bind; [apply total_remove_marked_nodes | intros _].
    apply total_topological_sort.
Qed.

Lemma squeeze_pass_total g : fst (replace_Squeeze_with_Reshape g) <> OutOfFuel.
Proof. now apply to_reshape_pass_total. Qed.

Lemma unsqueeze_pass_total g : fst (replace_Unsqueeze_with_Reshape g) <> OutOfFuel.
Proof. now apply to_reshape_pass_total. Qed.

Lemma shape_body_grows ref s nd :
  nth_error (node (graph s)) ref = Some nd ->
  grows_at ShapeFold.cost (ShapeFold.cost nd) (ShapeFold.body ref) s.
Proof.
  intros H. unfold ShapeFold.body. apply grows_at_node_at with (nd := nd); [exact H|].
  unfold ShapeFold.cost at 2.
  destruct (op_type nd =? "Shape")%string; simpl negb; cbv iota; [|apply grows_ret].
  grow.
Qed.

Lemma shape_pass_total g : fst (replace_shape_with_constant g) <> OutOfFuel.
Proof.
  apply scan_then_total; [exact shape_body_grows|].
  apply total_bind; [intros s; discriminate | intros replaced].
  apply total_bind; [apply total_remove_marked_nodes | intros _].
  apply total_bind; [apply total_topological_sort | intros _; apply total_ret].
Qed.

Lemma grows_set_dim_value vref k size n :
  grows Dilated.cost n (Dilated.set_dim_value vref k size).
Proof. unfold Dilated.set_dim_value. grow. Qed.

Lemma grows_set_attribute_int ref j k v n :
  grows Dilated.cost n (Dilated.set_attribute_int ref j k v).
Proof.
  intros s. unfold Dilated.set_attribute_int.
  destruct (nth_error (node (graph s)) ref) as [nd|] eqn:Hnd.
  - unfold grows_at.
    rewrite (bind_ok _ _ _ _ _ (node_at_ok _ _ _ Hnd)).
    destruct (nth_error (attribute nd) j) as [attr|]; [|exact I].
    unfold orelse at 1. rewrite bind_ret.
    destruct (Py.assign (a_ints attr) k v) as [ints'|]; [|exact I].
    unfold orelse at 1. rewrite bind_ret.
    now apply grows_at_update_node with (n := nd).
  - unfold grows_at, node_at. mred. now rewrite Hnd.
Qed.

Lemma dilated_body_grows ref s nd :
  nth_error (node (graph s)) ref = Some nd ->
  grows_at Dilated.cost (Dilated.cost nd) (Dilated.body ref) s.
Proof.
  intros H. unfold Dilated.body. apply grows_at_node_at with (nd := nd); [exact H|].
  unfold Dilated.cost at 2.
  destruct (op_type nd =? "Conv")%string; simpl negb; cbv iota; [|apply grows_ret].
  unfold Dilated.update_attributes.
  repeat first [apply grows_set_dim_value | apply grows_set_attribute_int | grow_step].
Qed.

Lemma dilated_pass_total g : fst (replace_dilated_conv g) <> OutOfFuel.
Proof.
  apply scan_then_total; [exact dilated_body_grows|].
  apply total_remove_marked_nodes.
Qed.

Lemma grows_pop_info_dim vref n : grows Depthwise.cost n (Depthwise.pop_info_dim vref).
Proof. unfold Depthwise.pop_info_dim. grow. Qed.

Lemma grows_pop_tensor_dim ref n : grows Depthwise.cost n (Depthwise.pop_tensor_dim ref).
Proof.
  intros s. unfold Depthwise.pop_tensor_dim.
  destruct (nth_error (node (graph s)) ref) as [nd|] eqn:Hnd.
  - unfold grows_at.
    rewrite (bind_ok _ _ _ _ _ (node_at_ok _ _ _ Hnd)).
    destruct (nth_error (attribute nd) 0) as [a0|]; [|exact I].
    unfold orelse at 1. rewrite bind_ret.
    destruct (a_value a0) as [ | | | | t]; try exact I.
    destruct (Py.pop (dims t)) as [dims'|]; [|exact I].
    unfold orelse at 1. rewrite bind_ret.
    now apply grows_at_update_node with (n := nd).
  - unfold grows_at, node_at. mred. now rewrite Hnd.
Qed.

Lemma depthwise_body_grows ref s nd :
  nth_error (node (graph s)) ref = Some nd ->
  grows_at Depthwise.cost (Depthwise.cost nd) (Depthwise.body ref) s.
Proof.
  intros H. unfold Depthwise.body. apply grows_at_node_at with (nd := nd); [exact H|].
  unfold Depthwise.cost at 2.
  destruct (op_type nd =? "Conv")%string; simpl negb; cbv iota; [|apply grows_ret].
  repeat first [apply grows_pop_info_dim | apply grows_pop_tensor_dim | grow_step].
Qed.

Lemma depthwise_pass_total g : fst (replace_depthwise_1x1_with_bn g) <> OutOfFuel.
Proof.
  apply scan_then_total; [exact depthwise_body_grows|].
  apply total_bind; [apply total_remove_marked_nodes | intros _].
  apply total_topological_sort.
Qed.

Lemma average_pool_body_grows ref s nd :
  nth_error (node (graph s)) ref = Some nd ->
  grows_at AveragePool.cost (AveragePool.cost nd) (AveragePool.body ref) s.
Proof.
  intros H. unfold AveragePool.body.
  apply grows_at_node_at with (nd := nd); [exact H|].
  unfold AveragePool.cost at 2.
  destruct (op_type nd =? "AveragePool")%string; simpl negb; cbv iota;
    [|apply grows_ret].
  grow.
Qed.

Lemma average_pool_pass_total g : fst (replace_average_pool_with_GAP g) <> OutOfFuel.
Proof.
  apply scan_then_total; [exact average_pool_body_grows|].
  apply total_bind; [apply total_remove_marked_nodes | intros _].
  apply total_topological_sort.
Qed.

Lemma initializer_pass_total g : fst (replace_initializer_with_Constant g) <> OutOfFuel.
Proof.
  assert (Hrm : forall v, total (Initializer.remove_input v)).
  { intros v. unfold Initializer.remove_input.
    apply total_bind; [apply total_get_graph | intros g0].
    apply total_bind; [apply total_orelse | intros l; apply total_put_graph]. }
  unfold replace_initializer_with_Constant.
  apply total_bind; [| intros _; unfold Initializer.clear_initializers;
    apply total_bind; [apply total_get_graph | intros g0; apply total_put_graph]].
  apply total_for_each. intros tensor. unfold Initializer.body.
  destruct (Initializer.unused (node g) (t_name tensor)).
  - apply total_bind; [apply total_orelse | intros info; apply Hrm].
  - cbv zeta. apply total_bind; [|intros _].
    + unfold extend_nodes.
      apply total_bind; [apply total_get_graph | intros g0; apply total_put_graph].
    + apply total_bind; [apply total_orelse | intros info].
      apply total_bind; [|intros _; apply Hrm].
      apply total_bind; [apply total_get_graph | intros g0; apply total_put_graph].
Qed.

(** ** What the passes leave alone *)

Section Keeps.

Variable R : State -> State -> Prop.
Hypothesis R_refl : forall s, R s s.
Hypothesis R_trans : forall s1 s2 s3, R s1 s2 -> R s2 s3 -> R s1 s3.

Lemma keeps_ret {A} (a : A) : keeps R (ret a).
Proof. intros s. apply R_refl. Qed.

Lemma keeps_raise {A} e : keeps R (@raise A e).
Proof. intros s. apply R_refl. Qed.

Lemma keeps_orelse {A} (o : option A) e : keeps R (orelse o e).
Proof. destruct o; [apply keeps_ret | apply keeps_raise]. Qed.

Lemma keeps_lift {A} (m : E A) : keeps R (lift m).
Proof. destruct m; [apply keeps_raise | apply keeps_ret]. Qed.

Lemma keeps_read {A} (f : State -> A) : keeps R (fun s => (Ok (f s), s)).
Proof. intros s. apply R_refl. Qed.

Lemma keeps_bind {A B} (m : M A) (f : A -> M B) :
  keeps R m -> (forall a, keeps R (f a)) -> keeps R (bind m f).
Proof.
  intros Hm Hf s. specialize (Hm s). unfold bind.
  destruct (m s) as [[a | e |] s1]; simpl in *; try exact Hm.
  eapply R_trans; [exact Hm | apply Hf].
Qed.

Lemma keeps_for_each {A} (l : list A) (f : A -> M unit) :
  (forall x, keeps R (f x)) -> keeps R (for_each l f).
Proof.
  intros Hf. induction l as [|x l IH]; simpl.
  - apply keeps_ret.
  - apply keeps_bind; [apply Hf | intros _; exact IH].
Qed.

Lemma keeps_fold_each {A St} (l : list A) (f : St -> A -> M St) :
  (forall acc x, keeps R (f acc x)) -> forall acc, keeps R (fold_each l acc f).
Proof.
  intros Hf. induction l as [|x l IH]; intros acc; simpl.
  - apply keeps_ret.
  - apply keeps_bind; [apply Hf | intros a; apply IH].
Qed.

Lemma keeps_for_each_node body :
  (forall ref, keeps R (body ref)) ->
  forall fuel i, keeps R (for_each_node body fuel i).
Proof.
  intros Hb. induction fuel as [|fuel IH]; intros i s; simpl;
    destruct (nth_error (node (graph s)) i); try apply R_refl.
  specialize (Hb i s).
  destruct (body i s) as [[u | e |] s1]; simpl in *; try exact Hb.
  eapply R_trans; [exact Hb | apply IH].
Qed.

End Keeps.

Lemma Subseq_trans {A} (a b c : list A) : Subseq a b -> Subseq b c -> Subseq a c.
Proof.
  intros Hab Hbc. revert a Hab.
  induction Hbc as [l | x vs l H IH | x vs l H IH]; intros a Hab.
  - inversion Hab; subst. constructor.
  - apply Subseq_skip. now apply IH.
  - inversion Hab; subst.
    + constructor.
    + apply Subseq_skip. now apply IH.
    + apply Subseq_take. now apply IH.
Qed.

Lemma remove_is_Subseq {A} (eqb : A -> A -> bool) x l l' :
  Py.remove eqb x l = Some l' -> Subseq l' l.
Proof.
  revert l'. induction l as [|h t IH]; intros l' H; simpl in H; [discriminate|].
  destruct (eqb h x).
  - inversion H; subst. apply Subseq_skip, Subseq_refl.
  - destruct (Py.remove eqb x t) as [t'|]; [|discriminate].
    inversion H; subst. apply Subseq_take. now apply IH.
Qed.

Lemma same_interface_refl s : same_interface s s.
Proof. repeat split. Qed.

Lemma same_interface_trans s1 s2 s3 :
  same_interface s1 s2 -> same_interface s2 s3 -> same_interface s1 s3.
Proof.
  unfold same_interface. intros (a1 & b1 & c1) (a2 & b2 & c2).
  repeat split; congruence.
Qed.

Lemma nodes_only_refl s : nodes_only s s.
Proof. repeat split. Qed.

Lemma nodes_only_trans s1 s2 s3 :
  nodes_only s1 s2 -> nodes_only s2 s3 -> nodes_only s1 s3.
Proof.
  unfold nodes_only. intros (i1 & v1 & o1) (i2 & v2 & o2).
  repeat split; try congruence; eapply same_interface_trans; eassumption.
Qed.

Lemma values_dropped_refl s : values_dropped s s.
Proof. repeat split. apply Subseq_refl. Qed.

Lemma values_dropped_trans s1 s2 s3 :
  values_dropped s1 s2 -> values_dropped s2 s3 -> values_dropped s1 s3.
Proof.
  unfold values_dropped. intros (i1 & v1 & o1) (i2 & v2 & o2).
  split; [eapply same_interface_trans; eassumption|].
  split; [eapply Subseq_trans; eassumption | congruence].
Qed.

Lemma values_reshaped_refl s : values_reshaped s s.
Proof. repeat split. Qed.

Lemma values_reshaped_trans s1 s2 s3 :
  values_reshaped s1 s2 -> values_reshaped s2 s3 -> values_reshaped s1 s3.
Proof.
  unfold values_reshaped. intros (i1 & v1 & o1) (i2 & v2 & o2).
  split; [eapply same_interface_trans; eassumption|].
  split; congruence.
Qed.

(** The head constant of a computation. *)
Ltac head_of t :=
  lazymatch t with
  | ?f _ => head_of f
  | _ => t
  end.

(** One step through a computation, for a relation that is reflexive
    ([rfl]) and transitive ([trs]); [prim] settles the operations that
    write the state. *)
Ltac keep_step rfl trs prim :=
  lazymatch goal with
  | |- keeps _ (ret _) => apply (keeps_ret _ rfl)
  | |- keeps _ (raise _) => apply (keeps_raise _ rfl)
  | |- keeps _ (orelse _ _) => apply (keeps_orelse _ rfl)
  | |- keeps _ (lift _) => apply (keeps_lift _ rfl)
  | |- keeps _ get_graph => apply (keeps_read _ rfl graph)
  | |- keeps _ (fun s => (Ok _, s)) => apply (keeps_read _ rfl)
  | |- keeps _ (for_each _ _) => apply (keeps_for_each _ rfl trs); intro
  | |- keeps _ (fold_each _ _ _) => apply (keeps_fold_each _ rfl trs); intros
  | |- keeps _ (for_each_node _ _ _) => apply (keeps_for_each_node _ rfl trs); intro
  | |- keeps _ (bind _ _) => apply (keeps_bind _ trs); [|intro]
  | |- keeps _ (if ?c then _ else _) => destruct c
  | |- keeps _ (match ?x with _ => _ end) => destruct x
  | |- keeps _ (let _ := _ in _) => cbv zeta
  | |- keeps _ (update_node _ _) => prim
  | |- keeps _ (extend_nodes _) => prim
  | |- keeps _ (update_value_info _ _) => prim
  | |- keeps _ (remove_value_info _) => prim
  | |- keeps _ (remove_node _) => prim
  | |- keeps _ (mark_for_removal _) => prim
  | |- keeps _ (print _) => prim
  | |- keeps _ topological_sort => prim
  | |- keeps _ ?m => let h := head_of m in unfold h
  end.

(** The operations that write the state, by cases on what they find. *)
Ltac write_cases :=
  intros s;
  cbv beta delta [remove_node topological_sort];
  mred;
  repeat (match goal with
          | |- context [match ?x with _ => _ end] =>
              lazymatch x with
              | context [match _ with _ => _ end] => fail
              | _ => destruct x eqn:?
              end
          end; mred);
  cbn [snd].

Ltac keep_nodes_only :=
  repeat keep_step nodes_only_refl nodes_only_trans
    ltac:(write_cases; repeat split; reflexivity).

Ltac keep_values_dropped :=
  repeat keep_step values_dropped_refl values_dropped_trans
    ltac:(write_cases; repeat split;
          try reflexivity; try apply Subseq_refl;
          eauto using remove_is_Subseq).

Lemma map_set_nth_same {A B} (f : A -> B) l i v v' :
  nth_error l i = Some v -> f v' = f v -> map f (Py.set_nth l i v') = map f l.
Proof.
  revert i. induction l as [|h t IH]; intros [|i] H Hf; simpl in *;
    try discriminate.
  - inversion H; subst. now rewrite Hf.
  - now rewrite (IH i H Hf).
Qed.

Lemma keeps_set_dim_value vref k size :
  keeps values_reshaped (Dilated.set_dim_value vref k size).
Proof.
  intros s. unfold Dilated.set_dim_value.
  destruct vref as [vref|]; [|apply values_reshaped_refl]. mred.
  destruct (nth_error (value_info (graph s)) vref) as [v|] eqn:Hv; mred;
    [|apply values_reshaped_refl].
  destruct (Py.assign (vi_dim v) k (DimValue size)) as [dim'|]; mred;
    [|apply values_reshaped_refl].
  cbn [snd]. split; [repeat split|].
  cbn [graph value_info].
  split; apply (map_set_nth_same _ _ _ _ _ Hv); reflexivity.
Qed.

Lemma keeps_pop_info_dim vref : keeps values_reshaped (Depthwise.pop_info_dim vref).
Proof.
  intros s. unfold Depthwise.pop_info_dim. mred.
  destruct (nth_error (value_info (graph s)) vref) as [v|] eqn:Hv; mred;
    [|apply values_reshaped_refl].
  destruct (Py.pop (vi_dim v)) as [dim'|]; mred; [|apply values_reshaped_refl].
  cbn [snd]. split; [repeat split|].
  cbn [graph value_info].
  split; apply (map_set_nth_same _ _ _ _ _ Hv); reflexivity.
Qed.

Ltac keep_values_reshaped :=
  repeat first
    [ apply keeps_set_dim_value
    | apply keeps_pop_info_dim
    | keep_step values_reshaped_refl values_reshaped_trans
        ltac:(write_cases; repeat split; reflexivity) ].

Lemma to_reshape_pass_nodes_only op g :
  nodes_only (initial g) (snd (ToReshape.pass op g)).
Proof.
  unfold ToReshape.pass. refine ((_ : keeps nodes_only _) (initial g)).
  keep_nodes_only.
Qed.

Lemma average_pool_pass_nodes_only g :
  nodes_only (initial g) (snd (replace_average_pool_with_GAP g)).
Proof.
  unfold replace_average_pool_with_GAP.
  refine ((_ : keeps nodes_only _) (initial g)). keep_nodes_only.
Qed.

Lemma split_pass_nodes_only g :
  nodes_only (initial g) (snd (replace_split_with_slices g)).
Proof.
  unfold replace_split_with_slices.
  refine ((_ : keeps nodes_only _) (initial g)). keep_nodes_only.
Qed.

Lemma flatten_pass_values_dropped g :
  values_dropped (initial g) (snd (replace_Reshape_with_Flatten g)).
Proof.
  unfold replace_Reshape_with_Flatten.
  refine ((_ : keeps values_dropped _) (initial g)). keep_values_dropped.
Qed.

Lemma shape_pass_values_dropped g :
  values_dropped (initial g) (snd (replace_shape_with_constant g)).
Proof.
  unfold replace_shape_with_constant.
  refine ((_ : keeps values_dropped _) (initial g)). keep_values_dropped.
Qed.

Lemma dilated_pass_values_reshaped g :
  values_reshaped (initial g) (snd (replace_dilated_conv g)).
Proof.
  unfold replace_dilated_conv.
  refine ((_ : keeps values_reshaped _) (initial g)). keep_values_reshaped.
Qed.

Lemma depthwise_pass_values_reshaped g :
  values_reshaped (initial g) (snd (replace_depthwise_1x1_with_bn g)).
Proof.
  unfold replace_depthwise_1x1_with_bn.
  refine ((_ : keeps values_reshaped _) (initial g)). keep_values_reshaped.
Qed.

(** X1.  The passes for Squeeze, Unsqueeze, AveragePool and Split write the
    node list only: whether they complete or raise, the graph inputs, the
    graph outputs, the initializers and the intermediate values are those of
    the graph they were given (the nodes they append get no ValueInfo), and
    nothing is printed. *)
Theorem node_list_passes_write_nodes_only g :
  nodes_only (initial g) (snd (replace_Squeeze_with_Reshape g))
  /\ nodes_only (initial g) (snd (replace_Unsqueeze_with_Reshape g))
  /\ nodes_only (initial g) (snd (replace_average_pool_with_GAP g))
  /\ nodes_only (initial g) (snd (replace_split_with_slices g)).
Proof.
  split; [apply to_reshape_pass_nodes_only|].
  split; [apply to_reshape_pass_nodes_only|].
  split; [apply average_pool_pass_nodes_only | apply split_pass_nodes_only].
Qed.

(** X2.  The passes for Reshape and Shape never add an intermediate value
    and never touch the interface of the graph: whether they complete or
    raise, the graph inputs, the graph outputs and the initializers are
    unchanged, the ValueInfo list is the original one with some entries
    left out (the Constant that replaces a Shape gets no entry), and nothing
    is printed. *)
Theorem reshape_and_shape_passes_only_drop_values g :
  values_dropped (initial g) (snd (replace_Reshape_with_Flatten g))
  /\ values_dropped (initial g) (snd (replace_shape_with_constant g)).
Proof.
  split; [apply flatten_pass_values_dropped | apply shape_pass_values_dropped].
Qed.

(** X3.  The two Conv passes never touch the interface of the graph and
    never add, drop, rename or retype an intermediate value: whether they
    complete or raise, the ValueInfo list keeps its names and element types,
    position by position; only dimensions are edited. *)
Theorem conv_passes_only_reshape_values g :
  values_reshaped (initial g) (snd (replace_dilated_conv g))
  /\ values_reshaped (initial g) (snd (replace_depthwise_1x1_with_bn g)).
Proof.
  split; [apply dilated_pass_values_reshaped | apply depthwise_pass_values_reshaped].
Qed.

(** ** Graphs a pass has nothing to do on *)

(** A scan whose body leaves the state alone at every node it still has to
    visit leaves the state alone. *)
Lemma scan_skips body fuel :
  forall i s,
    (forall ref nd, (i <= ref)%nat -> nth_error (node (graph s)) ref = Some nd ->
                    body ref s = (Ok tt, s)) ->
    (length (node (graph s)) - i <= fuel)%nat ->
    for_each_node body fuel i s = (Ok tt, s).
Proof.
  induction fuel as [|fuel IH]; intros i s Hb Hf; simpl;
    destruct (nth_error (node (graph s)) i) as [nd|] eqn:Hnd; try reflexivity.
  - assert (i < length (node (graph s)))%nat
      by (apply nth_error_Some; congruence).
    lia.
  - rewrite (Hb i nd (le_n _) Hnd). apply IH.
    + intros ref nd' Hle. apply Hb. lia.
    + lia.
Qed.

Lemma scan_fuel_covers cost g : (length (node g) <= scan_fuel cost g)%nat.
Proof.
  unfold scan_fuel. induction (node g) as [|n l IH]; simpl; lia.
Qed.

Lemma scan_leaves cost body g :
  (forall ref nd, nth_error (node g) ref = Some nd ->
                  body ref (initial g) = (Ok tt, initial g)) ->
  for_each_node body (scan_fuel cost g) 0 (initial g) = (Ok tt, initial g).
Proof.
  intros Hb. apply scan_skips.
  - intros ref nd _. apply Hb.
  - pose proof (scan_fuel_covers cost g). simpl. lia.
Qed.

(** X4.  A graph in which no Reshape node has its first output read, as a
    first input, by a Gemm node: [replace_Reshape_with_Flatten] completes
    and leaves the graph exactly as it was. *)
Theorem reshape_pass_without_gemm_is_identity :
  forall g : Graph,
    (forall nd, In nd (node g) -> op_type nd = "Reshape" ->
       exists y, nth_error (output nd) 0 = Some y
                 /\ Flatten.gemm_reads (node g) y = false) ->
    replace_Reshape_with_Flatten g = (Ok tt, initial g).
Proof.
  intros g H. unfold replace_Reshape_with_Flatten.
  assert (Hscan : for_each_node Flatten.body (scan_fuel (fun _ => O) g) 0 (initial g)
                  = (Ok tt, initial g));
    [|rewrite (bind_ok _ _ _ _ _ Hscan); reflexivity].
  apply scan_leaves. intros ref nd Hnd. unfold Flatten.body.
  rewrite (bind_ok _ _ _ _ _ (node_at_ok ref (initial g) nd Hnd)).
  destruct (op_type nd =? "Reshape")%string eqn:Hop; [|reflexivity].
  apply String.eqb_eq in Hop.
  destruct (H nd (nth_error_In _ _ Hnd) Hop) as (y & Hy & Hg).
  simpl negb. cbv iota. mred. change (graph (initial g)) with g.
  rewrite Hy, FlattenFacts.followed_by_gemm_spec, Hg.
  reflexivity.
Qed.

Lemma reshape_pass_without_gemm_is_identity_witness :
  replace_Reshape_with_Flatten FlattenExamples.g_no_gemm
  = (Ok tt, initial FlattenExamples.g_no_gemm).
Proof.
  apply reshape_pass_without_gemm_is_identity.
  intros nd Hin Hop. exists "y".
  simpl in Hin.
  repeat (destruct Hin as [<- | Hin]; [first [discriminate Hop | split; reflexivity]|]).
  destruct Hin.
Defined.

(** X5.  A graph in which no Conv node has a [dilations] attribute other
    than [1, 1]: [replace_dilated_conv] completes, prints nothing and leaves
    the graph exactly as it was, whatever the strides of the Conv nodes. *)
Theorem dilated_pass_without_dilations_is_identity :
  forall g : Graph,
    (forall nd, In nd (node g) -> op_type nd = "Conv" ->
       existsb (Dilated.non_unit "dilations") (attribute nd) = false) ->
    replace_dilated_conv g = (Ok tt, initial g).
Proof.
  intros g H. unfold replace_dilated_conv.
  assert (Hscan : for_each_node Dilated.body (scan_fuel Dilated.cost g) 0 (initial g)
                  = (Ok tt, initial g));
    [|rewrite (bind_ok _ _ _ _ _ Hscan); reflexivity].
  apply scan_leaves. intros ref nd Hnd. unfold Dilated.body.
  rewrite (bind_ok _ _ _ _ _ (node_at_ok ref (initial g) nd Hnd)).
  destruct (op_type nd =? "Conv")%string eqn:Hop; [|reflexivity].
  apply String.eqb_eq in Hop.
  rewrite DilatedFacts.read_attributes_spec, (H nd (nth_error_In _ _ Hnd) Hop).
  reflexivity.
Qed.

Lemma dilated_pass_without_dilations_is_identity_witness :
  replace_dilated_conv IdleExamples.g_plain_conv
  = (Ok tt, initial IdleExamples.g_plain_conv).
Proof.
  apply dilated_pass_without_dilations_is_identity.
  intros nd Hin Hop. simpl in Hin.
  repeat (destruct Hin as [<- | Hin]; [first [discriminate Hop | reflexivity]|]).
  destruct Hin.
Defined.

(** X6.  A graph in which every Conv node has no [group] attribute, or has 1
    as the value of its last [group] attribute:
    [replace_depthwise_1x1_with_bn] completes and does nothing but run the
    stabilizer on the node list. *)
Theorem depthwise_pass_without_groups_only_sorts :
  forall g : Graph,
    (forall nd, In nd (node g) -> op_type nd = "Conv" ->
       match Depthwise.attr_map (attribute nd) "group" with
       | Some group => a_i group = 1
       | None => True
       end) ->
    replace_depthwise_1x1_with_bn g = (Ok tt, sorted_only g).
Proof.
  intros g H. unfold replace_depthwise_1x1_with_bn.
  assert (Hscan : for_each_node Depthwise.body (scan_fuel Depthwise.cost g) 0
                    (initial g)
                  = (Ok tt, initial g));
    [|rewrite (bind_ok _ _ _ _ _ Hscan); reflexivity].
  apply scan_leaves. intros ref nd Hnd. unfold Depthwise.body.
  rewrite (bind_ok _ _ _ _ _ (node_at_ok ref (initial g) nd Hnd)).
  destruct (op_type nd =? "Conv")%string eqn:Hop; [|reflexivity].
  apply String.eqb_eq in Hop. specialize (H nd (nth_error_In _ _ Hnd) Hop).
  simpl negb. cbv iota zeta.
  destruct (Depthwise.attr_map (attribute nd) "group") as [group|]; [|reflexivity].
  rewrite H. reflexivity.
Qed.

Lemma depthwise_pass_without_groups_only_sorts_witness :
  replace_depthwise_1x1_with_bn IdleExamples.g_plain_conv
  = (Ok tt, sorted_only IdleExamples.g_plain_conv).
Proof.
  apply depthwise_pass_without_groups_only_sorts.
  intros nd Hin Hop. simpl in Hin.
  repeat (destruct Hin as [<- | Hin]; [first [discriminate Hop | reflexivity]|]).
  destruct Hin.
Defined.

(** X7.  A graph in which the operand of every Shape node has no ValueInfo
    among the intermediate values and the graph inputs, or has one without
    dimensions: [replace_shape_with_constant] returns False and does nothing
    but run the stabilizer on the node list. *)
Theorem shape_pass_without_known_shapes_returns_false :
  forall g : Graph,
    (forall nd, In nd (node g) -> op_type nd = "Shape" ->
       exists x, nth_error (input nd) 0 = Some x
                 /\ (ShapeFold.resolve g x = None
                     \/ exists v, ShapeFold.resolve g x = Some v /\ vi_dim v = [])) ->
    replace_shape_with_constant g = (Ok false, sorted_only g).
Proof.
  intros g H. unfold replace_shape_with_constant.
  assert (Hscan : for_each_node ShapeFold.body (scan_fuel ShapeFold.cost g) 0
                    (initial g)
                  = (Ok tt, initial g));
    [|rewrite (bind_ok _ _ _ _ _ Hscan); reflexivity].
  apply scan_leaves. intros ref nd Hnd.
  destruct (op_type nd =? "Shape")%string eqn:Hop.
  - apply String.eqb_eq in Hop.
    destruct (H nd (nth_error_In _ _ Hnd) Hop) as (x & Hx & Hres).
    exact (ShapeFacts.body_skips (initial g) ref nd x Hnd Hop Hx Hres).
  - unfold ShapeFold.body.
    rewrite (bind_ok _ _ _ _ _ (node_at_ok ref (initial g) nd Hnd)).
    now rewrite Hop.
Qed.

Lemma shape_pass_without_known_shapes_returns_false_witness :
  replace_shape_with_constant IdleExamples.g_unknown_shapes
  = (Ok false, sorted_only IdleExamples.g_unknown_shapes).
Proof.
  apply shape_pass_without_known_shapes_returns_false.
  intros nd Hin Hop. simpl in Hin.
  destruct Hin as [<- | [<- | []]].
  - exists "x". split; [reflexivity | left; reflexivity].
  - exists "k". split; [reflexivity|]. right.
    exists (mkValueInfo "k" FLOAT []). split; reflexivity.
Defined.

(** X8.  A graph without Squeeze, Unsqueeze, AveragePool and Split nodes:
    each of the four passes for these operators completes and does nothing
    but run the stabilizer on the node list. *)
Theorem passes_without_target_only_sort :
  forall g : Graph,
    (forall nd, In nd (node g) ->
       ~ In (op_type nd) ["Squeeze"; "Unsqueeze"; "AveragePool"; "Split"]) ->
    replace_Squeeze_with_Reshape g = (Ok tt, sorted_only g)
    /\ replace_Unsqueeze_with_Reshape g = (Ok tt, sorted_only g)
    /\ replace_average_pool_with_GAP g = (Ok tt, sorted_only g)
    /\ replace_split_with_slices g = (Ok tt, sorted_only g).
Proof.
  intros g H.
  assert (Hop : forall ref nd op,
             In op ["Squeeze"; "Unsqueeze"; "AveragePool"; "Split"] ->
             nth_error (node g) ref = Some nd ->
             (op_type nd =? op)%string = false).
  { intros ref nd op Hin Hnd. apply String.eqb_neq. intros Heq.
    apply (H nd (nth_error_In _ _ Hnd)). now rewrite Heq. }
  assert (Hrun : forall cost body,
             (forall ref nd, nth_error (node g) ref = Some nd ->
                             body ref (initial g) = (Ok tt, initial g)) ->
             (for_each_node body (scan_fuel cost g) 0 ;;
              remove_marked_nodes ;; topological_sort) (initial g)
             = (Ok tt, sorted_only g)).
  { intros cost body Hb.
    rewrite (bind_ok _ _ _ _ _ (scan_leaves cost body g Hb)). reflexivity. }
  repeat split.
  - apply Hrun. intros ref nd Hnd.
    apply (ToReshapeFacts.body_other "Squeeze" (initial g) ref nd Hnd).
    apply String.eqb_neq. apply (Hop ref); simpl; auto.
  - apply Hrun. intros ref nd Hnd.
    apply (ToReshapeFacts.body_other "Unsqueeze" (initial g) ref nd Hnd).
    apply String.eqb_neq. apply (Hop ref); simpl; auto.
  - apply Hrun. intros ref nd Hnd. unfold AveragePool.body.
    rewrite (bind_ok _ _ _ _ _ (node_at_ok ref (initial g) nd Hnd)).
    rewrite (Hop ref nd "AveragePool"); simpl; auto 6.
  - apply Hrun. intros ref nd Hnd. unfold Split.body.
    rewrite (bind_ok _ _ _ _ _ (node_at_ok ref (initial g) nd Hnd)).
    rewrite (Hop ref nd "Split"); simpl; auto 6.
Qed.

Lemma passes_without_target_only_sort_witness :
  replace_split_with_slices IdleExamples.g_plain_conv
  = (Ok tt, sorted_only IdleExamples.g_plain_conv).
Proof.
  apply (passes_without_target_only_sort IdleExamples.g_plain_conv).
  intros nd Hin Hop. simpl in Hin, Hop.
  destruct Hin as [<- | [<- | []]];
    repeat (destruct Hop as [Hop | Hop]; [discriminate Hop|]); destruct Hop.
Defined.

(** ** Initializers into Constant nodes *)

Module InitializerFacts.
Import Initializer Promoted.

(** One iteration of the loop over the initializers. *)
Lemma body_outcome nodes inputs t s :
  body nodes inputs t s
  = match input_map inputs (t_name t) with
    | None =>
        (Raise (KeyError (t_name t)),
         mkState (set_nodes (graph s) (node (graph s) ++ map constant_of (used nodes [t])))
           (node_to_remove s) (stdout s))
    | Some v =>
        match Py.remove ValueInfo_eqb v (g_input (graph s)) with
        | Some inputs' => (Ok tt, step nodes s t v inputs')
        | None => (Raise ValueError, step nodes s t v (g_input (graph s)))
        end
    end.
Proof.
  unfold body, step, used, remove_input. cbn [filter].
  destruct (unused nodes (t_name t)); cbn [negb map]; mred;
    destruct (input_map inputs (t_name t)) as [v|]; mred;
    try (destruct (Py.remove ValueInfo_eqb v (g_input (graph s))); mred);
    unfold set_inputs, set_nodes; cbn [node g_input g_output initializer value_info];
    rewrite ?app_nil_r; destruct s as [[? ? ? ? ?] ? ?]; reflexivity.
Qed.

Lemma remove_length {A} (eqb : A -> A -> bool) x l l' :
  Py.remove eqb x l = Some l' -> length l = S (length l').
Proof.
  revert l'. induction l as [|h t IH]; intros l' H; simpl in H; [discriminate|].
  destruct (eqb h x).
  - now inversion H.
  - destruct (Py.remove eqb x t) as [t'|]; [|discriminate].
    inversion H; subst. simpl. now rewrite (IH t').
Qed.

Lemma used_cons nodes t ts : used nodes (t :: ts) = used nodes [t] ++ used nodes ts.
Proof. unfold used. simpl. now destruct (unused nodes (t_name t)). Qed.

(** The loop over the initializers, when it completes. *)
Lemma loop_outcome nodes inputs ts :
  forall s s',
    for_each ts (body nodes inputs) s = (Ok tt, s') ->
    node (graph s') = node (graph s) ++ map constant_of (used nodes ts)
    /\ value_info (graph s') = value_info (graph s) ++ infos inputs (used nodes ts)
    /\ initializer (graph s') = initializer (graph s)
    /\ g_output (graph s') = g_output (graph s)
    /\ Subseq (g_input (graph s')) (g_input (graph s))
    /\ (length (g_input (graph s')) + length ts = length (g_input (graph s)))%nat
    /\ node_to_remove s' = node_to_remove s
    /\ stdout s' = stdout s.
Proof.
  induction ts as [|t ts IH]; intros s s' H; simpl in H.
  - inversion H; subst. unfold used, infos. simpl. rewrite !app_nil_r.
    repeat split; [apply Subseq_refl | lia].
  - unfold bind in H. rewrite body_outcome in H.
    destruct (input_map inputs (t_name t)) as [v|] eqn:Hv; [|discriminate].
    destruct (Py.remove ValueInfo_eqb v (g_input (graph s))) as [inputs'|] eqn:Hrm;
      [|discriminate].
    destruct (IH _ _ H) as (Hn & Hvi & Hi & Ho & Hsub & Hlen & Hm & Hp).
    unfold step in Hn, Hvi, Hi, Ho, Hsub, Hlen, Hm, Hp.
    cbn [graph node g_input g_output initializer value_info node_to_remove stdout]
      in Hn, Hvi, Hi, Ho, Hsub, Hlen, Hm, Hp.
    rewrite used_cons, map_app. unfold infos in *. rewrite flat_map_app.
    repeat split; try assumption.
    + now rewrite Hn, app_assoc.
    + rewrite Hvi, <- app_assoc. f_equal. f_equal. unfold used. simpl.
      destruct (unused nodes (t_name t)); simpl; [reflexivity|].
      now rewrite Hv.
    + eapply Subseq_trans; [exact Hsub | eapply remove_is_Subseq; exact Hrm].
    + rewrite (remove_length _ _ _ _ Hrm). simpl. lia.
Qed.

Lemma input_map_name inputs nm v :
  input_map inputs nm = Some v -> vi_name v = nm /\ In v inputs.
Proof.
  unfold input_map. intros H. apply find_some in H. destruct H as (Hin & Hp).
  split; [now apply String.eqb_eq | now apply in_rev].
Qed.

Lemma input_map_declared inputs nm :
  In nm (map vi_name inputs) -> exists v, input_map inputs nm = Some v.
Proof.
  intros H. apply in_map_iff in H. destruct H as (v & Hv & Hin).
  unfold input_map. destruct (find (has_name nm) (rev inputs)) as [v'|] eqn:Hf.
  - now exists v'.
  - apply in_rev in Hin. pose proof (find_none _ _ Hf v Hin) as Hno.
    unfold has_name in Hno. rewrite Hv, String.eqb_refl in Hno. discriminate.
Qed.

Lemma input_map_undeclared inputs nm :
  ~ In nm (map vi_name inputs) -> input_map inputs nm = None.
Proof.
  intros H. destruct (input_map inputs nm) as [v|] eqn:Hv; [|reflexivity].
  apply input_map_name in Hv. destruct Hv as (Hn & Hin).
  exfalso. apply H. rewrite <- Hn. now apply in_map.
Qed.

Lemma filter_other_names l nm :
  ~ In nm (map vi_name l) ->
  filter (fun u => negb (vi_name u =? nm)%string) l = l.
Proof.
  induction l as [|h t IH]; intros H; simpl in *; [reflexivity|].
  destruct (vi_name h =? nm)%string eqn:E.
  - apply String.eqb_eq in E. tauto.
  - simpl. rewrite IH; tauto.
Qed.

(** With distinct names, [remove] takes out the entries of that name. *)
Lemma remove_by_unique_name l v :
  NoDup (map vi_name l) -> In v l ->
  Py.remove ValueInfo_eqb v l
  = Some (filter (fun u => negb (vi_name u =? vi_name v)%string) l).
Proof.
  induction l as [|h t IH]; intros Hnd Hin; [destruct Hin|].
  simpl in Hnd. inversion Hnd as [|? ? Hnotin Hnd']; subst. simpl.
  unfold ValueInfo_eqb at 1. destruct (ValueInfo_eq_dec h v) as [-> | Hne].
  - rewrite String.eqb_refl. simpl. now rewrite filter_other_names.
  - destruct Hin as [-> | Hin]; [congruence|].
    rewrite (IH Hnd' Hin).
    destruct (vi_name h =? vi_name v)%string eqn:E; [|reflexivity].
    apply String.eqb_eq in E. exfalso. apply Hnotin. rewrite E. now apply in_map.
Qed.

Lemma NoDup_map_filter {A B} (f : A -> B) (p : A -> bool) l :
  NoDup (map f l) -> NoDup (map f (filter p l)).
Proof.
  induction l as [|h t IH]; intros H; simpl in *; [constructor|].
  inversion H as [|? ? Hnotin Hnd]; subst.
  destruct (p h); simpl; [|now apply IH].
  constructor; [|now apply IH].
  intros Hin. apply Hnotin. apply in_map_iff in Hin.
  destruct Hin as (x & Hx & Hxin). apply filter_In in Hxin.
  rewrite <- Hx. apply in_map. tauto.
Qed.

Lemma filter_twice {A} (p q : A -> bool) l :
  filter q (filter p l) = filter (fun x => p x && q x) l.
Proof.
  induction l as [|h t IH]; simpl; [reflexivity|].
  destruct (p h); simpl; [destruct (q h); now rewrite IH | exact IH].
Qed.

(** The loop over initializers with distinct names, each of them recorded
    among the graph inputs still present. *)
Lemma loop_completes nodes inputs ts :
  forall s,
    NoDup (map t_name ts) ->
    NoDup (map vi_name (g_input (graph s))) ->
    (forall t, In t ts ->
       exists v, input_map inputs (t_name t) = Some v /\ In v (g_input (graph s))) ->
    exists s',
      for_each ts (body nodes inputs) s = (Ok tt, s')
      /\ g_input (graph s') = remaining_inputs (g_input (graph s)) ts.
Proof.
  induction ts as [|t ts IH]; intros s Hts Hin Hdecl; simpl.
  - exists s. split; [reflexivity|]. unfold remaining_inputs, mem. simpl.
    clear. induction (g_input (graph s)) as [|h l IHl]; simpl; [reflexivity|].
    now rewrite <- IHl.
  - simpl in Hts. inversion Hts as [|? ? Hfresh Hts']; subst.
    destruct (Hdecl t (or_introl eq_refl)) as (v & Hv & Hvin).
    pose proof (input_map_name _ _ _ Hv) as (Hname & _).
    unfold bind. rewrite body_outcome, Hv, (remove_by_unique_name _ _ Hin Hvin).
    destruct (IH (step nodes s t v
                    (filter (fun u => negb (vi_name u =? vi_name v)%string)
                       (g_input (graph s)))) Hts') as (s' & Hrun & Hinputs).
    + cbn [step graph g_input]. now apply NoDup_map_filter.
    + intros t' Ht'. destruct (Hdecl t' (or_intror Ht')) as (v' & Hv' & Hv'in).
      exists v'. split; [assumption|]. cbn [step graph g_input].
      apply filter_In. split; [assumption|].
      pose proof (input_map_name _ _ _ Hv') as (Hname' & _).
      rewrite Hname, Hname'. apply negb_true_iff, String.eqb_neq.
      intros Heq. apply Hfresh. rewrite <- Heq. now apply in_map.
    + exists s'. split; [exact Hrun|]. rewrite Hinputs.
      cbn [step graph g_input]. unfold remaining_inputs. rewrite filter_twice.
      apply filter_ext. intros u. unfold mem. simpl. rewrite Hname.
      now rewrite negb_orb.
Qed.

End InitializerFacts.

(** X9.  Whenever [replace_initializer_with_Constant] completes: the node
    list is the original one followed by one Constant node for each
    initializer that some node reads, in the order of the initializers (an
    initializer that no node reads gets no node); the graph inputs recorded
    for these initializers are appended to the intermediate values; the
    initializers are gone; one graph input has been taken out for each
    initializer, the others staying in their order; the graph outputs are
    unchanged. *)
Theorem initializers_promoted_on_completion :
  forall (g : Graph) (s : State),
    replace_initializer_with_Constant g = (Ok tt, s) ->
    node (graph s)
    = node g ++ map Promoted.constant_of (Promoted.used (node g) (initializer g))
    /\ value_info (graph s)
       = value_info g
         ++ Promoted.infos (g_input g) (Promoted.used (node g) (initializer g))
    /\ initializer (graph s) = []
    /\ g_output (graph s) = g_output g
    /\ Subseq (g_input (graph s)) (g_input g)
    /\ (length (g_input (graph s)) + length (initializer g)
        = length (g_input g))%nat.
Proof.
  intros g s H. unfold replace_initializer_with_Constant, bind in H.
  destruct (for_each (initializer g) (Initializer.body (node g) (g_input g))
              (initial g)) as [[[] | e |] s1] eqn:Hloop; try discriminate.
  destruct (InitializerFacts.loop_outcome _ _ _ _ _ Hloop)
    as (Hn & Hvi & Hi & Ho & Hsub & Hlen & _ & _).
  unfold Initializer.clear_initializers in H. mred. inversion H; subst s.
  cbn [graph node g_input g_output initializer value_info].
  repeat split; assumption.
Qed.

Lemma initializers_promoted_on_completion_witness :
  node (graph (snd (replace_initializer_with_Constant OtherExamples.g_initializers)))
  = [OtherExamples.matmul; Promoted.constant_of OtherExamples.W].
Proof.
  refine (proj1 (initializers_promoted_on_completion OtherExamples.g_initializers
                   (snd (replace_initializer_with_Constant
                           OtherExamples.g_initializers)) _)).
  reflexivity.
Defined.

(** X10.  When the initializers have distinct names, the graph inputs have
    distinct names and every initializer is named after a graph input,
    [replace_initializer_with_Constant] completes, and the graph inputs it
    leaves are exactly those named after no initializer, in their order. *)
Theorem declared_initializers_leave_the_inputs :
  forall g : Graph,
    NoDup (map t_name (initializer g)) ->
    NoDup (map vi_name (g_input g)) ->
    (forall t, In t (initializer g) -> In (t_name t) (map vi_name (g_input g))) ->
    exists s,
      replace_initializer_with_Constant g = (Ok tt, s)
      /\ g_input (graph s) = Promoted.remaining_inputs (g_input g) (initializer g).
Proof.
  intros g Hts Hin Hdecl.
  destruct (InitializerFacts.loop_completes (node g) (g_input g) (initializer g)
              (initial g) Hts Hin) as (s' & Hrun & Hinputs).
  { intros t Ht. destruct (InitializerFacts.input_map_declared _ _ (Hdecl t Ht))
      as (v & Hv).
    exists v. split; [exact Hv|].
    exact (proj2 (InitializerFacts.input_map_name _ _ _ Hv)). }
  unfold replace_initializer_with_Constant.
  rewrite (bind_ok _ _ _ _ _ Hrun). unfold Initializer.clear_initializers. mred.
  eexists. split; [reflexivity|]. exact Hinputs.
Qed.

Lemma declared_initializers_leave_the_inputs_witness :
  exists s,
    replace_initializer_with_Constant OtherExamples.g_initializers = (Ok tt, s)
    /\ g_input (graph s) = [OtherExamples.X_info].
Proof.
  apply (declared_initializers_leave_the_inputs OtherExamples.g_initializers).
  - repeat constructor; simpl; intuition discriminate.
  - repeat constructor; simpl; intuition discriminate.
  - intros t Ht. simpl in Ht. destruct Ht as [<- | [<- | []]]; simpl; auto.
Defined.

Lemma for_each_app {A} (l1 l2 : list A) (f : A -> M unit) s :
  for_each (l1 ++ l2) f s = (for_each l1 f ;; for_each l2 f) s.
Proof.
  revert s. induction l1 as [|x l1 IH]; intros s; simpl; [reflexivity|].
  unfold bind. destruct (f x s) as [[[] | e |] s1]; try reflexivity.
  apply IH.
Qed.

(** X11.  The first initializer that is named after no graph input, the
    initializers before it having distinct names and graph inputs of their
    own: [replace_initializer_with_Constant] raises KeyError with its name.
    The initializers are all still in the graph, the Constant nodes of the
    initializers before it are in the node list, and so is its own Constant
    node when some node reads it, although it has no ValueInfo. *)
Theorem undeclared_initializer_raises_key_error :
  forall (g : Graph) (pre post : list Tensor) (t : Tensor),
    initializer g = pre ++ t :: post ->
    NoDup (map t_name pre) ->
    NoDup (map vi_name (g_input g)) ->
    (forall u, In u pre -> In (t_name u) (map vi_name (g_input g))) ->
    ~ In (t_name t) (map vi_name (g_input g)) ->
    exists s,
      replace_initializer_with_Constant g = (Raise (KeyError (t_name t)), s)
      /\ initializer (graph s) = initializer g
      /\ node (graph s)
         = node g ++ map Promoted.constant_of (Promoted.used (node g) (pre ++ [t]))
      /\ value_info (graph s)
         = value_info g ++ Promoted.infos (g_input g) (Promoted.used (node g) pre).
Proof.
  intros g pre post t Hinit Hpre Hin Hdecl Hundecl.
  destruct (InitializerFacts.loop_completes (node g) (g_input g) pre
              (initial g) Hpre Hin) as (s1 & Hrun & _).
  { intros u Hu. destruct (InitializerFacts.input_map_declared _ _ (Hdecl u Hu))
      as (v & Hv).
    exists v. split; [exact Hv|].
    exact (proj2 (InitializerFacts.input_map_name _ _ _ Hv)). }
  destruct (InitializerFacts.loop_outcome _ _ _ _ _ Hrun)
    as (Hn & Hvi & Hi & _).
  unfold replace_initializer_with_Constant. rewrite Hinit.
  unfold bind at 1. rewrite for_each_app, (bind_ok _ _ _ _ _ Hrun).
  simpl for_each. unfold bind at 1.
  rewrite InitializerFacts.body_outcome,
    (InitializerFacts.input_map_undeclared _ _ Hundecl).
  eexists. split; [reflexivity|].
  cbn [graph set_nodes node g_input g_output initializer value_info].
  rewrite Hi, Hn, Hvi. cbn [initial graph]. rewrite Hinit.
  split; [reflexivity|]. split; [|reflexivity].
  unfold Promoted.used. now rewrite filter_app, map_app, app_assoc.
Qed.

Lemma undeclared_initializer_raises_key_error_witness :
  exists s,
    replace_initializer_with_Constant InitializerExamples.g_undeclared
    = (Raise (KeyError "W"), s)
    /\ initializer (graph s) = [OtherExamples.W]
    /\ node (graph s) = [OtherExamples.matmul; Promoted.constant_of OtherExamples.W]
    /\ value_info (graph s) = [].
Proof.
  apply (undeclared_initializer_raises_key_error InitializerExamples.g_undeclared
           [] [] OtherExamples.W).
  - reflexivity.
  - constructor.
  - repeat constructor; simpl; intuition discriminate.
  - intros u [].
  - simpl. intuition discriminate.
Defined.

(** ** AveragePool nodes *)

Lemma not_replace_spec g nd in0 attrs :
  nth_error (input nd) 0 = Some in0 ->
  AveragePool.not_replace g nd attrs = inr (existsb (Pooling.blocks g in0) attrs).
Proof.
  intros Hin. induction attrs as [|a attrs IH]; [reflexivity|].
  cbn [AveragePool.not_replace existsb]. unfold Pooling.blocks at 1.
  rewrite Hin. unfold need, ebind.
  destruct (a_name a =? "pads")%string eqn:Hp;
    destruct (a_name a =? "kernel_shape")%string eqn:Hk;
    try (apply String.eqb_eq in Hp; apply String.eqb_eq in Hk; congruence);
    cbn [andb orb].
  - destruct (list_eq_dec Z.eq_dec (a_ints a) [0; 0; 0; 0]); cbn [andb orb];
      [exact IH | reflexivity].
  - destruct (find_value_by_name g in0) as [[k info]|]; [|reflexivity].
    destruct (list_eq_dec Z.eq_dec
                (AveragePool.last_two (map dim_value (vi_dim info))) (a_ints a));
      cbn [andb orb]; [exact IH | reflexivity].
  - exact IH.
Qed.

(** X12.  One iteration of [replace_average_pool_with_GAP] on an AveragePool
    node with an input: the node is given a GlobalAveragePool node with the
    same inputs, outputs and name and no attribute, and is marked for
    removal, exactly when none of its attributes is a [pads] other than
    [0, 0, 0, 0] or a [kernel_shape] that differs from the last two
    dimensions recorded for its first input among the intermediate values
    (or whose first input has no record there); otherwise nothing changes.
    Strides and the other attributes play no part. *)
Theorem average_pool_replaced_unless_blocked :
  forall (s : State) (ref : nat) (nd : Node) (in0 : string),
    nth_error (node (graph s)) ref = Some nd ->
    op_type nd = "AveragePool" ->
    nth_error (input nd) 0 = Some in0 ->
    AveragePool.body ref s
    = (Ok tt,
       if existsb (Pooling.blocks (graph s) in0) (attribute nd)
       then s else Pooling.globalized s ref nd).
Proof.
  intros s ref nd in0 Hnd Hop Hin. unfold AveragePool.body.
  rewrite (bind_ok _ _ _ _ _ (node_at_ok _ _ _ Hnd)).
  rewrite Hop, String.eqb_refl. cbn [negb]. rewrite bind_get_graph.
  rewrite (not_replace_spec _ _ _ _ Hin).
  destruct (existsb (Pooling.blocks (graph s) in0) (attribute nd)); reflexivity.
Qed.

Lemma average_pool_replaced_unless_blocked_witness :
  AveragePool.body 0 (initial OtherExamples.g_pool)
  = (Ok tt, Pooling.globalized (initial OtherExamples.g_pool) 0 OtherExamples.pool).
Proof.
  exact (average_pool_replaced_unless_blocked (initial OtherExamples.g_pool) 0
           OtherExamples.pool "x" eq_refl eq_refl eq_refl).
Defined.

(** ** Split nodes with sizes *)

Module SlicingFacts.
Import Slicing.

Lemma sum_from l a : fold_left Z.add l a = a + Py.sum l.
Proof.
  unfold Py.sum. revert a. induction l as [|x l IH]; intros a; simpl; [lia|].
  rewrite (IH (a + x)), (IH x). lia.
Qed.

Lemma sum_firstn_S l k x :
  nth_error l k = Some x ->
  Py.sum (firstn (S k) l) = Py.sum (firstn k l) + x.
Proof.
  revert k. induction l as [|h t IH]; intros [|k] H; simpl in *;
    try discriminate.
  - inversion H; subst. unfold Py.sum. simpl. lia.
  - specialize (IH k H). unfold Py.sum. cbn [firstn fold_left].
    rewrite (sum_from _ (0 + h)), (sum_from (firstn k t) (0 + h)). lia.
Qed.

Lemma appended_nil s : appended s [] = s.
Proof.
  unfold appended, set_nodes. rewrite app_nil_r.
  destruct s as [[? ? ? ? ?] ? ?]. reflexivity.
Qed.

Lemma appended_appended s l1 l2 :
  appended (appended s l1) l2 = appended s (l1 ++ l2).
Proof. unfold appended, set_nodes. simpl. now rewrite app_assoc. Qed.

Lemma cut_ok data axis sizes outs pos i s size out :
  nth_error sizes i = Some size -> nth_error outs i = Some out ->
  cut data axis sizes outs pos i s
  = (Ok (pos + size),
     appended s [Split.slice data out axis (pos + size) pos]).
Proof.
  intros Hs Ho. unfold cut. rewrite Hs, Ho. mred.
  replace (pos + size - size) with pos by lia. reflexivity.
Qed.

Lemma cut_no_output data axis sizes outs pos i s size :
  nth_error sizes i = Some size -> nth_error outs i = None ->
  cut data axis sizes outs pos i s = (Raise IndexError, s).
Proof. intros Hs Ho. unfold cut. rewrite Hs, Ho. reflexivity. Qed.

(** The loop over the sizes, from the position [k] on. *)
Lemma loop data axis sizes outs :
  forall m k s,
    (k + m <= length sizes)%nat -> (k + m <= length outs)%nat ->
    fold_each (seq k m) (Py.sum (firstn k sizes)) (cut data axis sizes outs) s
    = (Ok (Py.sum (firstn (k + m) sizes)),
       appended s
         (map (fun i =>
                 Split.slice data (nth i outs "") axis
                   (Py.sum (firstn (S i) sizes)) (Py.sum (firstn i sizes)))
            (seq k m))).
Proof.
  induction m as [|m IH]; intros k s Hs Ho.
  - simpl. rewrite Nat.add_0_r, appended_nil. reflexivity.
  - cbn [seq fold_each].
    destruct (nth_error sizes k) as [size|] eqn:Hsize;
      [|apply nth_error_None in Hsize; lia].
    destruct (nth_error outs k) as [out|] eqn:Hout;
      [|apply nth_error_None in Hout; lia].
    rewrite (bind_ok _ _ _ _ _ (cut_ok data axis sizes outs _ k s size out Hsize Hout)).
    rewrite <- (sum_firstn_S _ _ _ Hsize).
    rewrite (IH (S k)) by lia. rewrite appended_appended.
    cbn [map app]. rewrite (nth_error_nth _ _ "" Hout), Nat.add_succ_r.
    reflexivity.
Qed.

Lemma fold_each_app {A St} (l1 l2 : list A) (f : St -> A -> M St) acc s :
  fold_each (l1 ++ l2) acc f s
  = (acc' <- fold_each l1 acc f ;; fold_each l2 acc' f) s.
Proof.
  revert acc s. induction l1 as [|x l1 IH]; intros acc s; simpl; [reflexivity|].
  unfold bind. destruct (f acc x s) as [[a | e |] s1]; try reflexivity.
  apply IH.
Qed.

(** The loop over more sizes than there are outputs. *)
Lemma loop_short data axis sizes outs s :
  (length outs < length sizes)%nat ->
  fold_each (seq 0 (length sizes)) 0 (cut data axis sizes outs) s
  = (Raise IndexError, appended s (slices data axis sizes outs (length outs))).
Proof.
  intros Hlt.
  replace (length sizes) with (length outs + S (length sizes - S (length outs)))%nat
    at 1 by lia.
  rewrite seq_app, fold_each_app.
  rewrite (bind_ok _ _ _ _ _ (loop data axis sizes outs (length outs) 0 s
                                 ltac:(lia) ltac:(lia))).
  cbn [seq fold_each Nat.add].
  destruct (nth_error sizes (length outs)) as [size|] eqn:Hsize;
    [|apply nth_error_None in Hsize; lia].
  assert (Hout : nth_error outs (length outs) = None)
    by (apply nth_error_None; lia).
  rewrite (bind_raise _ _ _ _ _ (cut_no_output data axis sizes outs _ _ _ size Hsize Hout)).
  reflexivity.
Qed.

End SlicingFacts.

Lemma split_body_with_sizes s ref nd data v d a1 :
  nth_error (node (graph s)) ref = Some nd ->
  op_type nd = "Split" ->
  nth_error (input nd) 0 = Some data ->
  ShapeFold.resolve (graph s) data = Some v ->
  vi_dim v <> [] ->
  Py.index (vi_dim v) (fst (Split.read_attributes (attribute nd))) = Some d ->
  nth_error (attribute nd) 1 = Some a1 ->
  Split.body ref s
  = (fold_each (seq 0 (length (a_ints a1))) 0
       (Slicing.cut data (fst (Split.read_attributes (attribute nd)))
          (a_ints a1) (output nd)) ;;
     mark_for_removal ref) s.
Proof.
  intros Hnd Hop Hin Hres Hdim Hd Ha1. unfold Split.body.
  rewrite (bind_ok _ _ _ _ _ (node_at_ok _ _ _ Hnd)).
  rewrite Hop, String.eqb_refl. cbn [negb]. rewrite Hin.
  unfold orelse at 1. rewrite bind_ret, bind_get_graph.
  fold (ShapeFold.resolve (graph s) data). rewrite Hres.
  unfold find_size_shape_from_value. cbv zeta. rewrite length_map.
  destruct (vi_dim v) as [|d0 ds] eqn:Hdims; [congruence|].
  cbn [length Nat.eqb].
  destruct (Split.read_attributes (attribute nd)) as [axis split] eqn:Hattrs.
  cbn [fst] in *. rewrite Hd. unfold orelse at 1. rewrite bind_ret.
  unfold Split.is_not_new_list. rewrite Ha1. unfold orelse at 1.
  rewrite bind_ret. reflexivity.
Qed.





(** ** Operands that no node produces *)

(** X15.  One iteration of [replace_dilated_conv] on a Conv node with a
    [dilations] other than [1, 1] and no [strides] other than [1, 1], when
    no node of the graph produces its weight (the weight is a graph input
    or an initializer): AttributeError is raised, and nothing has changed. *)
Theorem dilated_conv_without_weight_node_raises :
  forall (s : State) (ref : nat) (nd : Node) (w : string),
    nth_error (node (graph s)) ref = Some nd ->
    op_type nd = "Conv" ->
    existsb (Dilated.non_unit "dilations") (attribute nd) = true ->
    existsb (Dilated.non_unit "strides") (attribute nd) = false ->
    nth_error (input nd) 1 = Some w ->
    find_node_by_output_name (graph s) w = None ->
    Dilated.body ref s = (Raise AttributeError, s).
Proof.
  intros s ref nd w Hnd Hop Hdil Hstr Hw Hnone. unfold Dilated.body.
  rewrite (bind_ok _ _ _ _ _ (node_at_ok _ _ _ Hnd)).
  rewrite Hop, String.eqb_refl. cbn [negb].
  rewrite DilatedFacts.read_attributes_spec, Hdil, Hstr. cbn [andb negb].
  rewrite Hw. unfold orelse at 1. rewrite bind_ret, bind_get_graph.
  cbv zeta. rewrite Hnone. reflexivity.
Qed.

Lemma dilated_conv_without_weight_node_raises_witness :
  Dilated.body 0 (initial EdgeExamples.g_weight_is_input)
  = (Raise AttributeError, initial EdgeExamples.g_weight_is_input).
Proof.
  exact (dilated_conv_without_weight_node_raises
           (initial EdgeExamples.g_weight_is_input) 0 DilatedExamples.dilated "W"
           eq_refl eq_refl eq_refl eq_refl eq_refl eq_refl).
Defined.

(** X16.  The same iteration when a node produces the weight and the kernel
    can be expanded, but the weight has no ValueInfo among the intermediate
    values: AttributeError is raised after the Constant node with the
    expanded kernel has been appended and the old weight node has been
    marked for removal; the attributes of the Conv node are as they were. *)
Theorem dilated_conv_without_weight_info_raises :
  forall (s : State) (ref : nat) (nd : Node) (w : string) (k : nat)
         (w_node : Node) (a0 : Attribute) (weight : list float)
         (new_shape : list Z) (new_weight : list float),
    nth_error (node (graph s)) ref = Some nd ->
    op_type nd = "Conv" ->
    existsb (Dilated.non_unit "dilations") (attribute nd) = true ->
    existsb (Dilated.non_unit "strides") (attribute nd) = false ->
    nth_error (input nd) 1 = Some w ->
    find_node_by_output_name (graph s) w = Some (k, w_node) ->
    nth_error (attribute w_node) 0 = Some a0 ->
    Dilated.weight_of (a_t a0) = inr weight ->
    Dilated.expand (dims (a_t a0)) (Dilated.last_dilations (attribute nd) []) weight
    = inr (new_shape, new_weight) ->
    find_value_by_name (graph s) w = None ->
    Dilated.body ref s
    = (Raise AttributeError,
       mkState
         (set_nodes (graph s)
            (node (graph s)
             ++ [make_node "Constant" [] (output w_node) (name w_node)
                   [mkAttr "value"
                      (ATensor
                         (make_tensor (t_name (a_t a0)) (data_type (a_t a0))
                            new_shape new_weight))]]))
         (node_to_remove s ++ [k]) (stdout s)).
Proof.
  intros s ref nd w k w_node a0 weight new_shape new_weight
    Hnd Hop Hdil Hstr Hw Hfind Ha0 Hweight Hexpand Hnone.
  unfold Dilated.body.
  rewrite (bind_ok _ _ _ _ _ (node_at_ok _ _ _ Hnd)).
  rewrite Hop, String.eqb_refl. cbn [negb].
  rewrite DilatedFacts.read_attributes_spec, Hdil, Hstr. cbn [andb negb].
  rewrite Hw. unfold orelse at 1. rewrite bind_ret, bind_get_graph.
  cbv zeta. rewrite Hfind, Hnone. cbv beta iota.
  rewrite Ha0. unfold orelse at 1. rewrite bind_ret.
  rewrite Hweight. cbn [lift]. rewrite bind_ret.
  rewrite Hexpand. cbn [lift]. rewrite bind_ret. cbv beta iota zeta.
  rewrite DilatedBody.bind_extend_nodes, DilatedBody.bind_mark_for_removal.
  reflexivity.
Qed.

Lemma dilated_conv_without_weight_info_raises_witness :
  exists s,
    Dilated.body 1 (initial EdgeExamples.g_weight_without_info)
    = (Raise AttributeError, s)
    /\ length (node (graph s)) = 3%nat /\ node_to_remove s = [0%nat].
Proof.
  eexists. split.
  - refine (dilated_conv_without_weight_info_raises
              (initial EdgeExamples.g_weight_without_info) 1
              DilatedExamples.dilated "W" 0 DilatedExamples.W
              (mkAttr "value"
                 (ATensor (mkTensor "W" FLOAT [1; 1; 2; 2]
                             [Finite 1; Finite 2; Finite 3; Finite 4] [] [])))
              [Finite 1; Finite 2; Finite 3; Finite 4]
              [1; 1; 3; 3]
              [Finite 1; Finite 0; Finite 2; Finite 0; Finite 0; Finite 0;
               Finite 3; Finite 0; Finite 4]
              _ _ _ _ _ _ _ _ _ _); reflexivity.
  - split; reflexivity.
Defined.

(** X17.  One iteration of [replace_depthwise_1x1_with_bn] on a Conv node
    whose last [group] attribute is not 1 and which has no [kernel_shape]
    attribute: KeyError is raised for [kernel_shape], and nothing has
    changed. *)
Theorem grouped_conv_without_kernel_shape_raises :
  forall (s : State) (ref : nat) (nd : Node) (group : Attribute),
    nth_error (node (graph s)) ref = Some nd ->
    op_type nd = "Conv" ->
    Depthwise.attr_map (attribute nd) "group" = Some group ->
    a_i group <> 1 ->
    Depthwise.attr_map (attribute nd) "kernel_shape" = None ->
    Depthwise.body ref s = (Raise (KeyError "kernel_shape"), s).
Proof.
  intros s ref nd group Hnd Hop Hgroup Hne Hks. unfold Depthwise.body.
  rewrite (bind_ok _ _ _ _ _ (node_at_ok _ _ _ Hnd)).
  rewrite Hop, String.eqb_refl. cbn [negb]. cbv zeta.
  rewrite Hgroup, (proj2 (Z.eqb_neq _ _) Hne), Hks. reflexivity.
Qed.

Lemma grouped_conv_without_kernel_shape_raises_witness :
  Depthwise.body 1 (initial EdgeExamples.g_grouped)
  = (Raise (KeyError "kernel_shape"), initial EdgeExamples.g_grouped).
Proof.
  refine (grouped_conv_without_kernel_shape_raises
            (initial EdgeExamples.g_grouped) 1 EdgeExamples.grouped
            (mkAttr "group" (AInt 2)) _ _ _ _ _);
    first [reflexivity | discriminate].
Defined.

(** X18.  One iteration of [replace_Reshape_with_Flatten] on a Reshape node
    whose first output is the first input of a Gemm node, when no node of
    the graph produces its shape operand (the shape is a graph input or an
    initializer): AttributeError is raised, and nothing has changed. *)
Theorem reshape_without_shape_node_raises :
  forall (s : State) (ref : nat) (nd : Node) (y sname : string),
    nth_error (node (graph s)) ref = Some nd ->
    op_type nd = "Reshape" ->
    nth_error (output nd) 0 = Some y ->
    Flatten.gemm_reads (node (graph s)) y = true ->
    nth_error (input nd) 1 = Some sname ->
    find_node_by_output_name (graph s) sname = None ->
    Flatten.body ref s = (Raise AttributeError, s).
Proof.
  intros s ref nd y sname Hnd Hop Hy Hgemm Hin Hnone. unfold Flatten.body.
  rewrite (bind_ok _ _ _ _ _ (node_at_ok _ _ _ Hnd)).
  rewrite Hop, String.eqb_refl. cbn [negb]. rewrite bind_get_graph.
  rewrite Hy, FlattenFacts.followed_by_gemm_spec, Hgemm.
  unfold orelse at 1. rewrite bind_ret. cbn [negb].
  rewrite Hin. unfold orelse at 1. rewrite bind_ret.
  rewrite Hnone. reflexivity.
Qed.

Lemma reshape_without_shape_node_raises_witness :
  Flatten.body 0 (initial EdgeExamples.g_shape_is_input)
  = (Raise AttributeError, initial EdgeExamples.g_shape_is_input).
Proof.
  exact (reshape_without_shape_node_raises
           (initial EdgeExamples.g_shape_is_input) 0 FlattenExamples.R "y" "s"
           eq_refl eq_refl eq_refl eq_refl eq_refl eq_refl).
Defined.

(** ** The node list a completed pass leaves *)

Lemma pick_ready_Permutation pending :
  forall after before n rest,
    pick_ready pending before after = Some (n, rest) ->
    Permutation (n :: rest) (rev before ++ after).
Proof.
  induction after as [|a after IH]; intros before n rest H; simpl in H;
    [discriminate|].
  destruct (ready pending a).
  - inversion H; subst. apply Permutation_middle.
  - apply IH in H. simpl in H. now rewrite <- app_assoc in H.
Qed.

Lemma sort_nodes_Permutation fuel :
  forall pending, Permutation (sort_nodes fuel pending) pending.
Proof.
  induction fuel as [|fuel IH]; intros pending; simpl; [reflexivity|].
  destruct (pick_ready pending [] pending) as [[n rest]|] eqn:Hp; [|reflexivity].
  apply pick_ready_Permutation in Hp. simpl in Hp.
  etransitivity; [apply perm_skip, IH | exact Hp].
Qed.

Lemma remove_selected (p : Node -> bool) v l l' :
  Py.remove Node_eqb v l = Some l' -> p v = true ->
  filter (fun n => negb (p n)) l' = filter (fun n => negb (p n)) l
  /\ S (length (filter p l')) = length (filter p l).
Proof.
  revert l'. induction l as [|h t IH]; intros l' H Hp; simpl in H; [discriminate|].
  destruct (Node_eqb h v) eqn:Heq.
  - inversion H; subst. apply Node_eqb_eq in Heq. subst h. simpl.
    rewrite Hp. simpl. split; reflexivity.
  - destruct (Py.remove Node_eqb v t) as [t'|]; [|discriminate].
    inversion H; subst. destruct (IH t' eq_refl Hp) as (Hf & Hc). simpl.
    destruct (p h); simpl; [split; [exact Hf | now rewrite Hc]|].
    split; [now rewrite Hf | exact Hc].
Qed.

Lemma remove_each_selected (p : Node -> bool) vs :
  forall s s',
    Forall (fun v => p v = true) vs ->
    for_each (map Some vs) remove_node s = (Ok tt, s') ->
    filter (fun n => negb (p n)) (node (graph s'))
    = filter (fun n => negb (p n)) (node (graph s))
    /\ (length (filter p (node (graph s'))) + length vs
        = length (filter p (node (graph s))))%nat
    /\ nodes_only s s'.
Proof.
  induction vs as [|v vs IH]; intros s s' Hp H; simpl in H.
  - inversion H; subst. repeat split. simpl. lia.
  - inversion Hp as [|? ? Hv Hvs]; subst.
    assert (Hstep : exists l',
               Py.remove Node_eqb v (node (graph s)) = Some l'
               /\ for_each (map Some vs) remove_node
                    (mkState (set_nodes (graph s) l') (node_to_remove s) (stdout s))
                  = (Ok tt, s')).
    { revert H. unfold bind at 1. unfold remove_node at 1. mred.
      destruct (Py.remove Node_eqb v (node (graph s))) as [l'|]; [|discriminate].
      intros H. exists l'. split; [reflexivity | exact H]. }
    destruct Hstep as (l' & Hrm & Hrest).
    apply (IH _ _ Hvs) in Hrest. destruct Hrest as (Hf & Hc & Hframe).
    cbn [graph node set_nodes] in Hf, Hc.
    destruct (remove_selected p _ _ _ Hrm Hv) as (Hf' & Hc').
    split; [congruence|]. split; [simpl; lia|].
    eapply nodes_only_trans; [|exact Hframe]. repeat split.
Qed.

Lemma filter_none_selected {A} (p : A -> bool) l :
  length (filter p l) = 0%nat -> filter (fun x => negb (p x)) l = l.
Proof.
  induction l as [|h t IH]; simpl; [reflexivity|].
  destruct (p h); simpl; [discriminate|]. intros H. now rewrite IH.
Qed.

Lemma filter_all_unselected {A} (p : A -> bool) l :
  Forall (fun x => p x = false) l ->
  filter p l = [] /\ filter (fun x => negb (p x)) l = l.
Proof.
  induction 1 as [|h t Hh _ [IH1 IH2]]; simpl; [split; reflexivity|].
  rewrite Hh. simpl. split; [exact IH1 | now rewrite IH2].
Qed.

Section Rebuild.

Variable body : nat -> M unit.
Variable p : Node -> bool.
Variable stand : Node -> list Node.

(** What the iterations rely on: a condition on the graph that does not
    depend on its node list. *)
Variable I : Graph -> Prop.

Hypothesis I_frame :
  forall s s', nodes_only s s' -> I (graph s) -> I (graph s').

(** What an iteration that completes has done. *)
Hypothesis body_spec :
  forall s ref nd s1,
    I (graph s) -> nth_error (node (graph s)) ref = Some nd ->
    body ref s = (Ok tt, s1) ->
    s1 = if p nd then stood_in s ref (stand nd) else s.

Hypothesis stand_unselected : forall nd, Forall (fun n => p n = false) (stand nd).

(** What an iteration that completes has found on its node. *)
Variable ok : Node -> Prop.

Hypothesis body_ok :
  forall s ref nd s1,
    I (graph s) -> nth_error (node (graph s)) ref = Some nd ->
    body ref s = (Ok tt, s1) -> ok nd.

Lemma stood_in_nodes_only s ref l : nodes_only s (stood_in s ref l).
Proof. repeat split. Qed.

Lemma flat_map_stand_unselected l :
  Forall (fun n => p n = false) (flat_map stand l).
Proof.
  induction l as [|nd l IH]; simpl; [constructor|].
  apply Forall_app. split; [apply stand_unselected | exact IH].
Qed.

(** The scan from the position after [pre], the nodes [rest] still ahead,
    when it completes. *)
Lemma scan_rebuilds :
  forall fuel pre rest s vs s',
    I (graph s) ->
    node (graph s) = pre ++ rest ->
    map (nth_error (node (graph s))) (node_to_remove s) = map Some vs ->
    for_each_node body fuel (length pre) s = (Ok tt, s') ->
    node (graph s') = pre ++ rest ++ flat_map stand (filter p rest)
    /\ map (nth_error (node (graph s'))) (node_to_remove s')
       = map Some (vs ++ filter p rest)
    /\ nodes_only s s'
    /\ Forall ok (rest ++ flat_map stand (filter p rest)).
Proof.
  induction fuel as [|fuel IH]; intros pre rest s vs s' HI Hnodes Hvs Hrun;
    simpl in Hrun;
    (destruct (nth_error (node (graph s)) (length pre)) as [nd|] eqn:Hnd;
     [| inversion Hrun; subst s';
        assert (rest = []) as ->
          by (destruct rest as [|x rest]; [reflexivity|];
              rewrite Hnodes, nth_error_app2, Nat.sub_diag in Hnd by lia;
              discriminate);
        simpl; rewrite !app_nil_r; rewrite app_nil_r in Hnodes;
        repeat split; first [assumption | constructor] ]);
    [discriminate|].
  destruct rest as [|nd' rest].
  { rewrite Hnodes, app_nil_r in Hnd.
    assert (length pre < length pre)%nat by (apply nth_error_Some; congruence).
    lia. }
  assert (nd' = nd) as ->.
  { rewrite Hnodes, nth_error_app2, Nat.sub_diag in Hnd by lia.
    simpl in Hnd. congruence. }
  destruct (body (length pre) s) as [[[] | e |] s1] eqn:Hb; try discriminate.
  pose proof (body_spec _ _ _ _ HI Hnd Hb) as Hs1.
  pose proof (body_ok _ _ _ _ HI Hnd Hb) as Hok.
  assert (Hlen : length (pre ++ [nd]) = S (length pre))
    by (rewrite length_app; simpl; lia).
  rewrite <- Hlen in Hrun. cbn [filter].
  destruct (p nd) eqn:Hp; subst s1.
  - pose proof (stand_unselected nd) as Hst.
    destruct (filter_all_unselected p _ Hst) as (Hst1 & _).
    destruct (IH (pre ++ [nd]) (rest ++ stand nd)
                (stood_in s (length pre) (stand nd)) (vs ++ [nd]) s'
                (I_frame _ _ (stood_in_nodes_only _ _ _) HI))
      as (Hn' & Hv' & Hframe & Hoks);
      [ | | exact Hrun | ].
    + cbn [stood_in graph set_nodes node]. rewrite Hnodes.
      now rewrite <- !app_assoc.
    + cbn [stood_in graph set_nodes node node_to_remove].
      rewrite !map_app. cbn [map]. f_equal.
      * rewrite <- Hvs. apply map_ext_in. intros r Hr.
        assert (Hlt : (r < length (node (graph s)))%nat).
        { apply nth_error_Some.
          assert (Hin : In (nth_error (node (graph s)) r)
                          (map (nth_error (node (graph s))) (node_to_remove s)))
            by (apply in_map; assumption).
          rewrite Hvs in Hin. apply in_map_iff in Hin.
          destruct Hin as (x & Hx & _). congruence. }
        now rewrite nth_error_app1.
      * rewrite nth_error_app1 by (apply nth_error_Some; congruence).
        now rewrite Hnd.
    + rewrite filter_app, Hst1, app_nil_r in Hn', Hv', Hoks.
      split; [|split; [|split]].
      * rewrite Hn'. cbn [flat_map]. now rewrite <- !app_assoc.
      * rewrite Hv'. now rewrite <- app_assoc.
      * eapply nodes_only_trans; [|exact Hframe]. repeat split.
      * cbn [flat_map app]. constructor; [exact Hok|].
        now rewrite <- app_assoc in Hoks.
  - destruct (IH (pre ++ [nd]) rest s vs s' HI) as (Hn' & Hv' & Hframe & Hoks);
      [now rewrite <- app_assoc | exact Hvs | exact Hrun |].
    split; [|split; [|split; [exact Hframe|]]].
    + rewrite Hn'. now rewrite <- app_assoc.
    + exact Hv'.
    + cbn [app]. constructor; [exact Hok | exact Hoks].
Qed.

(** The scan, the removal of the marked nodes and the stabilizer, when they
    complete. *)
Lemma pass_rebuilds fuel g s :
  I g ->
  (for_each_node body fuel 0 ;; remove_marked_nodes ;; topological_sort) (initial g)
  = (Ok tt, s) ->
  node (graph s)
  = sort_nodes (length (rebuilt p stand (node g))) (rebuilt p stand (node g))
  /\ Forall (fun n => p n = false) (node (graph s))
  /\ nodes_only (initial g) s
  /\ Forall ok (node g)
  /\ Forall ok (node (graph s)).
Proof.
  intros HI H. unfold bind at 1 in H.
  destruct (for_each_node body fuel 0 (initial g)) as [[[] | e |] s1] eqn:Hscan;
    try discriminate.
  destruct (scan_rebuilds fuel [] (node g) (initial g) [] s1 HI eq_refl eq_refl Hscan)
    as (Hn1 & Hv1 & Hframe1 & Hoks).
  cbn [app] in Hn1, Hv1.
  unfold bind at 1 in H.
  destruct (remove_marked_nodes s1) as [[[] | e |] s2] eqn:Hrm; try discriminate.
  unfold remove_marked_nodes in Hrm. rewrite bind_get_graph in Hrm.
  unfold bind at 1 in Hrm.
  change (fun i : nat => nth_error (node (graph s1)) i)
    with (nth_error (node (graph s1))) in Hrm.
  rewrite Hv1 in Hrm.
  destruct (remove_each_selected p (filter p (node g)) s1 s2) as (Hf & Hc & Hframe2);
    [ apply Forall_forall; intros x Hx; apply filter_In in Hx; tauto
    | exact Hrm | ].
  pose proof (flat_map_stand_unselected (filter p (node g))) as Hst.
  destruct (filter_all_unselected p _ Hst) as (Hst1 & Hst2).
  rewrite Hn1, filter_app, Hst1, app_nil_r in Hc.
  assert (Hnone : length (filter p (node (graph s2))) = 0%nat) by lia.
  apply filter_none_selected in Hnone.
  assert (Hs2 : node (graph s2) = rebuilt p stand (node g)).
  { rewrite <- Hnone, Hf, Hn1, filter_app, Hst2. reflexivity. }
  unfold topological_sort in H. revert H. mred. intros H.
  inversion H; subst s. cbn [graph node]. rewrite Hs2.
  split; [reflexivity|].
  split; [|split; [|split]].
  - eapply Permutation_Forall;
      [symmetry; apply sort_nodes_Permutation|].
    unfold rebuilt. apply Forall_app. split; [|exact Hst].
    apply Forall_forall. intros x Hx. apply filter_In in Hx.
    destruct Hx as (_ & Hx). now apply negb_true_iff.
  - eapply nodes_only_trans; [exact Hframe1|].
    eapply nodes_only_trans; [exact Hframe2|]. repeat split.
  - apply Forall_app in Hoks. tauto.
  - eapply Permutation_Forall;
      [symmetry; apply sort_nodes_Permutation|].
    apply Forall_app in Hoks. destruct Hoks as (Ho1 & Ho2).
    unfold rebuilt. apply Forall_app. split; [|exact Ho2].
    rewrite Forall_forall in Ho1 |- *. intros x Hx. apply Ho1.
    apply filter_In in Hx. tauto.
Qed.

(** A second run, when the iteration does nothing on the nodes that the
    first run left. *)
Lemma pass_again cost fuel g s :
  (forall s0 ref nd,
     I (graph s0) -> nth_error (node (graph s0)) ref = Some nd ->
     p nd = false -> ok nd -> body ref s0 = (Ok tt, s0)) ->
  I g ->
  (for_each_node body fuel 0 ;; remove_marked_nodes ;; topological_sort) (initial g)
  = (Ok tt, s) ->
  (for_each_node body (scan_fuel cost (graph s)) 0 ;;
   remove_marked_nodes ;; topological_sort) (initial (graph s))
  = (Ok tt, sorted_only (graph s)).
Proof.
  intros Hagain HI H.
  destruct (pass_rebuilds fuel g s HI H) as (_ & Hnone & Hframe & _ & Hoks).
  assert (HI' : I (graph (initial (graph s))))
    by (exact (I_frame _ _ Hframe HI)).
  rewrite (bind_ok _ _ _ _ _
             (scan_leaves cost body (graph s)
                (fun ref nd Hnd =>
                   Hagain (initial (graph s)) ref nd HI' Hnd
                     (proj1 (Forall_forall _ _) Hnone nd (nth_error_In _ _ Hnd))
                     (proj1 (Forall_forall _ _) Hoks nd (nth_error_In _ _ Hnd))))).
  reflexivity.
Qed.

End Rebuild.

Module ReshapedFacts.
Import ToReshape Reshaped.

(** An iteration on an [op] node that completes has found a first input
    and a shape. *)
Lemma body_completes op s ref nd s1 :
  nth_error (node (graph s)) ref = Some nd ->
  op_type nd = op ->
  body op ref s = (Ok tt, s1) ->
  exists in0 v,
    nth_error (input nd) 0 = Some in0
    /\ resolved (graph s) nd = Some v
    /\ s1 = replaced s ref nd in0 v.
Proof.
  intros Hnd Hop H. unfold body in H.
  rewrite (bind_ok _ _ _ _ _ (node_at_ok _ _ _ Hnd)) in H.
  rewrite Hop, String.eqb_refl in H. cbn [negb] in H.
  unfold resolved.
  destruct (nth_error (output nd) 0) as [y|]; [|discriminate H].
  unfold orelse at 1 in H. rewrite bind_ret, bind_get_graph in H.
  cbv zeta in H.
  destruct (match find_value_by_name (graph s) y with
            | Some (_, v) => Some v
            | None => find_output_by_name (graph s) y
            end) as [v|]; [|discriminate H].
  destruct (nth_error (input nd) 0) as [in0|]; [|discriminate H].
  exists in0, v. split; [reflexivity|]. split; [reflexivity|].
  unfold orelse at 1 in H. rewrite bind_ret in H.
  inversion H. reflexivity.
Qed.

Lemma reshaped_body_spec op g s ref nd s1 :
  value_info (graph s) = value_info g /\ g_output (graph s) = g_output g ->
  nth_error (node (graph s)) ref = Some nd ->
  body op ref s = (Ok tt, s1) ->
  s1 = if is_op op nd then stood_in s ref (Reshaped.stand_in g nd) else s.
Proof.
  intros (Hvi & Hgo) Hnd H. unfold is_op.
  destruct (op_type nd =? op)%string eqn:Hop.
  - apply String.eqb_eq in Hop.
    destruct (body_completes _ _ _ _ _ Hnd Hop H) as (in0 & v & Hin & Hres & ->).
    unfold Reshaped.stand_in.
    rewrite Hin, <- (ToReshapeFacts.resolved_same g (graph s) nd Hvi Hgo), Hres.
    reflexivity.
  - apply String.eqb_neq in Hop.
    rewrite (ToReshapeFacts.body_other op s ref nd Hnd Hop) in H.
    now inversion H.
Qed.

Lemma shapes_of_frame g s s' :
  nodes_only s s' -> shapes_of g (graph s) -> shapes_of g (graph s').
Proof.
  intros ((_ & Ho & _) & Hv & _) (Hv' & Ho'). split; congruence.
Qed.

Lemma reshaped_body_ok op g s ref nd s1 :
  shapes_of g (graph s) ->
  nth_error (node (graph s)) ref = Some nd ->
  body op ref s = (Ok tt, s1) ->
  found op g nd.
Proof.
  intros (Hvi & Hgo) Hnd H Hop. apply String.eqb_eq in Hop.
  destruct (body_completes _ _ _ _ _ Hnd Hop H) as (in0 & v & Hin & Hres & _).
  exists in0, v. split; [exact Hin|].
  now rewrite <- (ToReshapeFacts.resolved_same g (graph s) nd Hvi Hgo).
Qed.

Lemma reshaped_body_again op g s ref nd :
  shapes_of g (graph s) ->
  nth_error (node (graph s)) ref = Some nd ->
  is_op op nd = false -> found op g nd ->
  body op ref s = (Ok tt, s).
Proof.
  intros _ Hnd Hop _. apply (ToReshapeFacts.body_other op s ref nd Hnd).
  now apply String.eqb_neq.
Qed.

Lemma reshaped_stand_in_unselected op g nd :
  op <> "Constant" -> op <> "Reshape" ->
  Forall (fun n => is_op op n = false) (Reshaped.stand_in g nd).
Proof.
  intros Hc Hr. unfold Reshaped.stand_in.
  destruct (nth_error (input nd) 0); [|constructor].
  destruct (resolved g nd); [|constructor].
  now apply ToReshapeFacts.replacement_not_op.
Qed.

End ReshapedFacts.

Lemma in_sorted_rebuilt p stand nodes k x :
  In x (rebuilt p stand nodes) -> In x (sort_nodes k (rebuilt p stand nodes)).
Proof.
  apply Permutation_in. symmetry. apply sort_nodes_Permutation.
Qed.

(** X19.  Whenever the pass for Squeeze nodes, or the one for Unsqueeze
    nodes, completes: the node list it leaves is the stabilizer's ordering
    of the nodes of the other operators, in their order, followed by a
    Constant and a Reshape for each Squeeze (Unsqueeze) node, in the order
    of these nodes; no Squeeze (Unsqueeze) node is left; every name that
    was the output of a node still is the output of a node; and nothing but
    the node list has changed. *)
Theorem squeeze_pass_leaves_no_squeeze :
  forall (op : string) (g : Graph) (s : State),
    op = "Squeeze" \/ op = "Unsqueeze" ->
    ToReshape.pass op g = (Ok tt, s) ->
    node (graph s)
    = sort_nodes
        (length (rebuilt (ToReshape.is_op op) (Reshaped.stand_in g) (node g)))
        (rebuilt (ToReshape.is_op op) (Reshaped.stand_in g) (node g))
    /\ Forall (fun n => op_type n <> op) (node (graph s))
    /\ (forall y, produces (node g) y -> produces (node (graph s)) y)
    /\ nodes_only (initial g) s.
Proof.
  intros op g s Hop H.
  assert (Hc : op <> "Constant") by (destruct Hop; subst; discriminate).
  assert (Hr : op <> "Reshape") by (destruct Hop; subst; discriminate).
  destruct (pass_rebuilds (ToReshape.body op) (ToReshape.is_op op)
              (Reshaped.stand_in g) (Reshaped.shapes_of g)
              (ReshapedFacts.shapes_of_frame g)
              (ReshapedFacts.reshaped_body_spec op g)
              (fun nd => ReshapedFacts.reshaped_stand_in_unselected op g nd Hc Hr)
              (Reshaped.found op g)
              (ReshapedFacts.reshaped_body_ok op g)
              _ g s (conj eq_refl eq_refl) H)
    as (Hn & Hnone & Hframe & Hoks & _).
  split; [exact Hn|]. split; [|split; [|exact Hframe]].
  - eapply Forall_impl; [|exact Hnone]. intros n Hn'.
    unfold ToReshape.is_op in Hn'. now apply String.eqb_neq.
  - intros y (n & Hin & Hy). rewrite Hn.
    destruct (ToReshape.is_op op n) eqn:Hsel.
    + assert (Hf : In n (filter (ToReshape.is_op op) (node g)))
        by (apply filter_In; split; assumption).
      rewrite Forall_forall in Hoks.
      destruct (Hoks n Hin Hsel) as (in0 & v & Hin0 & Hres).
      exists (make_node "Reshape" [in0; (name n ++ "_shape")%string] (output n)
                (name n) []).
      split; [|exact Hy].
      apply in_sorted_rebuilt. unfold rebuilt. apply in_or_app. right.
      apply in_flat_map. exists n. split; [exact Hf|].
      unfold Reshaped.stand_in. rewrite Hin0, Hres.
      unfold ToReshape.replacement. right. left. reflexivity.
    + exists n. split; [|exact Hy].
      apply in_sorted_rebuilt. unfold rebuilt. apply in_or_app. left.
      apply filter_In. split; [exact Hin | now rewrite Hsel].
Qed.

Lemma squeeze_pass_leaves_no_squeeze_witness :
  Forall (fun n => op_type n <> "Squeeze")
    (node (graph (snd (replace_Squeeze_with_Reshape
                         (ToReshapeExamples.g_resolved "Squeeze"))))).
Proof.
  refine (proj1 (proj2 (squeeze_pass_leaves_no_squeeze "Squeeze"
                          (ToReshapeExamples.g_resolved "Squeeze")
                          (snd (replace_Squeeze_with_Reshape
                                  (ToReshapeExamples.g_resolved "Squeeze")))
                          (or_introl eq_refl) _))).
  reflexivity.
Defined.

Module PoolingFacts.
Import AveragePool.

Lemma not_replace_same g g' nd attrs :
  value_info g' = value_info g ->
  not_replace g' nd attrs = not_replace g nd attrs.
Proof.
  intros Hvi. induction attrs as [|a attrs IH]; [reflexivity|].
  cbn [not_replace]. unfold find_value_by_name. rewrite Hvi, IH. reflexivity.
Qed.

Lemma pooling_body_spec g s ref nd s1 :
  value_info (graph s) = value_info g ->
  nth_error (node (graph s)) ref = Some nd ->
  body ref s = (Ok tt, s1) ->
  s1 = if Pooling.eligible g nd then stood_in s ref (Pooling.stand_in nd) else s.
Proof.
  intros Hvi Hnd H. unfold body in H.
  rewrite (bind_ok _ _ _ _ _ (node_at_ok _ _ _ Hnd)) in H.
  unfold Pooling.eligible.
  destruct (op_type nd =? "AveragePool")%string; cbn [negb andb] in *;
    [|now inversion H].
  rewrite bind_get_graph, (not_replace_same g (graph s) nd _ Hvi) in H.
  destruct (not_replace g nd (attribute nd)) as [e | [|]];
    [discriminate H | now inversion H | now inversion H].
Qed.

Lemma values_of_frame g s s' :
  nodes_only s s' ->
  value_info (graph s) = value_info g -> value_info (graph s') = value_info g.
Proof. intros (_ & Hv & _) Hv'. congruence. Qed.

Lemma pooling_body_ok g s ref nd s1 :
  value_info (graph s) = value_info g ->
  nth_error (node (graph s)) ref = Some nd ->
  body ref s = (Ok tt, s1) ->
  Pooling.examined g nd.
Proof.
  intros Hvi Hnd H Hop. unfold body in H.
  rewrite (bind_ok _ _ _ _ _ (node_at_ok _ _ _ Hnd)) in H.
  rewrite Hop, String.eqb_refl in H. cbn [negb] in H.
  rewrite bind_get_graph, (not_replace_same g (graph s) nd _ Hvi) in H.
  destruct (not_replace g nd (attribute nd)) as [e | b]; [discriminate H|].
  now exists b.
Qed.

Lemma pooling_body_again g s ref nd :
  value_info (graph s) = value_info g ->
  nth_error (node (graph s)) ref = Some nd ->
  Pooling.eligible g nd = false -> Pooling.examined g nd ->
  body ref s = (Ok tt, s).
Proof.
  intros Hvi Hnd Hel Hex. unfold body.
  rewrite (bind_ok _ _ _ _ _ (node_at_ok _ _ _ Hnd)).
  unfold Pooling.eligible in Hel.
  destruct (op_type nd =? "AveragePool")%string eqn:Hop; [|reflexivity].
  apply String.eqb_eq in Hop. destruct (Hex Hop) as (b & Hb).
  cbn [negb andb] in *.
  rewrite bind_get_graph, (not_replace_same g (graph s) nd _ Hvi), Hb.
  rewrite Hb in Hel. destruct b; [reflexivity | discriminate].
Qed.

Lemma pooling_stand_in_unselected g nd :
  Forall (fun n => Pooling.eligible g n = false) (Pooling.stand_in nd).
Proof. repeat constructor. Qed.

End PoolingFacts.

(** X20.  Whenever [replace_average_pool_with_GAP] completes: the node list
    it leaves is the stabilizer's ordering of the nodes it does not
    replace, in their order, followed by one GlobalAveragePool node for
    each AveragePool node it replaces, in the order of these nodes; none of
    the nodes left is an AveragePool node that the pass would replace;
    every name that was the output of a node still is the output of a node;
    and nothing but the node list has changed. *)
Theorem average_pool_pass_leaves_none_replaceable :
  forall (g : Graph) (s : State),
    replace_average_pool_with_GAP g = (Ok tt, s) ->
    node (graph s)
    = sort_nodes
        (length (rebuilt (Pooling.eligible g) Pooling.stand_in (node g)))
        (rebuilt (Pooling.eligible g) Pooling.stand_in (node g))
    /\ Forall (fun n => Pooling.eligible g n = false) (node (graph s))
    /\ (forall y, produces (node g) y -> produces (node (graph s)) y)
    /\ nodes_only (initial g) s.
Proof.
  intros g s H.
  destruct (pass_rebuilds AveragePool.body (Pooling.eligible g) Pooling.stand_in
              (fun g' => value_info g' = value_info g)
              (PoolingFacts.values_of_frame g)
              (PoolingFacts.pooling_body_spec g)
              (PoolingFacts.pooling_stand_in_unselected g)
              (Pooling.examined g)
              (PoolingFacts.pooling_body_ok g)
              _ g s eq_refl H) as (Hn & Hnone & Hframe & _).
  split; [exact Hn|]. split; [exact Hnone|]. split; [|exact Hframe].
  intros y (n & Hin & Hy). rewrite Hn.
  destruct (Pooling.eligible g n) eqn:Hsel.
  - exists (make_node "GlobalAveragePool" (input n) (output n) (name n) []).
    split; [|exact Hy].
    apply in_sorted_rebuilt. unfold rebuilt. apply in_or_app. right.
    apply in_flat_map. exists n. split; [|left; reflexivity].
    apply filter_In. split; assumption.
  - exists n. split; [|exact Hy].
    apply in_sorted_rebuilt. unfold rebuilt. apply in_or_app. left.
    apply filter_In. split; [exact Hin | now rewrite Hsel].
Qed.

Lemma average_pool_pass_leaves_none_replaceable_witness :
  node (graph (snd (replace_average_pool_with_GAP OtherExamples.g_pool)))
  = [make_node "GlobalAveragePool" ["x"] ["y"] "pool0" []].
Proof.
  refine (proj1 (average_pool_pass_leaves_none_replaceable OtherExamples.g_pool
                   (snd (replace_average_pool_with_GAP OtherExamples.g_pool)) _)).
  reflexivity.
Defined.

Module SplitPass.
Import Slicing.

Lemma resolve_same g g' x :
  value_info g' = value_info g -> g_input g' = g_input g ->
  ShapeFold.resolve g' x = ShapeFold.resolve g x.
Proof.
  intros Hv Hi. unfold ShapeFold.resolve, find_value_by_name, find_input_by_name.
  now rewrite Hv, Hi.
Qed.

(** An iteration on a Split node whose operand has a shape. *)
Lemma body_shaped s ref nd data v :
  nth_error (node (graph s)) ref = Some nd ->
  op_type nd = "Split" ->
  nth_error (input nd) 0 = Some data ->
  ShapeFold.resolve (graph s) data = Some v ->
  vi_dim v <> [] ->
  Split.body ref s
  = match Py.index (vi_dim v) (fst (Split.read_attributes (attribute nd))),
          nth_error (attribute nd) 1 with
    | Some _, Some a1 =>
        (fold_each (seq 0 (length (a_ints a1))) 0
           (cut data (fst (Split.read_attributes (attribute nd)))
              (a_ints a1) (output nd)) ;;
         mark_for_removal ref) s
    | _, _ => (Raise IndexError, s)
    end.
Proof.
  intros Hnd Hop Hin Hres Hdim.
  destruct (Py.index (vi_dim v) (fst (Split.read_attributes (attribute nd))))
    as [d|] eqn:Hd;
    [destruct (nth_error (attribute nd) 1) as [a1|] eqn:Ha1|].
  - exact (split_body_with_sizes _ _ _ _ _ _ _ Hnd Hop Hin Hres Hdim Hd Ha1).
  - unfold Split.body.
    rewrite (bind_ok _ _ _ _ _ (node_at_ok _ _ _ Hnd)).
    rewrite Hop, String.eqb_refl. cbn [negb]. rewrite Hin.
    unfold orelse at 1. rewrite bind_ret, bind_get_graph.
    fold (ShapeFold.resolve (graph s) data). rewrite Hres.
    unfold find_size_shape_from_value. cbv zeta. rewrite length_map.
    destruct (vi_dim v) as [|d0 ds] eqn:Hdims; [congruence|].
    cbn [length Nat.eqb].
    destruct (Split.read_attributes (attribute nd)) as [axis split] eqn:Hattrs.
    cbn [fst] in *. rewrite Hd. unfold orelse at 1. rewrite bind_ret.
    unfold Split.is_not_new_list. rewrite Ha1. reflexivity.
  - unfold Split.body.
    rewrite (bind_ok _ _ _ _ _ (node_at_ok _ _ _ Hnd)).
    rewrite Hop, String.eqb_refl. cbn [negb]. rewrite Hin.
    unfold orelse at 1. rewrite bind_ret, bind_get_graph.
    fold (ShapeFold.resolve (graph s) data). rewrite Hres.
    unfold find_size_shape_from_value. cbv zeta. rewrite length_map.
    destruct (vi_dim v) as [|d0 ds] eqn:Hdims; [congruence|].
    cbn [length Nat.eqb].
    destruct (Split.read_attributes (attribute nd)) as [axis split] eqn:Hattrs.
    cbn [fst] in *. rewrite Hd. reflexivity.
Qed.

(** An iteration on a Split node whose operand has no shape, or on another
    node. *)
Lemma body_unshaped s ref nd :
  nth_error (node (graph s)) ref = Some nd ->
  target (graph s) nd = false ->
  forall s1, Split.body ref s = (Ok tt, s1) -> s1 = s.
Proof.
  intros Hnd Ht s1 H. unfold Split.body in H.
  rewrite (bind_ok _ _ _ _ _ (node_at_ok _ _ _ Hnd)) in H.
  unfold target in Ht.
  destruct (op_type nd =? "Split")%string; cbn [negb andb] in *;
    [|now inversion H].
  destruct (nth_error (input nd) 0) as [data|]; [|discriminate H].
  unfold orelse at 1 in H. rewrite bind_ret, bind_get_graph in H.
  fold (ShapeFold.resolve (graph s) data) in H.
  destruct (ShapeFold.resolve (graph s) data) as [v|]; [|discriminate H].
  unfold find_size_shape_from_value in H. cbv zeta in H.
  rewrite length_map in H. apply negb_false_iff in Ht. rewrite Ht in H.
  now inversion H.
Qed.

Lemma slicing_body_spec g s ref nd s1 :
  value_info (graph s) = value_info g /\ g_input (graph s) = g_input g ->
  nth_error (node (graph s)) ref = Some nd ->
  Split.body ref s = (Ok tt, s1) ->
  s1 = if target g nd then stood_in s ref (stand_in nd) else s.
Proof.
  intros (Hvi & Hgi) Hnd H.
  assert (Ht : target (graph s) nd = target g nd).
  { unfold target. destruct (nth_error (input nd) 0); [|reflexivity].
    now rewrite (resolve_same g (graph s) _ Hvi Hgi). }
  destruct (target g nd) eqn:Htarget.
  - unfold target in Ht. apply andb_true_iff in Ht. destruct Ht as (Hop & Hshape).
    apply String.eqb_eq in Hop.
    destruct (nth_error (input nd) 0) as [data|] eqn:Hin; [|discriminate].
    destruct (ShapeFold.resolve (graph s) data) as [v|] eqn:Hres; [|discriminate].
    assert (Hdim : vi_dim v <> []).
    { intros E. rewrite E in Hshape. discriminate. }
    rewrite (body_shaped _ _ _ _ _ Hnd Hop Hin Hres Hdim) in H.
    unfold stand_in. rewrite Hin.
    destruct (Py.index (vi_dim v) (fst (Split.read_attributes (attribute nd))));
      [|discriminate H].
    destruct (nth_error (attribute nd) 1) as [a1|]; [|discriminate H].
    destruct (le_lt_dec (length (a_ints a1)) (length (output nd))) as [Hle | Hlt].
    + rewrite (bind_ok _ _ _ _ _
                 (SlicingFacts.loop data _ (a_ints a1) (output nd)
                    (length (a_ints a1)) 0 s (Nat.le_refl _) Hle)) in H.
      now inversion H.
    + rewrite (bind_raise _ _ _ _ _
                 (SlicingFacts.loop_short data _ (a_ints a1) (output nd) s Hlt)) in H.
      discriminate H.
  - exact (body_unshaped s ref nd Hnd Ht s1 H).
Qed.

Lemma operands_of_frame g s s' :
  nodes_only s s' ->
  value_info (graph s) = value_info g /\ g_input (graph s) = g_input g ->
  value_info (graph s') = value_info g /\ g_input (graph s') = g_input g.
Proof.
  intros ((Hi & _) & Hv & _) (Hv' & Hi'). split; congruence.
Qed.

Lemma slicing_body_ok g s ref nd s1 :
  value_info (graph s) = value_info g /\ g_input (graph s) = g_input g ->
  nth_error (node (graph s)) ref = Some nd ->
  Split.body ref s = (Ok tt, s1) ->
  examined g nd.
Proof.
  intros (Hvi & Hgi) Hnd H Hop. unfold Split.body in H.
  rewrite (bind_ok _ _ _ _ _ (node_at_ok _ _ _ Hnd)) in H.
  rewrite Hop, String.eqb_refl in H. cbn [negb] in H.
  destruct (nth_error (input nd) 0) as [data|]; [|discriminate H].
  unfold orelse at 1 in H. rewrite bind_ret, bind_get_graph in H.
  fold (ShapeFold.resolve (graph s) data) in H.
  rewrite (resolve_same g (graph s) _ Hvi Hgi) in H.
  destruct (ShapeFold.resolve g data) as [v|] eqn:Hres; [|discriminate H].
  exists data, v. split; [reflexivity | exact Hres].
Qed.

Lemma slicing_body_again g s ref nd :
  value_info (graph s) = value_info g /\ g_input (graph s) = g_input g ->
  nth_error (node (graph s)) ref = Some nd ->
  target g nd = false -> examined g nd ->
  Split.body ref s = (Ok tt, s).
Proof.
  intros (Hvi & Hgi) Hnd Ht Hex. unfold Split.body.
  rewrite (bind_ok _ _ _ _ _ (node_at_ok _ _ _ Hnd)).
  unfold target in Ht.
  destruct (op_type nd =? "Split")%string eqn:Hop; [|reflexivity].
  apply String.eqb_eq in Hop. destruct (Hex Hop) as (data & v & Hin & Hres).
  cbn [negb andb] in *. rewrite Hin in Ht |- *. rewrite Hres in Ht.
  unfold orelse at 1. rewrite bind_ret, bind_get_graph.
  fold (ShapeFold.resolve (graph s) data).
  rewrite (resolve_same g (graph s) _ Hvi Hgi), Hres.
  unfold find_size_shape_from_value. cbv zeta. rewrite length_map.
  apply negb_false_iff in Ht. now rewrite Ht.
Qed.

Lemma slicing_stand_in_unselected g nd :
  Forall (fun n => target g n = false) (stand_in nd).
Proof.
  unfold stand_in. destruct (nth_error (input nd) 0); [|constructor].
  destruct (nth_error (attribute nd) 1); [|constructor].
  unfold slices. apply Forall_forall. intros n Hn.
  apply in_map_iff in Hn. destruct Hn as (i & <- & _). reflexivity.
Qed.

End SplitPass.

(** X21.  Whenever [replace_split_with_slices] completes: the node list it
    leaves is the stabilizer's ordering of the nodes it does not replace,
    in their order, followed by the Slice nodes of each Split node whose
    operand has a shape, one for each integer of the second attribute of
    the node, in the order of these nodes; no Split node whose operand has a
    shape is left; and nothing but the node list has changed. *)
Theorem split_pass_leaves_no_shaped_split :
  forall (g : Graph) (s : State),
    replace_split_with_slices g = (Ok tt, s) ->
    node (graph s)
    = sort_nodes
        (length (rebuilt (Slicing.target g) Slicing.stand_in (node g)))
        (rebuilt (Slicing.target g) Slicing.stand_in (node g))
    /\ Forall (fun n => Slicing.target g n = false) (node (graph s))
    /\ nodes_only (initial g) s.
Proof.
  intros g s H.
  destruct (pass_rebuilds Split.body (Slicing.target g) Slicing.stand_in
              (fun g' => value_info g' = value_info g /\ g_input g' = g_input g)
              (SplitPass.operands_of_frame g)
              (SplitPass.slicing_body_spec g)
              (SplitPass.slicing_stand_in_unselected g)
              (Slicing.examined g)
              (SplitPass.slicing_body_ok g)
              _ g s (conj eq_refl eq_refl) H) as (Hn & Hnone & Hframe & _).
  split; [exact Hn|]. split; [exact Hnone | exact Hframe].
Qed.

Lemma split_pass_leaves_no_shaped_split_witness :
  node (graph (snd (replace_split_with_slices SplitExamples.g_sizes_last)))
  = [Split.slice "X" "a" 0 4 0; Split.slice "X" "b" 0 9 4].
Proof.
  refine (proj1 (split_pass_leaves_no_shaped_split SplitExamples.g_sizes_last
                   (snd (replace_split_with_slices SplitExamples.g_sizes_last)) _)).
  reflexivity.
Defined.

(** ** The flag that the Shape pass returns *)

Lemma marked_or_same_refl s : marked_or_same s s.
Proof. split; [exists []; now rewrite app_nil_r | reflexivity]. Qed.

Lemma marked_or_same_trans s1 s2 s3 :
  marked_or_same s1 s2 -> marked_or_same s2 s3 -> marked_or_same s1 s3.
Proof.
  intros ((l1 & H1) & E1) ((l2 & H2) & E2). split.
  - exists (l1 ++ l2). now rewrite H2, H1, app_assoc.
  - intros H. rewrite H2, H1, <- app_assoc in H.
    assert (Hnil : l1 ++ l2 = []).
    { apply (f_equal (@length nat)) in H. rewrite length_app in H.
      destruct (l1 ++ l2); [reflexivity | simpl in H; lia]. }
    apply app_eq_nil in Hnil. destruct Hnil as (-> & ->).
    rewrite app_nil_r in H1, H2.
    rewrite (E2 H2). exact (E1 H1).
Qed.

Lemma marked_more s g' ref out :
  marked_or_same s (mkState g' (node_to_remove s ++ [ref]) out).
Proof.
  split; [exists [ref]; reflexivity|]. cbn [node_to_remove]. intros H.
  apply (f_equal (@length nat)) in H. rewrite length_app in H. simpl in H. lia.
Qed.

Lemma shape_body_marks_or_leaves ref : keeps marked_or_same (ShapeFold.body ref).
Proof.
  intros s. unfold ShapeFold.body. mred.
  repeat (match goal with
          | |- context [match ?x with _ => _ end] =>
              lazymatch x with
              | context [match _ with _ => _ end] => fail
              | _ => destruct x eqn:?
              end
          end; mred);
    cbn [snd]; first [apply marked_or_same_refl | apply marked_more].
Qed.

(** X22.  When [replace_shape_with_constant] returns False, it has done
    nothing but run the stabilizer on the node list: no node was appended or
    removed, and no ValueInfo was deleted. *)
Theorem shape_pass_false_means_unchanged :
  forall (g : Graph) (s : State),
    replace_shape_with_constant g = (Ok false, s) ->
    s = sorted_only g.
Proof.
  intros g s H. unfold replace_shape_with_constant in H.
  pose proof (keeps_for_each_node marked_or_same marked_or_same_refl
                marked_or_same_trans ShapeFold.body shape_body_marks_or_leaves
                (scan_fuel ShapeFold.cost g) 0 (initial g)) as (_ & Hsame).
  unfold bind at 1 in H.
  destruct (for_each_node ShapeFold.body (scan_fuel ShapeFold.cost g) 0 (initial g))
    as [[[] | e |] s1]; try discriminate H.
  cbn [snd] in Hsame. unfold bind at 1 in H.
  destruct (node_to_remove s1) as [|r marks] eqn:Hmarks.
  - rewrite (Hsame eq_refl) in H. inversion H. reflexivity.
  - exfalso. revert H. unfold bind. cbn [length Nat.ltb Nat.leb].
    destruct (remove_marked_nodes s1) as [[[] | e |] s2]; discriminate.
Qed.

Lemma shape_pass_false_means_unchanged_witness :
  snd (replace_shape_with_constant IdleExamples.g_unknown_shapes)
  = sorted_only IdleExamples.g_unknown_shapes.
Proof.
  apply shape_pass_false_means_unchanged. reflexivity.
Defined.

(** ** Scans over a node list that grows *)

(** X23.  The passes for Split, Squeeze, Unsqueeze and AveragePool nodes
    append nodes to the list they are iterating over, and the iteration
    visits the appended nodes too.  On every graph it ends, with a value or
    with an exception, within one step for each node of the graph and one
    for each node that can be appended: the appended nodes are Slice,
    Constant, Reshape and GlobalAveragePool nodes, for which nothing is
    appended in turn. *)
Theorem node_list_scans_end :
  forall g : Graph,
    fst (replace_split_with_slices g) <> OutOfFuel
    /\ fst (replace_Squeeze_with_Reshape g) <> OutOfFuel
    /\ fst (replace_Unsqueeze_with_Reshape g) <> OutOfFuel
    /\ fst (replace_average_pool_with_GAP g) <> OutOfFuel.
Proof.
  intros g. split; [apply split_pass_total|].
  split; [apply squeeze_pass_total|].
  split; [apply unsqueeze_pass_total | apply average_pool_pass_total].
Qed.

(** X24.  The passes for Shape and Conv nodes append Constant and
    BatchNormalization nodes to the list they are iterating over, and the
    pass for Reshape nodes rewrites nodes in place.  On every graph their
    iteration ends, with a value or with an exception, within one step for
    each node of the graph and one for each node that can be appended. *)
Theorem value_editing_scans_end :
  forall g : Graph,
    fst (replace_shape_with_constant g) <> OutOfFuel
    /\ fst (replace_dilated_conv g) <> OutOfFuel
    /\ fst (replace_depthwise_1x1_with_bn g) <> OutOfFuel
    /\ fst (replace_Reshape_with_Flatten g) <> OutOfFuel.
Proof.
  intros g. split; [apply shape_pass_total|].
  split; [apply dilated_pass_total|].
  split; [apply depthwise_pass_total | apply reshape_pass_total].
Qed.

(** ** Running a pass a second time *)

(** X25.  When the pass for Squeeze nodes, or the one for Unsqueeze nodes,
    has completed, a second run on the graph it left completes too and does
    nothing but run the stabilizer on the node list. *)
Theorem squeeze_pass_twice_only_sorts :
  forall (op : string) (g : Graph) (s : State),
    op = "Squeeze" \/ op = "Unsqueeze" ->
    ToReshape.pass op g = (Ok tt, s) ->
    ToReshape.pass op (graph s) = (Ok tt, sorted_only (graph s)).
Proof.
  intros op g s Hop H.
  assert (Hc : op <> "Constant") by (destruct Hop; subst; discriminate).
  assert (Hr : op <> "Reshape") by (destruct Hop; subst; discriminate).
  exact (pass_again (ToReshape.body op) (ToReshape.is_op op)
           (Reshaped.stand_in g) (Reshaped.shapes_of g)
           (ReshapedFacts.shapes_of_frame g)
           (ReshapedFacts.reshaped_body_spec op g)
           (fun nd => ReshapedFacts.reshaped_stand_in_unselected op g nd Hc Hr)
           (Reshaped.found op g)
           (ReshapedFacts.reshaped_body_ok op g)
           (ToReshape.cost op) _ g s
           (ReshapedFacts.reshaped_body_again op g)
           (conj eq_refl eq_refl) H).
Qed.

Lemma squeeze_pass_twice_only_sorts_witness :
  replace_Unsqueeze_with_Reshape
    (graph (snd (replace_Unsqueeze_with_Reshape
                   (ToReshapeExamples.g_resolved "Unsqueeze"))))
  = (Ok tt,
     sorted_only
       (graph (snd (replace_Unsqueeze_with_Reshape
                      (ToReshapeExamples.g_resolved "Unsqueeze"))))).
Proof.
  refine (squeeze_pass_twice_only_sorts "Unsqueeze"
            (ToReshapeExamples.g_resolved "Unsqueeze")
            (snd (replace_Unsqueeze_with_Reshape
                    (ToReshapeExamples.g_resolved "Unsqueeze")))
            (or_intror eq_refl) _).
  reflexivity.
Defined.

(** X26.  When [replace_average_pool_with_GAP] has completed, a second run
    on the graph it left completes too and does nothing but run the
    stabilizer on the node list: the AveragePool nodes that are left are
    those that the pass does not replace. *)
Theorem average_pool_pass_twice_only_sorts :
  forall (g : Graph) (s : State),
    replace_average_pool_with_GAP g = (Ok tt, s) ->
    replace_average_pool_with_GAP (graph s) = (Ok tt, sorted_only (graph s)).
Proof.
  intros g s H.
  exact (pass_again AveragePool.body (Pooling.eligible g) Pooling.stand_in
           (fun g' => value_info g' = value_info g)
           (PoolingFacts.values_of_frame g)
           (PoolingFacts.pooling_body_spec g)
           (PoolingFacts.pooling_stand_in_unselected g)
           (Pooling.examined g)
           (PoolingFacts.pooling_body_ok g)
           AveragePool.cost _ g s
           (PoolingFacts.pooling_body_again g)
           eq_refl H).
Qed.

Lemma average_pool_pass_twice_only_sorts_witness :
  replace_average_pool_with_GAP
    (graph (snd (replace_average_pool_with_GAP OtherExamples.g_pool)))
  = (Ok tt,
     sorted_only (graph (snd (replace_average_pool_with_GAP OtherExamples.g_pool)))).
Proof.
  refine (average_pool_pass_twice_only_sorts OtherExamples.g_pool
            (snd (replace_average_pool_with_GAP OtherExamples.g_pool)) _).
  reflexivity.
Defined.

(** X27.  When [replace_split_with_slices] has completed, a second run on
    the graph it left completes too and does nothing but run the stabilizer
    on the node list: the Split nodes that are left are those whose operand
    has a ValueInfo without dimensions. *)
Theorem split_pass_twice_only_sorts :
  forall (g : Graph) (s : State),
    replace_split_with_slices g = (Ok tt, s) ->
    replace_split_with_slices (graph s) = (Ok tt, sorted_only (graph s)).
Proof.
  intros g s H.
  exact (pass_again Split.body (Slicing.target g) Slicing.stand_in
           (fun g' => value_info g' = value_info g /\ g_input g' = g_input g)
           (SplitPass.operands_of_frame g)
           (SplitPass.slicing_body_spec g)
           (SplitPass.slicing_stand_in_unselected g)
           (Slicing.examined g)
           (SplitPass.slicing_body_ok g)
           Split.cost _ g s
           (SplitPass.slicing_body_again g)
           (conj eq_refl eq_refl) H).
Qed.

Lemma split_pass_twice_only_sorts_witness :
  replace_split_with_slices
    (graph (snd (replace_split_with_slices SplitExamples.g_sizes_last)))
  = (Ok tt,
     sorted_only (graph (snd (replace_split_with_slices SplitExamples.g_sizes_last)))).
Proof.
  refine (split_pass_twice_only_sorts SplitExamples.g_sizes_last
            (snd (replace_split_with_slices SplitExamples.g_sizes_last)) _).
  reflexivity.
Defined.

(** ** The order of the nodes after the Reshape pass *)

Lemma Subseq_map {A B} (f : A -> B) (a b : list A) :
  Subseq a b -> Subseq (map f a) (map f b).
Proof. induction 1; simpl; constructor; assumption. Qed.

Lemma nodes_thinned_refl s : nodes_thinned s s.
Proof. apply Subseq_refl. Qed.

Lemma nodes_thinned_trans s1 s2 s3 :
  nodes_thinned s1 s2 -> nodes_thinned s2 s3 -> nodes_thinned s1 s3.
Proof. unfold nodes_thinned. intros H1 H2. eapply Subseq_trans; eassumption. Qed.

Lemma flatten_body_thins ref : keeps nodes_thinned (Flatten.body ref).
Proof.
  intros s. unfold Flatten.body. mred.
  repeat (match goal with
          | |- context [match ?x with _ => _ end] =>
              lazymatch x with
              | context [match _ with _ => _ end] => fail
              | _ => destruct x eqn:?
              end
          end; mred);
    cbn [snd]; try apply nodes_thinned_refl;
    unfold nodes_thinned; cbn [graph node];
    (erewrite map_set_nth_same; [apply Subseq_refl | eassumption | reflexivity]).
Qed.

Lemma remove_node_thins v : keeps nodes_thinned (remove_node v).
Proof.
  write_cases; try apply nodes_thinned_refl.
  unfold nodes_thinned. cbn [graph node].
  apply Subseq_map. eapply remove_is_Subseq. eassumption.
Qed.

(** X28.  [replace_Reshape_with_Flatten] never appends, renames or reorders
    a node: on every graph, whether it completes or raises, the nodes it
    leaves are nodes of the graph it was given, in their order and with some
    left out, each under the name and with the outputs that it had. *)
Theorem reshape_pass_keeps_node_order :
  forall g : Graph,
    Subseq
      (map node_id (node (graph (snd (replace_Reshape_with_Flatten g)))))
      (map node_id (node g)).
Proof.
  intros g. unfold replace_Reshape_with_Flatten.
  refine ((_ : keeps nodes_thinned _) (initial g)).
  apply (keeps_bind _ nodes_thinned_trans).
  - apply (keeps_for_each_node _ nodes_thinned_refl nodes_thinned_trans).
    exact flatten_body_thins.
  - intros _. unfold remove_marked_nodes.
    apply (keeps_bind _ nodes_thinned_trans);
      [apply (keeps_read _ nodes_thinned_refl graph) | intros g0].
    apply (keeps_bind _ nodes_thinned_trans);
      [apply (keeps_read _ nodes_thinned_refl) | intros victims].
    apply (keeps_for_each _ nodes_thinned_refl nodes_thinned_trans).
    exact remove_node_thins.
Qed.
